(** * Marketing analytics team: the orchestration core, embedded in Rocq

    A shallow embedding of [marketing_analytics_team] (state.py, teams.py and
    the agents package): the shared [AgentState], the supervisor's routing
    policy, the plan / detect / validate / execute pipeline of the SQL agent,
    the other responder nodes, and the LangGraph wiring that threads the state
    through them.

    Conventions.
    - Text is [string], a Python [str] kept as its UTF-8 bytes. Lengths
      and slices count characters ([Py.len], [Py.take_chars]); searching,
      replacing and splitting at an ASCII text are the same on bytes and on
      characters. The case mappings [lower] and [upper] act on the ASCII
      letters and [is_space] is the ASCII part of Python's whitespace class:
      they are Python's on ASCII text ([Py.is_ascii]) and on no other, and a
      statement that depends on them beyond the fixed ASCII keywords says
      so in a hypothesis.
    - Python's unbounded [int] is [Z].
    - The language model, the data store and the pandas and json routines
      are external collaborators: they are the fields of [Env], a node may
      fail where they raise, and every call to the model and to the store
      is recorded in a trace of [Event]s.
    - A run of the compiled graph is a sequence of [Config]s under [step];
      [Reach] collects the configurations of a turn. *)

From Stdlib Require Import ZArith List String Ascii Bool Arith Lia DecimalString.
Import ListNotations.
Local Open Scope string_scope.
Local Open Scope nat_scope.

(* ===================================================================== *)
(** ** Python [str] operations used by the agents *)
(* ===================================================================== *)

Module Py.

(** A byte [10xxxxxx] continues the character begun before it; every other
    byte begins a character. *)
Definition is_continuation (c : ascii) : bool :=
  let n := nat_of_ascii c in
  (128 <=? n) && (n <? 192).

(** [len(s)]: the number of characters. *)
Fixpoint len (s : string) : nat :=
  match s with
  | EmptyString => 0
  | String c s' => if is_continuation c then len s' else S (len s')
  end.

(** [s[:n]]: the first [n] characters. *)
Fixpoint take_chars (n : nat) (s : string) : string :=
  match s with
  | EmptyString => EmptyString
  | String c s' =>
      if is_continuation c then String c (take_chars n s')
      else
        match n with
        | O => EmptyString
        | S k => String c (take_chars k s')
        end
  end.

(** The text holds ASCII characters only. *)
Definition is_ascii_char (c : ascii) : bool := nat_of_ascii c <? 128.

Fixpoint is_ascii (s : string) : bool :=
  match s with
  | EmptyString => true
  | String c s' => is_ascii_char c && is_ascii s'
  end.

(** [c.isspace()] on the ASCII range: tab, LF, VT, FF, CR, FS, GS, RS, US
    and the space. *)
Definition is_space (c : ascii) : bool :=
  let n := nat_of_ascii c in
  ((9 <=? n) && (n <=? 13)) || ((28 <=? n) && (n <=? 32)).

Definition lower_char (c : ascii) : ascii :=
  let n := nat_of_ascii c in
  if (65 <=? n) && (n <=? 90) then ascii_of_nat (n + 32) else c.

Definition upper_char (c : ascii) : ascii :=
  let n := nat_of_ascii c in
  if (97 <=? n) && (n <=? 122) then ascii_of_nat (n - 32) else c.

Fixpoint map_str (f : ascii -> ascii) (s : string) : string :=
  match s with
  | EmptyString => EmptyString
  | String c s' => String (f c) (map_str f s')
  end.

(** [s.lower()] and [s.upper()]. *)
Definition lower : string -> string := map_str lower_char.
Definition upper : string -> string := map_str upper_char.

(** [s.startswith(p)]. *)
Fixpoint startswith (p s : string) : bool :=
  match p, s with
  | EmptyString, _ => true
  | String a p', String b s' => Ascii.eqb a b && startswith p' s'
  | String _ _, EmptyString => false
  end.

(** [sub in s]. *)
Fixpoint contains (sub s : string) : bool :=
  startswith sub s ||
  match s with
  | EmptyString => false
  | String _ s' => contains sub s'
  end.

Fixpoint drop (n : nat) (s : string) : string :=
  match n, s with
  | O, _ => s
  | S _, EmptyString => EmptyString
  | S k, String _ s' => drop k s'
  end.

(** [s.count(sub)]: the number of non-overlapping occurrences, found from
    the left; after a match the scan resumes behind it ([skip] characters
    are passed over). For the empty [sub] Python answers [len(s) + 1]. *)
Fixpoint count_from (sub : string) (skip : nat) (s : string) : nat :=
  match s with
  | EmptyString => 0
  | String _ s' =>
      match skip with
      | S k => count_from sub k s'
      | O =>
          if startswith sub s
          then S (count_from sub (String.length sub - 1) s')
          else count_from sub 0 s'
      end
  end.

Definition count (sub s : string) : nat :=
  match sub with
  | EmptyString => S (len s)
  | _ => count_from sub 0 s
  end.

(** [s.replace(old, new)] for a non-empty [old]. *)
Fixpoint replace_from (old new : string) (skip : nat) (s : string) : string :=
  match s with
  | EmptyString => EmptyString
  | String c s' =>
      match skip with
      | S k => replace_from old new k s'
      | O =>
          if startswith old s
          then new ++ replace_from old new (String.length old - 1) s'
          else String c (replace_from old new 0 s')
      end
  end.

Definition replace (old new s : string) : string := replace_from old new 0 s.

(** [s.lstrip()], [s.rstrip()], [s.strip()]. *)
Fixpoint lstrip (s : string) : string :=
  match s with
  | EmptyString => EmptyString
  | String c s' => if is_space c then lstrip s' else s
  end.

Fixpoint rstrip (s : string) : string :=
  match s with
  | EmptyString => EmptyString
  | String c s' =>
      match rstrip s' with
      | EmptyString => if is_space c then EmptyString else String c EmptyString
      | r => String c r
      end
  end.

Definition strip (s : string) : string := rstrip (lstrip s).

(** [s.split(sep)[0]] for a one-character separator: the text before the
    first [sep], the whole text when there is none. *)
Fixpoint before (sep : ascii) (s : string) : string :=
  match s with
  | EmptyString => EmptyString
  | String c s' => if Ascii.eqb c sep then EmptyString else String c (before sep s')
  end.

(** [sep.join(parts)]. *)
Fixpoint join (sep : string) (parts : list string) : string :=
  match parts with
  | [] => EmptyString
  | [p] => p
  | p :: rest => p ++ sep ++ join sep rest
  end.

(** Truthiness of a [str] and of an [Optional[str]]. *)
Definition truthy_str (s : string) : bool :=
  match s with EmptyString => false | _ => true end.

Definition truthy (o : option string) : bool :=
  match o with None => false | Some s => truthy_str s end.

(** [x in xs] for a list of strings. *)
Definition mem (x : string) (xs : list string) : bool :=
  existsb (String.eqb x) xs.

(** [any(kw in s for kw in kws)]. *)
Definition any_in (kws : list string) (s : string) : bool :=
  existsb (fun kw => contains kw s) kws.

End Py.

(** What the substring tests decide, stated without reference to the scan. *)
Definition Occurs (sub s : string) : Prop :=
  exists pre post, s = pre ++ sub ++ post.

Definition OccursTwice (sub s : string) : Prop :=
  exists a b c, s = a ++ sub ++ b ++ sub ++ c.

(* ===================================================================== *)
(** ** The fixed texts: prompts and responder messages *)
(* ===================================================================== *)

Module Text.

(** The double quote, for texts that contain one. *)
Definition dq : string := String (ascii_of_nat 34) EmptyString.

(** Python's [str(n)] for a natural number. *)
Definition str_of_nat (n : nat) : string :=
  NilEmpty.string_of_uint (Nat.to_uint n).

(** sql_agent.py, [PLAN_PROMPT.format(columns=, segments=, question=)]. *)
Definition PLAN_PROMPT (columns segments question : string) : string :=
  "You are a SQL query planner for a CUSTOMER LEADS database.

CRITICAL CONTEXT:
- " ++ dq ++ "Champions" ++ dq ++ ", " ++ dq ++ "Highly Engaged" ++ dq ++ ", " ++ dq ++ "At Risk" ++ dq ++ " etc. are CUSTOMER SEGMENT names, NOT sports/games
- This is a marketing database with lead/customer information
- NEVER search the web - use only the database schema provided

Database table: leadscored
Columns: " ++ columns ++ "
Segment values: " ++ segments ++ "

RULES:
- Plan for SIMPLE queries only (single SELECT, basic WHERE, GROUP BY, ORDER BY)
- NO CTEs, NO subqueries, NO complex joins
- If request cannot be answered with this schema, say: CANNOT_ANSWER: [reason]

User request: " ++ question ++ "

Respond with a brief SQL plan (2-3 sentences max):
".

(** sql_agent.py, [SQL_GENERATE_PROMPT.format(plan=, columns=)]. *)
Definition SQL_GENERATE_PROMPT (plan columns : string) : string :=
  "Generate a SIMPLE SQL query based on this plan.

Plan: " ++ plan ++ "

Table: leadscored
Columns: " ++ columns ++ "

RULES:
- Single SELECT statement only
- NO CTEs (WITH clauses) 
- NO subqueries
- NO comments in SQL
- Return ONLY the SQL query

SQL:".

(** The clarification texts of the SQL agent (sql_agent.py, lines 171 to 285). *)
Definition msg_gaming_confusion : string :=
  "[SQL Agent]
ü§î **Clarification Needed**

I noticed you mentioned 'Champions'. In our database, this refers to a **customer segment**, not gaming/sports.

Did you mean:
- **Option A:** Champions customer segment (high-value customers)
- **Option B:** Something else

Please select an option or rephrase your question.".

(** sql_agent.py, line 179. *)
Definition msg_web_search : string :=
  "[SQL Agent]
ü§î **Clarification Needed**

I was about to search the web, but I should only query our database.

Could you rephrase your question to ask about:
- Customer segments (Champions, At Risk, etc.)
- Lead sources, countries, occupations
- Engagement scores, conversions

What specific data would you like from our leads database?".

(** sql_agent.py, line 187. *)
Definition msg_not_sql : string :=
  "[SQL Agent]
ü§î **Clarification Needed**

I'm not sure how to answer this with our database.

Available data:
- Customer segments: Champions, Highly Engaged, Potential Loyalists, At Risk, Low Value
- Columns: Country, City, Occupation, Lead_Source, engagement_score, Converted

Could you rephrase your question?".

(** sql_agent.py, line 197. *)
Definition msg_cannot_answer (plan columns : string) : string :=
  "[SQL Agent]
‚ö†Ô∏è " ++ plan ++ "

Available columns: " ++ columns.

(** sql_agent.py, line 219. *)
Definition msg_invalid_sql : string :=
  "[SQL Agent]
ü§î **Clarification Needed**

I couldn't generate a valid SQL query for your request.

Please try asking about:
- Segment counts or distributions
- Top customers by engagement
- Lead source breakdown
- Country/city statistics".

(** sql_agent.py, line 243. *)
Definition msg_validation_failed (validation_error sql_query : string) : string :=
  "[SQL Agent]
‚ùå **SQL Validation Failed:**
" ++ validation_error ++ "

**Attempted SQL:**
```sql
" ++ sql_query ++ "
```

Would you like to try a simpler query?".

(** sql_agent.py, line 273. *)
Definition msg_execution_error (plan sql_query error_msg : string) : string :=
  "[SQL Agent]
**üìã Plan:** " ++ plan ++ "

**üìù SQL:**
```sql
" ++ sql_query ++ "
```

**‚ùå Execution Error:** " ++ error_msg ++ "

Would you like to try a different query?".

(** dataviz_agent.py, [DATAVIZ_PROMPT.format(columns=, data_summary=, question=)]. *)
Definition DATAVIZ_PROMPT (columns data_summary question : string) : string :=
  "You are a Data Visualization and BI Analytics expert.

Analyze the following data and provide:
1. Key insights and patterns
2. Recommendations based on the findings

Data columns: " ++ columns ++ "
Data summary:
" ++ data_summary ++ "

User question: " ++ question ++ "

Provide 3-5 bullet points of actionable insights.
".

(** dataviz_agent.py, line 52. *)
Definition msg_no_data : string :=
  "[Data Viz Agent]
⚠️ No data available. Please query data first.".

(** dataviz_agent.py, line 62. *)
Definition msg_parse_error (error_msg : string) : string :=
  "[Data Viz Agent]
⚠️ Could not parse data: " ++ error_msg.

(** dataviz_agent.py, line 68. *)
Definition msg_data_empty : string :=
  "[Data Viz Agent]
⚠️ Data is empty.".

(** email_writer.py, [EMAIL_WRITER_PROMPT.format(leads_info=, product_info=)]. *)
Definition EMAIL_WRITER_PROMPT (leads_info product_info : string) : string :=
  "You are an expert Marketing Email Writer specializing in personalized content emails.

Your emails should:
1. Have an attention-grabbing subject line
2. Personalize based on the audience segment
3. Clearly articulate the value proposition
4. Include a compelling call-to-action
5. Be concise yet persuasive
6. Follow best practices for email deliverability
7. Understand the campaign goal (reactivation, upsell, product launch)
8. Adapt the tone/style appropriately (friendly, professional, urgent)
9. Generate a plain-text version

Segment-specific tone:
- Champions: VIP treatment, exclusive offers, loyalty appreciation
- Highly Engaged: Value reinforcement, success case studies, premium features
- Potential Loyalists: Nurturing, educational content, special onboarding
- At Risk: Re-engagement, win-back offers, " ++ dq ++ "we miss you" ++ dq ++ " messaging
- Low Value: Awareness building, introductory offers, low-friction CTAs

Target Audience Info:
" ++ leads_info ++ "

Product Info:
" ++ product_info ++ "

Write a complete marketing email including:
- Subject Line
- Preview Text
- Email Body (greeting, hook, value prop, CTA)
- Postscript (P.S.) with urgency element
".

(** product_expert.py, [PRODUCT_EXPERT_PROMPT.format(product_info=)]. *)
Definition PRODUCT_EXPERT_PROMPT (product_info : string) : string :=
  "You are a Product Expert for Learning Labs Pro.

PRODUCT INFO:
" ++ product_info ++ "

Provide a brief, compelling summary of Learning Labs Pro that can be used in a marketing email.
Focus on: key benefits, pricing, and value proposition.
Keep it concise (2-3 paragraphs).
".

(** segmentation_agent.py, [SEGMENTATION_PROMPT.format(segment_info=)]. *)
Definition SEGMENTATION_PROMPT (segment_info : string) : string :=
  "You are a Customer Segmentation Analyst with skills in behavioral analytics, lifecycle marketing, and data-driven cohort design. You analyze customer segments to provide 
marketing insights and strategies for each segment.

The 5 Customer Segments (ranked by engagement):
" ++ segment_info ++ "

Based on this data, provide insights on:
1. What defines each segment behaviorally
2. Recommended marketing approaches for each
3. Conversion potential and prioritization
4. Re-engagement strategies for lower segments

Be specific and actionable in your recommendations.
".

(** product_expert.py, lines 89 to 95: the catalog entry of Learning Labs Pro as the prompt shows it. *)
Definition product_str : string :=
  "
Product: Learning Labs Pro
Tagline: Accelerate Your Career with Hands-On Learning

Learning Labs Pro is our flagship professional development platform 
designed for ambitious professionals looking to advance their careers.

Key Features:
• 500+ hands-on labs and projects across tech, business, and leadership
• AI-powered portfolio builder that showcases your skills to employers
• Personalized learning paths based on your career goals
• Industry-recognized certifications included
• 1-on-1 mentorship sessions with industry experts
• Job placement assistance and interview preparation

Career Advancement Benefits:
• Build a professional portfolio demonstrating real-world skills
• Earn certifications valued by Fortune 500 companies
• Get discovered by recruiters through our talent marketplace
• Average 40% salary increase reported by completers

Pricing:
• Monthly: $149/month
• Annual: $999/year (save 44%)
• Enterprise: Custom pricing for teams

Success Stories:
• 87% of users report career advancement within 6 months
• 92% satisfaction rate from 50,000+ professionals
• Featured in Forbes as " ++ dq ++ "Best Career Development Platform 2024" ++ dq ++ "

Ideal For:
• Working professionals seeking promotion or career change
• Recent graduates building their portfolios
• Teams looking to upskill employees
• Anyone wanting practical, hands-on learning
".

(** email_writer.py, lines 75 to 76. *)
Definition default_product_info : string :=
  "Learning Labs Pro - Professional development platform 
for career advancement with hands-on labs, portfolio building, and certifications.".

(** sql_agent.py, lines 262 and 285: the message of a query that found no row. *)
Definition result_no_data (plan sql_query : string) : string :=
  "[SQL Agent]
**üìã Plan:** " ++ plan ++ "

**üìù SQL:**
```sql
" ++ sql_query ++ "
```

**Result:** No data found.".

(** sql_agent.py, lines 265 to 267 and 285: the message of a query with rows. *)
Definition result_rows (plan sql_query n_rows table : string) : string :=
  "[SQL Agent]
**üìã Plan:** " ++ plan ++ "

**üìù SQL:**
```sql
" ++ sql_query ++ "
```

**‚úÖ Data Retrieved:** " ++ n_rows ++ " rows

" ++ table.

(** dataviz_agent.py, lines 164 and 166. *)
Definition msg_insights (analysis : string) : string :=
  "
**🔍 Insights:**
" ++ analysis.

Definition msg_no_insights : string :=
  "
**🔍 Insights:** Analysis unavailable.".

End Text.

(* ===================================================================== *)
(** ** The shared session state (state.py) *)
(* ===================================================================== *)

(** langchain_core.messages: role-tagged text. *)
Inductive Message : Type :=
| HumanMessage (content : string)
| AIMessage (content : string)
| SystemMessage (content : string).

Definition content (m : Message) : string :=
  match m with
  | HumanMessage c | AIMessage c | SystemMessage c => c
  end.

(** [class AgentState(TypedDict)]. Every key is present, as in the
    [initial_state] of [run_team_query]. *)
Record AgentState : Type := mkState {
  messages : list Message;
  next_agent : option string;
  leads_data : option string;
  product_info : option string;
  segment_analysis : option string;
  email_draft : option string;
  sql_plan : option string;
  sql_query : option string;
  sql_validation_error : option string;
  needs_visualization : bool;
  needs_clarification : bool;
  clarification_question : option string;
  clarification_options : option (list string);
  user_clarification : option string;
  is_complete : bool;
  current_step : Z;
  completed_agents : list string
}.

(** One [key: value] pair of the dict a node returns. A key the dict does
    not mention has no entry; ["leads_data": None] is [set_leads_data None]. *)
Inductive Entry : Type :=
| set_messages (v : list Message)
| set_next_agent (v : option string)
| set_leads_data (v : option string)
| set_product_info (v : option string)
| set_segment_analysis (v : option string)
| set_email_draft (v : option string)
| set_sql_plan (v : option string)
| set_sql_query (v : option string)
| set_sql_validation_error (v : option string)
| set_needs_visualization (v : bool)
| set_needs_clarification (v : bool)
| set_clarification_question (v : option string)
| set_clarification_options (v : option (list string))
| set_is_complete (v : bool)
| set_current_step (v : Z)
| set_completed_agents (v : list string).

Definition Update : Type := list Entry.

(** How LangGraph folds one returned pair into the state: [messages] has the
    [add_messages] reducer, which appends the new messages to the log; every
    other channel keeps the last value written. *)
Definition apply_entry (s : AgentState) (e : Entry) : AgentState :=
  match s with
  | mkState ms na ld pi sa ed sp sq sv nv nc cq co uc ic cs ca =>
      match e with
      | set_messages v => mkState (ms ++ v) na ld pi sa ed sp sq sv nv nc cq co uc ic cs ca
      | set_next_agent v => mkState ms v ld pi sa ed sp sq sv nv nc cq co uc ic cs ca
      | set_leads_data v => mkState ms na v pi sa ed sp sq sv nv nc cq co uc ic cs ca
      | set_product_info v => mkState ms na ld v sa ed sp sq sv nv nc cq co uc ic cs ca
      | set_segment_analysis v => mkState ms na ld pi v ed sp sq sv nv nc cq co uc ic cs ca
      | set_email_draft v => mkState ms na ld pi sa v sp sq sv nv nc cq co uc ic cs ca
      | set_sql_plan v => mkState ms na ld pi sa ed v sq sv nv nc cq co uc ic cs ca
      | set_sql_query v => mkState ms na ld pi sa ed sp v sv nv nc cq co uc ic cs ca
      | set_sql_validation_error v => mkState ms na ld pi sa ed sp sq v nv nc cq co uc ic cs ca
      | set_needs_visualization v => mkState ms na ld pi sa ed sp sq sv v nc cq co uc ic cs ca
      | set_needs_clarification v => mkState ms na ld pi sa ed sp sq sv nv v cq co uc ic cs ca
      | set_clarification_question v => mkState ms na ld pi sa ed sp sq sv nv nc v co uc ic cs ca
      | set_clarification_options v => mkState ms na ld pi sa ed sp sq sv nv nc cq v uc ic cs ca
      | set_is_complete v => mkState ms na ld pi sa ed sp sq sv nv nc cq co uc v cs ca
      | set_current_step v => mkState ms na ld pi sa ed sp sq sv nv nc cq co uc ic v ca
      | set_completed_agents v => mkState ms na ld pi sa ed sp sq sv nv nc cq co uc ic cs v
      end
  end.

Definition apply_update (s : AgentState) (u : Update) : AgentState :=
  fold_left apply_entry u s.

(** Whether a returned dict has the key [leads_data]. *)
Definition writes_leads_data (u : Update) : bool :=
  existsb (fun e => match e with set_leads_data _ => true | _ => false end) u.

(** The loop every node but two starts with: the content of the first
    [HumanMessage] of the log, [""] when there is none. *)
Fixpoint first_human (msgs : list Message) : string :=
  match msgs with
  | [] => EmptyString
  | HumanMessage c :: _ => c
  | _ :: rest => first_human rest
  end.

(** The same loop over [reversed(messages)] (segmentation_agent.py). *)
Definition last_human (msgs : list Message) : string :=
  first_human (rev msgs).

(** product_expert.py: the last message that is a Human or an AI one. *)
Fixpoint first_human_or_ai (msgs : list Message) : string :=
  match msgs with
  | [] => EmptyString
  | HumanMessage c :: _ => c
  | AIMessage c :: _ => c
  | _ :: rest => first_human_or_ai rest
  end.

(* ===================================================================== *)
(** ** The external collaborators and the effects of a node *)
(* ===================================================================== *)

(** What a turn does to the outside world, in order. *)
Inductive Event : Type :=
| LlmInvoke (prompt : list Message)
| SqlExecute (query : string).

(** A [pandas.DataFrame] as the list of its records (column, cell). *)
Definition Row : Type := list (string * string).
Definition DataFrame : Type := list Row.

(** [df.empty]: no row, or no column. *)
Definition df_empty (df : DataFrame) : bool :=
  match df with
  | [] => true
  | _ => forallb (fun r => match r with [] => true | _ => false end) df
  end.

(** The collaborators, specified at their interface only.
    - [llm]: [llm.invoke(prompt).content], given what happened before in the
      turn; [None] when the call raises.
    - [read_sql]: [pd.read_sql(query, conn)]; [inl msg] when it raises, with
      [msg = str(e)].
    - [to_markdown], [to_json]: [df.to_markdown(index=False)] and
      [df.to_json(orient='records')] where they return.
    - [render_error]: [Some (str e)] when [df.head(15).to_markdown(index=False)]
      or [df.to_json(orient='records')] raises [e] on the frame
      (sql_agent.py, lines 267 and 268, inside the [try]), [None] when both
      return.
    - [parse_records]: [pd.DataFrame(json.loads(s))], [inl (str e)] when it
      raises.
    - [chart_report]: dataviz_agent.py lines 72 to 149, the chart and summary
      lines and the chart comment computed with pandas from the frame and the
      lower-cased question; [None] when pandas raises there.
    - [data_summary]: dataviz_agent.py line 153 and the column list of line
      157; [None] when that raises (inside the [try]).
    - [describe_leads]: email_writer.py lines 59 to 69.
    - [segment_info]: [json.dumps(segment_info, indent=2)]. *)
Record Env : Type := mkEnv {
  llm : list Event -> list Message -> option string;
  read_sql : string -> string + DataFrame;
  to_markdown : DataFrame -> string;
  render_error : DataFrame -> option string;
  to_json : DataFrame -> string;
  parse_records : string -> string + DataFrame;
  chart_report : DataFrame -> string -> option (list string * string);
  data_summary : DataFrame -> option (string * string);
  describe_leads : string -> string;
  segment_info : string
}.

(** A computation that may raise and that appends to the trace. *)
Inductive Outcome (A : Type) : Type :=
| Ok (a : A)
| Raised.
Arguments Ok {A} a.
Arguments Raised {A}.

Definition Eff (A : Type) : Type := list Event -> Outcome A * list Event.

Definition ret {A : Type} (a : A) : Eff A := fun tr => (Ok a, tr).

Definition bind {A B : Type} (m : Eff A) (k : A -> Eff B) : Eff B :=
  fun tr =>
    match m tr with
    | (Ok a, tr') => k a tr'
    | (Raised, tr') => (Raised, tr')
    end.

Notation "x <- m ;; k" := (bind m (fun x => k))
  (at level 61, m at next level, right associativity).

(** [try: ... except: ...] around a computation: [None] when it raised. *)
Definition attempt {A : Type} (m : Eff A) : Eff (option A) :=
  fun tr =>
    match m tr with
    | (Ok a, tr') => (Ok (Some a), tr')
    | (Raised, tr') => (Ok None, tr')
    end.

Section Agents.

Variable E : Env.

(** [llm.invoke(prompt).content]. *)
Definition invoke_llm (prompt : list Message) : Eff string :=
  fun tr =>
    match llm E tr prompt with
    | Some reply => (Ok reply, (tr ++ [LlmInvoke prompt])%list)
    | None => (Raised, (tr ++ [LlmInvoke prompt])%list)
    end.

(** An exception that nothing catches inside the node. *)
Definition raise {A : Type} : Eff A := fun tr => (Raised, tr).

(** [pd.read_sql(query, conn)] inside the [try] of the Execute stage. *)
Definition execute_sql (query : string) : Eff (string + DataFrame) :=
  fun tr => (Ok (read_sql E query), (tr ++ [SqlExecute query])%list).

(* --------------------------------------------------------------------- *)
(** *** agents/sql_agent.py *)

Record Schema : Type := mkSchema {
  table : string;
  columns : list string;
  segment_values : list string
}.

Definition SCHEMA : Schema := {|
  table := "leadscored";
  columns :=
    ["customer_id"; "Segment"; "engagement_score"; "TotalVisits";
     "Total_Time_Spent_on_Website"; "Page_Views_Per_Visit"; "Converted";
     "Lead_Source"; "Lead_Origin"; "Country"; "City";
     "Specialization"; "Occupation"; "Last_Activity"];
  segment_values :=
    ["Champions"; "Highly Engaged"; "Potential Loyalists"; "At Risk"; "Low Value"]
|}.

Definition web_indicators : list string :=
  ["based on the web"; "according to"; "search results";
   "i found"; "from the web"; "online sources";
   "wikipedia"; "google"; "based on my search"].

Definition gaming_indicators : list string :=
  ["league of legends"; "lol champions"; "esports";
   "game"; "player"; "team"; "tournament"; "sports"].

(** [detect_invalid_response(response)]: whether the reply of the language
    model is something else than a plan or a query, and which kind. *)
Definition detect_invalid_response (response : string) : bool * string :=
  let response_lower := Py.lower response in
  if Py.any_in web_indicators response_lower then (true, "web_search")
  else if Py.any_in gaming_indicators response_lower then (true, "gaming_confusion")
  else if negb (Py.any_in ["SELECT"; "FROM"; "CANNOT_ANSWER"] (Py.upper response))
          && (100 <? Py.len response)
  then (true, "not_sql")
  else (false, EmptyString).

(** [validate_sql(sql, schema)]: [(is_valid, error_message)]. *)
Definition validate_sql (sql : string) (schema : Schema) : bool * string :=
  let sql_upper := Py.upper sql in
  if Py.contains "WITH " sql_upper && Py.contains " AS " sql_upper
  then (false, "CTEs (WITH clauses) are not allowed. Use simple SELECT.")
  else if 1 <? Py.count "SELECT" sql_upper
  then (false, "Subqueries are not allowed. Use simple SELECT.")
  else if Py.contains "JOIN" sql_upper
  then (false, "JOINs are not allowed. Only the leadscored table is available.")
  else if negb (Py.contains "leadscored" (Py.lower sql))
  then (false, "Invalid table. Only 'leadscored' table exists.")
  else (true, EmptyString).

Fixpoint take (n : nat) (s : string) : string :=
  match n, s with
  | O, _ => EmptyString
  | S _, EmptyString => EmptyString
  | S k, String c s' => String c (take k s')
  end.

Fixpoint leading_spaces (s : string) : nat :=
  match s with
  | EmptyString => 0
  | String c s' => if Py.is_space c then S (leading_spaces s') else 0
  end.

(** [s.find(c)] for one character. *)
Fixpoint find_char (c : ascii) (s : string) : option nat :=
  match s with
  | EmptyString => None
  | String d s' =>
      if Ascii.eqb d c then Some 0
      else match find_char c s' with Some i => Some (S i) | None => None end
  end.

(** The text the pattern [SELECT\s+.+?;] (IGNORECASE, DOTALL) matches when
    anchored at the start of [s]. After the keyword, [\s+] takes the [k >= 1]
    blanks that follow; the lazy [.+?] then takes at least one character and
    stops before the first [;] behind it. When there is no such [;], the
    matcher gives one blank back to [.+?], which succeeds only if the
    character after the blanks is itself the [;]. *)
Definition match_select_at (s : string) : option string :=
  if Py.startswith "SELECT" (Py.upper (take 6 s)) then
    let r := Py.drop 6 s in
    let k := leading_spaces r in
    match k with
    | O => None
    | S _ =>
        match Py.drop k r with
        | EmptyString => None
        | String c body =>
            match find_char ";" body with
            | Some j => Some (take (6 + k + 1 + j + 1) s)
            | None =>
                if Ascii.eqb c ";" && (2 <=? k)
                then Some (take (6 + k + 1) s)
                else None
            end
        end
    end
  else None.

(** [re.search(r'(SELECT\s+.+?;)', s, re.IGNORECASE | re.DOTALL)]: the
    leftmost match, [group(1)]. *)
Fixpoint search_select (s : string) : option string :=
  match match_select_at s with
  | Some m => Some m
  | None =>
      match s with
      | EmptyString => None
      | String _ s' => search_select s'
      end
  end.

(** sql_agent.py lines 226 to 236: the query text taken from the reply. *)
Definition extract_sql (sql_text : string) : string :=
  let sql_query :=
    match search_select sql_text with
    | Some m => Py.strip m
    | None =>
        if Py.startswith "SELECT" (Py.upper sql_text)
        then Py.strip (Py.before ";" sql_text) ++ ";"
        else sql_text
    end in
  Py.strip (Py.replace "```" EmptyString (Py.replace "```sql" EmptyString sql_query)).

(** The working input of the pipeline: the first user message, with the
    clarification answer appended when there is one (lines 135 to 144). *)
Definition working_question (state : AgentState) : string :=
  let user_question := first_human (messages state) in
  match user_clarification state with
  | Some answer =>
      if Py.truthy_str answer
      then user_question ++ " (User clarified: " ++ answer ++ ")"
      else user_question
  | None => user_question
  end.

Definition plan_prompt (user_question : string) : list Message :=
  [SystemMessage (Text.PLAN_PROMPT
     (Py.join ", " (columns SCHEMA))
     (Py.join ", " (segment_values SCHEMA))
     user_question)].

Definition generate_prompt (plan : string) : list Message :=
  [SystemMessage (Text.SQL_GENERATE_PROMPT plan (Py.join ", " (columns SCHEMA)))].

(** [sql_agent_node(state)]: plan, detect, generate, validate, execute. *)
Definition sql_agent_node (state : AgentState) : Eff Update :=
  let user_question := working_question state in
  let q_lower := Py.lower user_question in
  let needs_viz :=
    Py.any_in ["chart"; "pie"; "bar"; "graph"; "plot"; "visualiz"; "distribution"]
              q_lower in
  (* STEP 1: PLAN *)
  plan_response <- invoke_llm (plan_prompt user_question) ;;
  let plan := Py.strip plan_response in
  (* STEP 2: DETECT INVALID RESPONSE *)
  let '(is_invalid, invalid_type) := detect_invalid_response plan in
  if is_invalid then
    if String.eqb invalid_type "gaming_confusion" then
      ret [ set_messages [AIMessage Text.msg_gaming_confusion];
            set_needs_clarification true;
            set_clarification_question (Some "Which 'Champions' did you mean?");
            set_clarification_options
              (Some ["Champions customer segment"; "Something else - let me rephrase"]);
            set_is_complete false ]
    else if String.eqb invalid_type "web_search" then
      ret [ set_messages [AIMessage Text.msg_web_search];
            set_needs_clarification true;
            set_clarification_question (Some "What database information do you need?");
            set_clarification_options
              (Some ["Show segment distribution"; "List top customers"; "Let me rephrase"]);
            set_is_complete false ]
    else
      ret [ set_messages [AIMessage Text.msg_not_sql];
            set_needs_clarification true;
            set_clarification_question (Some "Please rephrase your question");
            set_clarification_options
              (Some ["Show all segments"; "Show top customers"; "Cancel"]);
            set_is_complete false ]
  else if Py.startswith "CANNOT_ANSWER" (Py.upper plan) then
    ret [ set_messages
            [AIMessage (Text.msg_cannot_answer plan (Py.join ", " (columns SCHEMA)))];
          set_sql_plan (Some plan);
          set_leads_data None;
          set_needs_visualization needs_viz;
          set_needs_clarification false;
          set_is_complete true ]
  else
  (* STEP 3: GENERATE SQL *)
  sql_response <- invoke_llm (generate_prompt plan) ;;
  let sql_text := Py.strip sql_response in
  if fst (detect_invalid_response sql_text) then
    ret [ set_messages [AIMessage Text.msg_invalid_sql];
          set_needs_clarification true;
          set_clarification_question (Some "What would you like to query?");
          set_clarification_options
            (Some ["Show segment counts"; "Show top 20 Champions"; "Show lead sources"]);
          set_is_complete false ]
  else
  let sql_query := extract_sql sql_text in
  (* STEP 4: VALIDATE *)
  let '(is_valid, validation_error) := validate_sql sql_query SCHEMA in
  if negb is_valid then
    ret [ set_messages
            [AIMessage (Text.msg_validation_failed validation_error sql_query)];
          set_sql_plan (Some plan);
          set_sql_query (Some sql_query);
          set_sql_validation_error (Some validation_error);
          set_needs_clarification true;
          set_clarification_question (Some "Try a simpler query?");
          set_clarification_options
            (Some ["Show all segments"; "Show top 10 customers"; "Cancel"]);
          set_leads_data None;
          set_needs_visualization needs_viz;
          set_is_complete false ]
  else
  (* STEP 5: EXECUTE *)
  result <- execute_sql sql_query ;;
  (* the [try] block of lines 256 to 268: the rows, then the text and the
     JSON made of them; [inl] is its [except] *)
  let rendered :=
    match result with
    | inl error_msg => inl error_msg
    | inr df =>
        if List.length df =? 0
        then inr (Text.result_no_data plan sql_query, None)
        else
          match render_error E df with
          | Some error_msg => inl error_msg
          | None =>
              inr (Text.result_rows plan sql_query
                     (Text.str_of_nat (List.length df))
                     (to_markdown E (firstn 15 df)),
                   Some (to_json E df))
          end
    end in
  match rendered with
  | inl error_msg =>
      ret [ set_messages
              [AIMessage (Text.msg_execution_error plan sql_query error_msg)];
            set_sql_plan (Some plan);
            set_sql_query (Some sql_query);
            set_needs_clarification true;
            set_clarification_question (Some "Query failed. Try another?");
            set_clarification_options
              (Some ["Show segment counts"; "Show top customers"; "Cancel"]);
            set_leads_data None;
            set_needs_visualization needs_viz;
            set_is_complete false ]
  | inr (result_text, leads_json) =>
      ret [ set_messages [AIMessage result_text];
            set_sql_plan (Some plan);
            set_sql_query (Some sql_query);
            set_leads_data leads_json;
            set_needs_visualization needs_viz;
            set_needs_clarification false;
            set_is_complete false ]
  end.

(* --------------------------------------------------------------------- *)
(** *** agents/dataviz_agent.py *)

Definition dataviz_agent_node (state : AgentState) : Eff Update :=
  let user_question := first_human (messages state) in
  let q_lower := Py.lower user_question in
  match leads_data state with
  | Some data =>
      if negb (Py.truthy_str data) then
        ret [ set_messages [AIMessage Text.msg_no_data]; set_is_complete true ]
      else
      match parse_records E data with
      | inl error_msg =>
          ret [ set_messages [AIMessage (Text.msg_parse_error error_msg)];
                set_is_complete true ]
      | inr df =>
          if df_empty df then
            ret [ set_messages [AIMessage Text.msg_data_empty]; set_is_complete true ]
          else
          match chart_report E df q_lower with
          | None => raise
          | Some (result_parts, chart_comment) =>
              analysis <-
                attempt
                  match data_summary E df with
                  | Some (cols, summary) =>
                      invoke_llm
                        [ SystemMessage (Text.DATAVIZ_PROMPT cols summary user_question);
                          HumanMessage "Provide your analysis." ]
                  | None => raise
                  end ;;
              let insights :=
                match analysis with
                | Some a => Text.msg_insights a
                | None => Text.msg_no_insights
                end in
              let msg_content :=
                "[Data Viz Agent]
" ++ Py.join "
" (result_parts ++ [insights]) ++ chart_comment in
              ret [ set_messages [AIMessage msg_content]; set_is_complete true ]
          end
      end
  | None =>
      ret [ set_messages [AIMessage Text.msg_no_data]; set_is_complete true ]
  end.

(* --------------------------------------------------------------------- *)
(** *** agents/segmentation_agent.py *)

Definition segmentation_agent_node (state : AgentState) : Eff Update :=
  let user_question := last_human (messages state) in
  analysis <-
    invoke_llm
      [ SystemMessage (Text.SEGMENTATION_PROMPT (segment_info E));
        HumanMessage ("Analyze segments for this request: " ++ user_question) ] ;;
  ret [ set_messages [AIMessage ("[Segmentation Analyst]
" ++ analysis)];
        set_segment_analysis (Some analysis) ].

(* --------------------------------------------------------------------- *)
(** *** agents/product_expert.py *)

Definition product_expert_node (state : AgentState) : Eff Update :=
  let request := first_human_or_ai (rev (messages state)) in
  response <-
    invoke_llm
      [ SystemMessage (Text.PRODUCT_EXPERT_PROMPT Text.product_str);
        HumanMessage ("Provide product information for: " ++ request) ] ;;
  ret [ set_messages [AIMessage ("[Product Expert]
" ++ response)];
        set_product_info (Some Text.product_str) ].

(* --------------------------------------------------------------------- *)
(** *** agents/email_writer.py *)

Definition email_writer_node (state : AgentState) : Eff Update :=
  let leads_info :=
    match leads_data state with
    | Some data =>
        if Py.truthy_str data then describe_leads E data else "General prospect list"
    | None => "General prospect list"
    end in
  let product_info :=
    match product_info state with
    | Some info => if Py.truthy_str info then info else Text.default_product_info
    | None => Text.default_product_info
    end in
  let user_request := first_human (messages state) in
  email_content <-
    invoke_llm
      [ SystemMessage (Text.EMAIL_WRITER_PROMPT leads_info product_info);
        HumanMessage ("Write a sales email for this request: " ++ user_request) ] ;;
  ret [ set_messages [AIMessage ("[Email Writer]
" ++ email_content)];
        set_email_draft (Some email_content);
        set_is_complete true ].

(* --------------------------------------------------------------------- *)
(** *** agents/supervisor.py *)

(** The keyword classifiers of the supervisor, over the lower-cased first
    user message. *)
Definition needs_sql_of (request_lower : string) : bool :=
  Py.any_in ["top"; "show"; "list"; "find"; "get"; "count"; "how many"; "customer"]
            request_lower.

Definition needs_viz_of (request_lower : string) : bool :=
  Py.any_in ["chart"; "pie"; "bar"; "graph"; "plot"; "distribution"; "breakdown";
             "visualiz"; "demographic"; "characteristic"; "analysis"; "insight"]
            request_lower.

Definition needs_email_of (request_lower : string) : bool :=
  Py.contains "email" request_lower.

Definition needs_product_of (request_lower : string) : bool :=
  Py.contains "learning labs" request_lower.

Definition needs_strategy_of (request_lower : string) : bool :=
  Py.any_in ["strategy"; "recommend"; "approach"; "how to"; "marketing plan"; "re-engage"]
            request_lower.

(** [supervisor_node(state)]. The node reads the log, the step counter, the
    completed agents and the truthiness of [leads_data]; it calls nothing. *)
Definition supervisor_node (state : AgentState) : Update :=
  let current_step := current_step state in
  let completed_agents := completed_agents state in
  let leads_data := leads_data state in
  let user_request := first_human (messages state) in
  let request_lower := Py.lower user_request in
  let needs_sql := needs_sql_of request_lower in
  let needs_viz := needs_viz_of request_lower in
  let needs_email := needs_email_of request_lower in
  let needs_product := needs_product_of request_lower in
  let needs_strategy := needs_strategy_of request_lower in
  (* Step 1: SQL Agent first to get data *)
  if needs_sql && negb (Py.mem "SQL_AGENT" completed_agents) then
    [ set_next_agent (Some "SQL_AGENT");
      set_current_step (current_step + 1)%Z;
      set_completed_agents (completed_agents ++ ["SQL_AGENT"]);
      set_needs_visualization needs_viz;
      set_messages [] ]
  (* Step 2: DataViz Agent for visualization/analysis (after data) *)
  else if needs_viz && negb (Py.mem "DATAVIZ_AGENT" completed_agents)
          && (Py.truthy leads_data || negb needs_sql) then
    [ set_next_agent (Some "DATAVIZ_AGENT");
      set_current_step (current_step + 1)%Z;
      set_completed_agents (completed_agents ++ ["DATAVIZ_AGENT"]);
      set_messages [] ]
  (* Step 3: Product Expert if needed for email *)
  else if needs_product && needs_email
          && negb (Py.mem "PRODUCT_EXPERT" completed_agents) then
    [ set_next_agent (Some "PRODUCT_EXPERT");
      set_current_step (current_step + 1)%Z;
      set_completed_agents (completed_agents ++ ["PRODUCT_EXPERT"]);
      set_messages [] ]
  (* Step 4: Email Writer *)
  else if needs_email && negb (Py.mem "EMAIL_WRITER" completed_agents) then
    [ set_next_agent (Some "EMAIL_WRITER");
      set_current_step (current_step + 1)%Z;
      set_completed_agents (completed_agents ++ ["EMAIL_WRITER"]);
      set_messages [] ]
  (* Segmentation strategy (standalone) *)
  else if needs_strategy && negb (Py.mem "SEGMENTATION_AGENT" completed_agents) then
    [ set_next_agent (Some "SEGMENTATION_AGENT");
      set_current_step (current_step + 1)%Z;
      set_completed_agents (completed_agents ++ ["SEGMENTATION_AGENT"]);
      set_messages [] ]
  (* Product questions (standalone) *)
  else if needs_product && negb needs_email
          && negb (Py.mem "PRODUCT_EXPERT" completed_agents) then
    [ set_next_agent (Some "PRODUCT_EXPERT");
      set_current_step (current_step + 1)%Z;
      set_completed_agents (completed_agents ++ ["PRODUCT_EXPERT"]);
      set_messages [] ]
  (* Default to SQL for data queries *)
  else if negb (Py.mem "SQL_AGENT" completed_agents) then
    [ set_next_agent (Some "SQL_AGENT");
      set_current_step (current_step + 1)%Z;
      set_completed_agents (completed_agents ++ ["SQL_AGENT"]);
      set_needs_visualization needs_viz;
      set_messages [] ]
  (* All done *)
  else
    [ set_next_agent (Some "COMPLETE");
      set_current_step (current_step + 1)%Z;
      set_is_complete true;
      set_messages [] ].

(* ===================================================================== *)
(** ** The workflow (teams.py) *)
(* ===================================================================== *)

(** The nodes [make_marketing_analytics_team] adds to the graph. *)
Inductive Node : Type :=
| supervisor
| sql_agent
| dataviz_agent
| segmentation_agent
| product_expert
| email_writer.

(** Where an edge leads: a node, or ["__end__"]. *)
Inductive Target : Type :=
| Goto (n : Node)
| END.

Definition routing : list (string * Target) :=
  [ ("SQL_AGENT", Goto sql_agent);
    ("DATAVIZ_AGENT", Goto dataviz_agent);
    ("SEGMENTATION_AGENT", Goto segmentation_agent);
    ("PRODUCT_EXPERT", Goto product_expert);
    ("EMAIL_WRITER", Goto email_writer);
    ("COMPLETE", END) ].

(** [routing.get(key, "__end__")]. *)
Fixpoint routing_get (key : string) (table : list (string * Target)) : Target :=
  match table with
  | [] => END
  | (k, t) :: rest => if String.eqb key k then t else routing_get key rest
  end.

Definition route_from_supervisor (state : AgentState) : Target :=
  (* Safety: prevent infinite loops *)
  if (8 <? current_step state)%Z then END
  else
    match next_agent state with
    | Some name => routing_get name routing
    | None => END
    end.

Definition route_after_sql (state : AgentState) : Target :=
  let needs_viz := needs_visualization state in
  let leads_data := leads_data state in
  let is_complete := is_complete state in
  let completed_agents := completed_agents state in
  (* If SQL failed or marked complete, go to supervisor *)
  if is_complete || negb (Py.truthy leads_data) then Goto supervisor
  (* If visualization needed and not yet done, go to dataviz *)
  else if needs_viz && negb (Py.mem "DATAVIZ_AGENT" completed_agents)
  then Goto dataviz_agent
  (* Otherwise back to supervisor *)
  else Goto supervisor.

(** The function behind each node. *)
Definition node_fn (n : Node) (state : AgentState) : Eff Update :=
  match n with
  | supervisor => ret (supervisor_node state)
  | sql_agent => sql_agent_node state
  | dataviz_agent => dataviz_agent_node state
  | segmentation_agent => segmentation_agent_node state
  | product_expert => product_expert_node state
  | email_writer => email_writer_node state
  end.

(** The edge out of each node, read on the state after the node's update. *)
Definition edge (n : Node) (state : AgentState) : Target :=
  match n with
  | supervisor => route_from_supervisor state
  | sql_agent => route_after_sql state
  | dataviz_agent => Goto supervisor
  | segmentation_agent => Goto supervisor
  | product_expert => Goto supervisor
  | email_writer => END
  end.

(** Where a run stands: about to execute a node, halted at ["__end__"], or
    stopped by an exception raised in a node. *)
Inductive Status : Type :=
| Running (n : Node)
| Done
| Failed (n : Node).

(** A run of the compiled graph: the state, the trace of outside calls, and
    the nodes executed so far with the dict each returned. *)
Record Config : Type := mkConfig {
  status : Status;
  state : AgentState;
  trace : list Event;
  history : list (Node * Update)
}.

(** One super-step: execute the node, fold its dict into the state, follow
    the edge. *)
Definition step (c : Config) : Config :=
  match status c with
  | Running n =>
      match node_fn n (state c) (trace c) with
      | (Ok u, tr) =>
          let st := apply_update (state c) u in
          {| status := match edge n st with Goto m => Running m | END => Done end;
             state := st;
             trace := tr;
             history := history c ++ [(n, u)] |}
      | (Raised, tr) =>
          {| status := Failed n; state := state c; trace := tr; history := history c |}
      end
  | _ => c
  end.

Fixpoint run (fuel : nat) (c : Config) : Config :=
  match fuel with
  | O => c
  | S fuel' =>
      match status c with
      | Running _ => run fuel' (step c)
      | _ => c
      end
  end.

(** LangGraph's default [recursion_limit]: a run that has not halted after
    this many super-steps raises [GraphRecursionError]. *)
Definition recursion_limit : nat := 25.

(** [workflow.set_entry_point("supervisor")]. *)
Definition start (initial_state : AgentState) : Config :=
  {| status := Running supervisor; state := initial_state; trace := []; history := [] |}.

(** [app.invoke(initial_state)]. The result is [state] of the final
    configuration when its status is [Done]; otherwise the call raised. *)
Definition invoke (initial_state : AgentState) : Config :=
  run recursion_limit (start initial_state).

(** The [initial_state] of [run_team_query(app, user_message, user_clarification)]. *)
Definition initial_state (user_message : string) (user_clarification : option string)
  : AgentState :=
  {| messages := [HumanMessage user_message];
     next_agent := None;
     leads_data := None;
     product_info := None;
     segment_analysis := None;
     email_draft := None;
     sql_plan := None;
     sql_query := None;
     sql_validation_error := None;
     needs_visualization := false;
     needs_clarification := false;
     clarification_question := None;
     clarification_options := None;
     user_clarification := user_clarification;
     is_complete := false;
     current_step := 0%Z;
     completed_agents := [] |}.

Definition run_team_query (user_message : string) (user_clarification : option string)
  : Config :=
  invoke (initial_state user_message user_clarification).

End Agents.

(* ===================================================================== *)
(** ** The chat front end (app.py, lines 201 to 288) *)
(* ===================================================================== *)

(** dataviz_agent.py, lines 171 to 172: what the Analytics node appends to
    its message when it has chart data, [chart_json] being
    [json.dumps(chart_data)]. *)
Definition chart_comment_of (chart_json : string) : string :=
  "

<!--CHART:" ++ chart_json ++ "-->".

(** [s.find(sub)], [None] for [-1]. *)
Fixpoint find (sub s : string) : option nat :=
  if Py.startswith sub s then Some 0
  else
    match s with
    | EmptyString => None
    | String _ s' =>
        match find sub s' with
        | Some i => Some (S i)
        | None => None
        end
    end.

(** The pattern [<!--CHART:(.+?)-->] (DOTALL) anchored at the start of [s]:
    after the opening text the lazy group takes at least one character and
    stops before the first [-->] behind it. The result is [group(0)] and
    [group(1)]. *)
Definition match_chart_at (s : string) : option (string * string) :=
  if Py.startswith "<!--CHART:" s then
    match Py.drop 10 s with
    | EmptyString => None
    | String c r =>
        match find "-->" r with
        | Some j =>
            let group1 := take (S j) (String c r) in
            Some ("<!--CHART:" ++ group1 ++ "-->", group1)
        | None => None
        end
    end
  else None.

(** [re.search(r'<!--CHART:(.+?)-->', content, re.DOTALL)]: the leftmost
    match. *)
Fixpoint search_chart (s : string) : option (string * string) :=
  match match_chart_at s with
  | Some m => Some m
  | None =>
      match s with
      | EmptyString => None
      | String _ s' => search_chart s'
      end
  end.

(** app.py, lines 220 to 232, for one message: the text to display and the
    chart payload. [json_ok text] says whether [json.loads(text)] returns;
    when it raises, the [except] keeps the content whole and no chart. *)
Definition render_message (json_ok : string -> bool) (content : string)
  : string * option string :=
  match search_chart content with
  | Some (group0, group1) =>
      if json_ok group1
      then (Py.replace group0 EmptyString content, Some group1)
      else (content, None)
  | None => (content, None)
  end.

(** app.py, lines 207 to 218: the contents that are displayed. Empty
    contents and supervisor notes are skipped, and so is a content whose
    first 100 characters ([content[:100]]) were seen before; [seen] is
    [seen_content]. *)
Fixpoint visible_from (seen : list string) (contents : list string) : list string :=
  match contents with
  | [] => []
  | content :: rest =>
      if negb (Py.truthy_str content) || Py.startswith "[Supervisor]" content
      then visible_from seen rest
      else
        let content_key := Py.take_chars 100 content in
        if Py.mem content_key seen
        then visible_from seen rest
        else content :: visible_from (content_key :: seen) rest
  end.

(** The [response_parts] of a result: the display text of every visible
    message of [result["messages"]]. *)
Definition response_parts (json_ok : string -> bool) (msgs : list Message)
  : list string :=
  map (fun content => fst (render_message json_ok content))
      (visible_from [] (map content msgs)).

(** app.py, line 288. *)
Definition full_response (parts : list string) : string :=
  match parts with
  | [] => "No response."
  | _ => Py.join "

---

" parts
  end.

(* ===================================================================== *)
(** ** The offline scripts (scripts/data_cleaning.py, scripts/create_segments.py) *)
(* ===================================================================== *)

(** A column of dtype [object]: text cells, [None] for a missing one. *)
Definition ObjectColumn : Type := list (option string).

(** [col.str.lower() == 'select'], cell by cell; a missing cell compares
    false. *)
Definition is_select (cell : option string) : bool :=
  match cell with
  | Some text => String.eqb (Py.lower text) "select"
  | None => false
  end.

Definition isna (cell : option string) : bool :=
  match cell with
  | Some _ => false
  | None => true
  end.

(** data_cleaning.py, lines 206 to 216 (step 9.1) on one column. *)
Definition replace_select (col : ObjectColumn) : ObjectColumn :=
  if existsb is_select col
  then map (fun cell => if is_select cell then Some "Unknown" else cell) col
  else col.

(** data_cleaning.py, lines 229 to 235 (step 9.3) on one column. *)
Definition fill_unknown (col : ObjectColumn) : ObjectColumn :=
  if 0 <? List.length (filter isna col)
  then map (fun cell => match cell with Some _ => cell | None => Some "Unknown" end) col
  else col.

(** What steps 9.1 to 9.3 do to a column of dtype [object] (step 9.2 only
    touches numerical columns). *)
Definition clean_column (col : ObjectColumn) : ObjectColumn :=
  fill_unknown (replace_select col).

(** data_cleaning.py, lines 283 to 285, for one column. *)
Definition remaining_select (col : ObjectColumn) : nat :=
  List.length (filter is_select col).

(** data_cleaning.py, line 279, for one column. *)
Definition remaining_missing (col : ObjectColumn) : nat :=
  List.length (filter isna col).

(** create_segments.py, lines 88 to 94. *)
Definition segment_label_pool : list string :=
  ["Champions"; "Highly Engaged"; "Potential Loyalists"; "At Risk"; "Low Value"].

(** [d[key] = value] and [d.get(key)] on a dict kept as an association
    list. *)
Definition dict_set (key : Z) (value : string) (d : list (Z * string))
  : list (Z * string) :=
  (key, value) :: filter (fun kv => negb (Z.eqb (fst kv) key)) d.

Fixpoint dict_get (key : Z) (d : list (Z * string)) : option string :=
  match d with
  | [] => None
  | (k, v) :: rest => if Z.eqb k key then Some v else dict_get key rest
  end.

(** create_segments.py, lines 100 to 102: the loop over
    [enumerate(cluster_ranking)], from rank [rank] on; [None] when
    [segment_label_pool[rank]] raises [IndexError]. *)
Fixpoint assign_segment_names (rank : nat) (cluster_ranking : list Z)
    (segment_names : list (Z * string)) : option (list (Z * string)) :=
  match cluster_ranking with
  | [] => Some segment_names
  | cluster_id :: rest =>
      match nth_error segment_label_pool rank with
      | Some label =>
          assign_segment_names (S rank) rest (dict_set cluster_id label segment_names)
      | None => None
      end
  end.

(** create_segments.py, lines 138 to 144: the renames of the long names. *)
Definition column_renames : list (string * string) :=
  [ ("Lead_Number", "customer_id");
    ("What_is_your_current_occupation", "Occupation");
    ("How_did_you_hear_about_X_Education", "Referral_Source");
    ("What_matters_most_to_you_in_choosing_a_course", "Priority");
    ("Last_Notable_Activity", "Last_Activity_Type") ].

Fixpoint rename_column (name : string) (renames : list (string * string)) : string :=
  match renames with
  | [] => name
  | (old, new) :: rest => if String.eqb name old then new else rename_column name rest
  end.

(** create_segments.py, lines 133 to 144: the name a column of the cleaned
    data gets in the database. *)
Definition sql_friendly (name : string) : string :=
  rename_column (Py.replace "-" "_" (Py.replace " " "_" name)) column_renames.

(* ===================================================================== *)
(** ** Reading a returned dict, and reachable configurations *)
(* ===================================================================== *)

Definition is_responder (n : Node) : bool :=
  match n with supervisor => false | _ => true end.

(** ["needs_clarification": True] is among the pairs of the dict. *)
Definition asks_clarification (u : Update) : bool :=
  existsb (fun e => match e with set_needs_clarification true => true | _ => false end) u.

(** The [SqlExecute] events of a trace. *)
Definition executed_queries (tr : list Event) : list string :=
  flat_map (fun e => match e with SqlExecute q => [q] | LlmInvoke _ => [] end) tr.

(** The configurations a run passes through. *)
Inductive Reach (E : Env) (c0 : Config) : Config -> Prop :=
| reach_start : Reach E c0 c0
| reach_step (c : Config) : Reach E c0 c -> Reach E c0 (step E c).

(** The nodes executed so far together with the one about to run (or the
    one that raised). *)
Definition scheduled (c : Config) : list Node :=
  (map fst (history c) ++
   match status c with
   | Running n => [n]
   | Failed n => [n]
   | Done => []
   end)%list.

(** The identifier the supervisor records for each responder. *)
Definition agent_name (n : Node) : string :=
  match n with
  | supervisor => "SUPERVISOR"
  | sql_agent => "SQL_AGENT"
  | dataviz_agent => "DATAVIZ_AGENT"
  | segmentation_agent => "SEGMENTATION_AGENT"
  | product_expert => "PRODUCT_EXPERT"
  | email_writer => "EMAIL_WRITER"
  end.

Definition node_eqb (a b : Node) : bool :=
  match a, b with
  | supervisor, supervisor | sql_agent, sql_agent | dataviz_agent, dataviz_agent
  | segmentation_agent, segmentation_agent | product_expert, product_expert
  | email_writer, email_writer => true
  | _, _ => false
  end.

Definition count_node (n : Node) (l : list Node) : nat :=
  List.length (filter (node_eqb n) l).

(* ===================================================================== *)
(** ** Vocabulary of the properties, invariants and concrete turns *)
(* ===================================================================== *)

(** The shapes the Validate stage refuses: a [WITH] together with an [AS],
    two [SELECT]s, a [JOIN], or no mention of the table; keywords are read
    without regard to case. *)
Definition Forbidden (sql : string) : Prop :=
  (Occurs "WITH " (Py.upper sql) /\ Occurs " AS " (Py.upper sql))
  \/ OccursTwice "SELECT" (Py.upper sql)
  \/ Occurs "JOIN" (Py.upper sql)
  \/ ~ Occurs "leadscored" (Py.lower sql).


(** The state with another clarification answer, and two configurations
    that differ in the clarification answer only. *)
Definition with_answer (answer : option string) (st : AgentState) : AgentState :=
  {| messages := messages st;
     next_agent := next_agent st;
     leads_data := leads_data st;
     product_info := product_info st;
     segment_analysis := segment_analysis st;
     email_draft := email_draft st;
     sql_plan := sql_plan st;
     sql_query := sql_query st;
     sql_validation_error := sql_validation_error st;
     needs_visualization := needs_visualization st;
     needs_clarification := needs_clarification st;
     clarification_question := clarification_question st;
     clarification_options := clarification_options st;
     user_clarification := answer;
     is_complete := is_complete st;
     current_step := current_step st;
     completed_agents := completed_agents st |}.

Definition same_but_answer (answer : option string) (c c' : Config) : Prop :=
  status c' = status c /\
  state c' = with_answer answer (state c) /\
  trace c' = trace c /\
  history c' = history c.





(** The bookkeeping keys, which only the supervisor writes. *)
Definition control_entry (e : Entry) : bool :=
  match e with
  | set_next_agent _ | set_current_step _ | set_completed_agents _ => true
  | _ => false
  end.

Definition payload_only (u : Update) : bool :=
  forallb (fun e => negb (control_entry e)) u.

Definition is_leads_entry (e : Entry) : bool :=
  match e with set_leads_data _ => true | _ => false end.

Definition is_clarification_entry (e : Entry) : bool :=
  match e with set_needs_clarification _ => true | _ => false end.

Definition agent_names : list string :=
  map agent_name [sql_agent; dataviz_agent; segmentation_agent; product_expert; email_writer].

(** The responders the supervisor alone dispatches. *)
Definition once_nodes : list Node :=
  [sql_agent; segmentation_agent; product_expert; email_writer].

Definition pending (s : Status) : list Node :=
  match s with
  | Running n => [n]
  | Failed n => [n]
  | Done => []
  end.

Definition entry_asks (nu : Node * Update) : bool := asks_clarification (snd nu).

Definition entry_writes (nu : Node * Update) : bool := writes_leads_data (snd nu).

(** What holds of every configuration of a turn started by
    [run_team_query q a]. *)
Record Inv (q : string) (a : option string) (c : Config) : Prop := mkInv {
  inv_nodup : NoDup (completed_agents (state c));
  inv_names : incl (completed_agents (state c)) agent_names;
  inv_recorded :
    forall n, In n once_nodes -> In n (scheduled c) ->
              In (agent_name n) (completed_agents (state c));
  inv_once : forall n, In n once_nodes -> count_node n (scheduled c) <= 1;
  inv_counter :
    status c <> Done ->
    current_step (state c) = Z.of_nat (List.length (completed_agents (state c)));
  inv_done : status c = Done -> is_complete (state c) = true;
  inv_data : leads_data (state c) <> None -> In sql_agent (map fst (history c));
  inv_log : exists rest, messages (state c) = HumanMessage q :: rest;
  inv_answer : user_clarification (state c) = a;
  inv_writers : forall nu, In nu (history c) -> entry_writes nu = true -> fst nu = sql_agent;
  inv_askers : forall nu, In nu (history c) -> entry_asks nu = true -> fst nu = sql_agent;
  inv_asked : needs_clarification (state c) = existsb entry_asks (history c)
}.

Definition weight (n : Node) : nat :=
  match n with
  | supervisor => 1
  | sql_agent => 3
  | _ => 2
  end.

(** An upper bound on the super-steps a configuration still takes. *)
Definition measure (c : Config) : nat :=
  match status c with
  | Running n => 3 * (5 - List.length (completed_agents (state c))) + weight n
  | _ => 0
  end.

Definition one_row : DataFrame := [[("Segment", "Champions")]].

(** A model that answers every prompt with a valid query, over a store that
    holds one row. *)
Definition env_rows : Env := {|
  llm := fun _ _ => Some "SELECT Segment FROM leadscored;";
  read_sql := fun _ => inr one_row;
  to_markdown := fun _ => "| Segment |";
  render_error := fun _ => None;
  to_json := fun _ => "[{}]";
  parse_records := fun _ => inr one_row;
  chart_report := fun _ _ => Some (["Segment Distribution"], EmptyString);
  data_summary := fun _ => Some ("['Segment']", "Records: 1");
  describe_leads := fun _ => "Sending to 1 leads in segment: Champions";
  segment_info := "{}"
|}.

(** The same model over a store whose table is empty. *)
Definition env_empty : Env := {|
  llm := llm env_rows;
  read_sql := fun _ => inr [];
  to_markdown := to_markdown env_rows;
  render_error := render_error env_rows;
  to_json := to_json env_rows;
  parse_records := parse_records env_rows;
  chart_report := chart_report env_rows;
  data_summary := data_summary env_rows;
  describe_leads := describe_leads env_rows;
  segment_info := segment_info env_rows
|}.

Definition drift_reply : string :=
  "according to recent search results, Champions are a football club".

(** A model that drifts off the database in every reply. *)
Definition env_drift : Env := {|
  llm := fun _ _ => Some drift_reply;
  read_sql := read_sql env_rows;
  to_markdown := to_markdown env_rows;
  render_error := render_error env_rows;
  to_json := to_json env_rows;
  parse_records := parse_records env_rows;
  chart_report := chart_report env_rows;
  data_summary := data_summary env_rows;
  describe_leads := describe_leads env_rows;
  segment_info := segment_info env_rows
|}.

(** A model that drifts on the first call of a turn unless the prompt
    carries a clarification, and answers with a valid query otherwise. *)
Definition env_resume : Env := {|
  llm := fun tr prompt =>
           match tr with
           | [] =>
               if Py.contains "User clarified" (Py.join EmptyString (map content prompt))
               then Some "SELECT Segment FROM leadscored;"
               else Some drift_reply
           | _ => Some "SELECT Segment FROM leadscored;"
           end;
  read_sql := read_sql env_rows;
  to_markdown := to_markdown env_rows;
  render_error := render_error env_rows;
  to_json := to_json env_rows;
  parse_records := parse_records env_rows;
  chart_report := chart_report env_rows;
  data_summary := data_summary env_rows;
  describe_leads := describe_leads env_rows;
  segment_info := segment_info env_rows
|}.

Definition message_eqb (m1 m2 : Message) : bool :=
  match m1, m2 with
  | HumanMessage x, HumanMessage y
  | AIMessage x, AIMessage y
  | SystemMessage x, SystemMessage y => String.eqb x y
  | _, _ => false
  end.

(** The log [new] starts with the whole of the log [old]. *)
Fixpoint log_preserved (old new : list Message) : bool :=
  match old, new with
  | [], _ => true
  | m :: old', m' :: new' => message_eqb m m' && log_preserved old' new'
  | _ :: _, [] => false
  end.

(** No responder runs after a dict that asks for a clarification. *)
Fixpoint quiet_after_clarification (h : list (Node * Update)) : bool :=
  match h with
  | [] => true
  | (_, u) :: rest =>
      (if asks_clarification u
       then forallb (fun nu => negb (is_responder (fst nu))) rest
       else true)
      && quiet_after_clarification rest
  end.

Definition pie_chart_turn : Config :=
  run_team_query env_rows "Show me segment distribution with a pie chart" None.

Definition returned {A : Type} (o : Outcome A) (default : A) : A :=
  match o with
  | Ok x => x
  | Raised => default
  end.

(** A greeting, on which the model drifts: the turn is interrupted. *)
Definition interrupted_turn : Config := run_team_query env_resume "hello" None.

(** The same request resumed with the third option offered. *)
Definition resumed_turn : Config :=
  run_team_query env_resume "hello" (Some "Let me rephrase").

(** A request for data and an email, on which the model drifts. *)
Definition email_turn : Config :=
  run_team_query env_drift "show customers and write an email" None.

(** The configuration of [email_turn] in which the pipeline is about to
    run. *)
Definition email_turn_at_pipeline : Config :=
  step env_drift (start (initial_state "show customers and write an email" None)).

Definition greeting_turn : Config := run_team_query env_drift "hello" None.

Definition is_ai (m : Message) : bool :=
  match m with
  | AIMessage _ => true
  | _ => false
  end.

(** The query passes the Validate stage. *)
Definition validated (query : string) : bool := fst (validate_sql query SCHEMA).

Definition is_product_entry (e : Entry) : bool :=
  match e with set_product_info _ => true | _ => false end.

(** The words on which the pipeline sets [needs_visualization]
    (sql_agent.py, lines 149 to 151). *)
Definition pipeline_viz_words : list string :=
  ["chart"; "pie"; "bar"; "graph"; "plot"; "visualiz"; "distribution"].

(** None of the supervisor's keyword classifiers fires on the request. *)
Definition no_trigger (request : string) : Prop :=
  needs_sql_of (Py.lower request) = false /\
  needs_viz_of (Py.lower request) = false /\
  needs_email_of (Py.lower request) = false /\
  needs_product_of (Py.lower request) = false /\
  needs_strategy_of (Py.lower request) = false.

(** Further facts that hold of every configuration of a turn started by
    [run_team_query q a]: who wrote the log, what the recorded identifiers
    and the counter stand for, and where the data and the catalog text come
    from. *)
Record Turn (E : Env) (q : string) (a : option string) (c : Config) : Prop := mkTurn {
  turn_log :
    exists rest, messages (state c) = HumanMessage q :: rest /\
                 forallb is_ai rest = true;
  turn_dispatched :
    forall n, is_responder n = true ->
              In (agent_name n) (completed_agents (state c)) -> In n (scheduled c);
  turn_catalog :
    In product_expert (map fst (history c)) ->
    product_info (state c) = Some Text.product_str;
  turn_content_ready :
    status c = Running email_writer -> needs_product_of (Py.lower q) = true ->
    In "PRODUCT_EXPERT" (completed_agents (state c));
  turn_content_last : In email_writer (map fst (history c)) -> status c = Done;
  turn_counter :
    current_step (state c) = Z.of_nat (count_node supervisor (map fst (history c)));
  turn_bound :
    (current_step (state c)
     <= Z.of_nat (List.length (completed_agents (state c))) + 1)%Z;
  turn_analytics :
    count_node dataviz_agent (scheduled c)
    <= count_node sql_agent (map fst (history c))
       + (if Py.mem "DATAVIZ_AGENT" (completed_agents (state c)) then 1 else 0);
  turn_analytics_data :
    status c = Running dataviz_agent -> needs_sql_of (Py.lower q) = true ->
    Py.truthy (leads_data (state c)) = true;
  turn_store_valid : forallb validated (executed_queries (trace c)) = true;
  turn_store_once :
    List.length (executed_queries (trace c))
    <= count_node sql_agent (map fst (history c));
  turn_rows :
    forall j, leads_data (state c) = Some j ->
              exists query df,
                In query (executed_queries (trace c)) /\
                read_sql E query = inr df /\ df <> [] /\ j = to_json E df
}.

(** Every character of the text is a blank. *)
Fixpoint all_spaces (s : string) : bool :=
  match s with
  | EmptyString => true
  | String c s' => Py.is_space c && all_spaces s'
  end.

(** [c in s] for one character. *)
Fixpoint has_char (c : ascii) (s : string) : bool :=
  match s with
  | EmptyString => false
  | String x s' => Ascii.eqb x c || has_char c s'
  end.

(** The keyword test that guards each responder in the decision policy of
    supervisor.py (lines 59 to 112); the query pipeline is also the
    default. *)
Definition keyword_of (n : Node) (request_lower : string) : bool :=
  match n with
  | dataviz_agent => needs_viz_of request_lower
  | segmentation_agent => needs_strategy_of request_lower
  | product_expert => needs_product_of request_lower
  | email_writer => needs_email_of request_lower
  | _ => true
  end.

(** The prompt the Content responder sends for a request, given the text
    about the leads and the text about the product. *)
Definition email_prompt (leads_info product_info request : string) : list Message :=
  [ SystemMessage (Text.EMAIL_WRITER_PROMPT leads_info product_info);
    HumanMessage ("Write a sales email for this request: " ++ request) ].

Fixpoint iterate {A : Type} (f : A -> A) (k : nat) (x : A) : A :=
  match k with
  | O => x
  | S k' => iterate f k' (f x)
  end.

(** The configuration of [pie_chart_turn] in which the pipeline is about to
    run. *)
Definition pie_chart_turn_at_pipeline : Config :=
  step env_rows (start (initial_state "Show me segment distribution with a pie chart" None)).

(** The configuration of [pie_chart_turn] in which Analytics is about to run
    for the first time. *)
Definition pie_chart_turn_at_analytics : Config :=
  step env_rows pie_chart_turn_at_pipeline.

(** A request for data and an email about the product over the empty
    table, at the point where the Catalog responder is about to run. *)
Definition empty_result_turn_at_catalog : Config :=
  iterate (step env_empty) 3
    (start (initial_state "show customers and write an email about learning labs" None)).

(** A request for data and an email about the product, on which the model
    drifts, at the point where the Content responder is about to run. *)
Definition product_email_turn_at_content : Config :=
  iterate (step env_drift) 5
    (start (initial_state "show customers and write an email about learning labs" None)).

(* ===================================================================== *)
(** ** Facts about the string operations *)
(* ===================================================================== *)

Section StringFacts.

Lemma append_nil_r (s : string) : s ++ EmptyString = s.
Proof. induction s; simpl; congruence. Qed.

Lemma append_assoc (a b c : string) : (a ++ b) ++ c = a ++ b ++ c.
Proof. induction a; simpl; congruence. Qed.

Lemma length_append (a b : string) :
  String.length (a ++ b) = String.length a + String.length b.
Proof. induction a; simpl; congruence. Qed.

Lemma startswith_app (p r : string) : Py.startswith p (p ++ r) = true.
Proof.
  induction p as [|a p IH]; simpl; [reflexivity|].
  now rewrite Ascii.eqb_refl.
Qed.

Lemma startswith_inv (p s : string) :
  Py.startswith p s = true -> exists r, s = p ++ r.
Proof.
  revert s; induction p as [|a p IH]; intros s H.
  - now exists s.
  - destruct s as [|b s]; simpl in H; [discriminate|].
    apply andb_true_iff in H as [Hab Hps].
    apply Ascii.eqb_eq in Hab; subst b.
    destruct (IH _ Hps) as [r ->]. now exists r.
Qed.

Lemma startswith_iff (p s : string) :
  Py.startswith p s = true <-> exists r, s = p ++ r.
Proof.
  split; [apply startswith_inv|].
  intros [r ->]; apply startswith_app.
Qed.

Lemma contains_unfold (sub s : string) :
  Py.contains sub s =
  Py.startswith sub s ||
  match s with EmptyString => false | String _ s' => Py.contains sub s' end.
Proof. destruct s; reflexivity. Qed.

(** [sub in s] holds exactly when [s] splits around a copy of [sub]. *)
Lemma contains_iff (sub s : string) :
  Py.contains sub s = true <-> Occurs sub s.
Proof.
  split.
  - induction s as [|c s IH]; rewrite contains_unfold; intros H;
      apply orb_true_iff in H as [H|H]; try discriminate.
    + apply startswith_inv in H as [r Hr]. now exists EmptyString, r.
    + apply startswith_inv in H as [r Hr]. now exists EmptyString, r.
    + destruct (IH H) as (pre & post & ->). now exists (String c pre), post.
  - intros (pre & post & ->).
    induction pre as [|c pre IH]; rewrite contains_unfold.
    + simpl. now rewrite startswith_app.
    + simpl. rewrite IH. apply orb_true_r.
Qed.

Lemma contains_false_iff (sub s : string) :
  Py.contains sub s = false <-> ~ Occurs sub s.
Proof.
  rewrite <- contains_iff. destruct (Py.contains sub s); split; intros H;
    try congruence; try reflexivity.
Qed.

Lemma drop_app_length (a b : string) : Py.drop (String.length a) (a ++ b) = b.
Proof. induction a; simpl; auto. Qed.

Lemma drop_app_le (n : nat) (a b : string) :
  n <= String.length a -> Py.drop n (a ++ b) = Py.drop n a ++ b.
Proof.
  revert a; induction n as [|n IH]; intros a Hn; [reflexivity|].
  destruct a as [|c a]; simpl in *; [lia|]. apply IH; lia.
Qed.

(** Passing over [k] characters is scanning the text without them. *)
Lemma count_from_drop (sub : string) (k : nat) (s : string) :
  Py.count_from sub k s = Py.count_from sub 0 (Py.drop k s).
Proof.
  revert k; induction s as [|c s IH]; intros [|k]; try reflexivity.
  simpl Py.drop. rewrite <- IH. reflexivity.
Qed.

Lemma count_from_cons (sub : string) (c : ascii) (s : string) :
  Py.count_from sub 0 (String c s) =
  if Py.startswith sub (String c s)
  then S (Py.count_from sub 0 (Py.drop (String.length sub - 1) s))
  else Py.count_from sub 0 s.
Proof. simpl Py.count_from at 1. now rewrite <- count_from_drop. Qed.

Lemma count_from_startswith (a : ascii) (sub r : string) :
  Py.count_from (String a sub) 0 (String a sub ++ r) =
  S (Py.count_from (String a sub) 0 r).
Proof.
  change (String a sub ++ r) with (String a (sub ++ r)).
  rewrite count_from_cons.
  change (String a (sub ++ r)) with (String a sub ++ r).
  rewrite startswith_app.
  replace (String.length (String a sub) - 1) with (String.length sub)
    by (simpl; lia).
  now rewrite drop_app_length.
Qed.

(** A counted occurrence is an occurrence, and the count behind it is one
    less. *)
Lemma count_from_S (sub s : string) (n : nat) :
  sub <> EmptyString ->
  Py.count_from sub 0 s = S n ->
  exists pre post, s = pre ++ sub ++ post /\ Py.count_from sub 0 post = n.
Proof.
  intros Hsub. induction s as [|c s IH]; [discriminate|].
  rewrite count_from_cons.
  destruct (Py.startswith sub (String c s)) eqn:Hp.
  - intros H; injection H as H.
    apply startswith_inv in Hp as [r Hr].
    exists EmptyString, r. split; [exact Hr|].
    destruct sub as [|a sub]; [congruence|].
    simpl in Hr. injection Hr as -> ->.
    replace (String.length (String a sub) - 1) with (String.length sub) in H
      by (simpl; lia).
    now rewrite drop_app_length in H.
  - intros H. destruct (IH H) as (pre & post & -> & Hn).
    now exists (String c pre), post.
Qed.

(** The scan misses no occurrence. *)
Lemma occurs_count_from (sub s : string) :
  sub <> EmptyString -> Occurs sub s -> 1 <= Py.count_from sub 0 s.
Proof.
  intros Hsub (pre & post & ->).
  induction pre as [|c pre IH].
  - destruct sub as [|a sub]; [congruence|].
    change (EmptyString ++ String a sub ++ post) with (String a sub ++ post).
    rewrite count_from_startswith. lia.
  - change (String c pre ++ sub ++ post) with (String c (pre ++ sub ++ post)).
    rewrite count_from_cons.
    destruct (Py.startswith sub (String c (pre ++ sub ++ post))); lia.
Qed.

(** Scanning from the left finds two occurrences whenever two disjoint ones
    exist. *)
Lemma occurs_twice_count_from (sub s : string) :
  sub <> EmptyString -> OccursTwice sub s -> 2 <= Py.count_from sub 0 s.
Proof.
  intros Hsub (a & b & c & ->).
  induction a as [|x a IH].
  - destruct sub as [|y sub]; [congruence|].
    change (EmptyString ++ String y sub ++ b ++ String y sub ++ c)
      with (String y sub ++ b ++ String y sub ++ c).
    rewrite count_from_startswith.
    assert (1 <= Py.count_from (String y sub) 0 (b ++ String y sub ++ c)).
    { apply occurs_count_from; [congruence|]. now exists b, c. }
    lia.
  - change (String x a ++ sub ++ b ++ sub ++ c)
      with (String x (a ++ sub ++ b ++ sub ++ c)).
    rewrite count_from_cons.
    destruct (Py.startswith sub (String x (a ++ sub ++ b ++ sub ++ c))) eqn:Hp;
      [|exact IH].
    apply le_n_S. apply occurs_count_from; [exact Hsub|].
    (* the match at the front ends no later than the second copy starts *)
    destruct sub as [|y sub]; [congruence|].
    replace (String.length (String y sub) - 1) with (String.length sub)
      by (simpl; lia).
    exists (Py.drop (String.length sub) (a ++ String y sub ++ b)), c.
    rewrite <- drop_app_le.
    + now rewrite !append_assoc.
    + rewrite !length_append. simpl. lia.
Qed.

(** [s.count(sub) > 1] holds exactly when [s] holds two disjoint copies of
    [sub]. *)
Lemma count_gt_1_iff (sub s : string) :
  sub <> EmptyString ->
  (1 <? Py.count sub s) = true <-> OccursTwice sub s.
Proof.
  intros Hsub. rewrite Nat.ltb_lt.
  assert (Hc : Py.count sub s = Py.count_from sub 0 s)
    by (destruct sub; [congruence|reflexivity]).
  rewrite Hc. split.
  - intros H.
    destruct (Py.count_from sub 0 s) as [|[|n]] eqn:Hn; try lia.
    destruct (count_from_S _ _ _ Hsub Hn) as (a & r & -> & Hr).
    destruct (count_from_S _ _ _ Hsub Hr) as (b & c & -> & _).
    now exists a, b, c.
  - intros H. apply (occurs_twice_count_from _ _ Hsub) in H. lia.
Qed.

Lemma map_str_app (f : ascii -> ascii) (a b : string) :
  Py.map_str f (a ++ b) = Py.map_str f a ++ Py.map_str f b.
Proof. induction a; simpl; congruence. Qed.

Lemma occurs_lower (sub s : string) :
  Occurs sub s -> Occurs (Py.lower sub) (Py.lower s).
Proof.
  intros (pre & post & ->). exists (Py.lower pre), (Py.lower post).
  unfold Py.lower. now rewrite !map_str_app.
Qed.

Lemma occurs_prefix (a b s : string) : Occurs (a ++ b) s -> Occurs a s.
Proof.
  intros (pre & post & ->). exists pre, (b ++ post). now rewrite append_assoc.
Qed.

Lemma any_in_intro (kw : string) (kws : list string) (s : string) :
  In kw kws -> Occurs kw s -> Py.any_in kws s = true.
Proof.
  intros Hin Hocc. apply existsb_exists. exists kw. split; [exact Hin|].
  now apply contains_iff.
Qed.

Lemma lstrip_keeps (pre post p : string) (c : ascii) :
  Py.is_space c = false ->
  exists pre', Py.lstrip (pre ++ String c p ++ post) = pre' ++ String c p ++ post.
Proof.
  intros Hc. induction pre as [|x pre IH].
  - exists EmptyString. cbn. now rewrite Hc.
  - cbn. destruct (Py.is_space x).
    + exact IH.
    + now exists (String x pre).
Qed.

Lemma rstrip_keeps (pre post : string) (d : ascii) :
  Py.is_space d = false ->
  Py.rstrip (pre ++ String d post) = pre ++ String d (Py.rstrip post).
Proof.
  intros Hd. induction pre as [|x pre IH].
  - cbn. destruct (Py.rstrip post); [now rewrite Hd|reflexivity].
  - cbn [append Py.rstrip]. rewrite IH.
    destruct pre; reflexivity.
Qed.

(** Stripping a text keeps every occurrence of a phrase that neither starts
    nor ends with a blank. *)
Lemma occurs_strip (c d : ascii) (p s : string) :
  Py.is_space c = false -> Py.is_space d = false ->
  Occurs (String c (p ++ String d EmptyString)) s ->
  Occurs (String c (p ++ String d EmptyString)) (Py.strip s).
Proof.
  intros Hc Hd (pre & post & ->). unfold Py.strip.
  destruct (lstrip_keeps pre post (p ++ String d EmptyString) c Hc) as [pre' ->].
  replace (pre' ++ String c (p ++ String d EmptyString) ++ post)
    with ((pre' ++ String c p) ++ String d post)
    by (rewrite !append_assoc; cbn; now rewrite append_assoc).
  rewrite (rstrip_keeps _ _ _ Hd).
  exists pre', (Py.rstrip post).
  rewrite !append_assoc. cbn. now rewrite append_assoc.
Qed.

End StringFacts.

(* ===================================================================== *)
(** ** The query pipeline: Validate *)
(* ===================================================================== *)

(** Splits a goal about [sql_agent_node E st tr] along the returns of the
    node, in source order: the three plan-stage clarifications, the
    [CANNOT_ANSWER] return, the clarification on an unusable generated text,
    the validation failure, the execution error of the store, the return
    without rows, the execution error of the rendering, the return with
    rows, and the two places where the language model may raise. *)
Ltac sql_agent_cases E st tr :=
  unfold sql_agent_node, bind, invoke_llm, execute_sql, ret;
  destruct (llm E tr (plan_prompt (working_question st))) as [plan_reply|] eqn:Hplan;
  [ destruct (detect_invalid_response (Py.strip plan_reply))
      as [is_invalid invalid_type] eqn:Hdetect;
    destruct is_invalid;
    [ destruct (String.eqb invalid_type "gaming_confusion") eqn:Hgaming;
      [ | destruct (String.eqb invalid_type "web_search") eqn:Hweb ]
    | destruct (Py.startswith "CANNOT_ANSWER" (Py.upper (Py.strip plan_reply))) eqn:Hcannot;
      [ | destruct (llm E (tr ++ [LlmInvoke (plan_prompt (working_question st))])
                      (generate_prompt (Py.strip plan_reply)))
            as [sql_reply|] eqn:Hgen;
          [ destruct (fst (detect_invalid_response (Py.strip sql_reply))) eqn:Hdetect2;
            [ | destruct (validate_sql (extract_sql (Py.strip sql_reply)) SCHEMA)
                  as [is_valid validation_error] eqn:Hvalid;
                destruct is_valid; cbn [negb];
                [ destruct (read_sql E (extract_sql (Py.strip sql_reply)))
                    as [error_msg|df] eqn:Hexec;
                  [ | destruct (Nat.eqb (List.length df) 0) eqn:Hrows;
                      [ | destruct (render_error E df) as [render_msg|] eqn:Hrender ] ]
                | ] ]
          | ] ] ]
  | ].

(** Closes a goal from a hypothesis that a dict holds a pair it does not. *)
Ltac absurd_entry :=
  repeat match goal with
         | H : In _ (_ :: _) |- _ => destruct H as [H|H]
         | H : In _ [] |- _ => destruct H
         end;
  try discriminate.

Lemma validate_sql_false_iff (sql : string) :
  fst (validate_sql sql SCHEMA) = false <-> Forbidden sql.
Proof.
  assert (Hsel : "SELECT" <> EmptyString) by discriminate.
  unfold validate_sql, Forbidden.
  rewrite <- !contains_iff, <- (count_gt_1_iff _ _ Hsel).
  destruct (Py.contains "WITH " (Py.upper sql)),
           (Py.contains " AS " (Py.upper sql)),
           (1 <? Py.count "SELECT" (Py.upper sql)),
           (Py.contains "JOIN" (Py.upper sql)),
           (Py.contains "leadscored" (Py.lower sql)); cbn; intuition congruence.
Qed.


(** The node only ever appends to the trace; a query it executes has passed
    validation; and when it reports a validation error it has executed
    nothing and asks for a clarification, naming the error of the very
    query it shows. *)
Lemma sql_agent_validates_before_executing (E : Env) (st : AgentState) (tr : list Event) :
  exists new,
    snd (sql_agent_node E st tr) = (tr ++ new)%list /\
    (forall q, In q (executed_queries new) -> fst (validate_sql q SCHEMA) = true) /\
    (forall u e,
        fst (sql_agent_node E st tr) = Ok u ->
        In (set_sql_validation_error (Some e)) u ->
        executed_queries new = [] /\
        In (set_needs_clarification true) u /\
        exists q, In (set_sql_query (Some q)) u /\ validate_sql q SCHEMA = (false, e)).
Proof.
  sql_agent_cases E st tr.
  all: cbn [snd fst]; rewrite <- ?app_assoc; cbn [app].
  all: eexists; split; [reflexivity|]; split.
  all: cbn [executed_queries flat_map app].
  all: try (intros q []; fail).
  all: try (intros q [Hq|[]]; subst q; now rewrite Hvalid).
  all: intros u e Hu Hin; try discriminate; injection Hu as Hu; subst u.
  all: try (exfalso; absurd_entry; fail).
  split; [reflexivity|]. split; [cbn; tauto|].
  exists (extract_sql (Py.strip sql_reply)). split; [cbn; tauto|].
  absurd_entry. now injection Hin as <-.
Qed.


(** The keywords are looked for as pieces of text, not as tokens: a column
    whose name holds [join] or a second [select], or a table whose name only
    starts with [leadscored], decides the stage as the keyword would. *)
Remark keywords_are_found_as_text :
  validate_sql "SELECT Last_Activity FROM leadscored WHERE City = 'Rejoined'" SCHEMA
    = (false, "JOINs are not allowed. Only the leadscored table is available.") /\
  validate_sql "SELECT Segment FROM leadscored WHERE Occupation = 'Selected'" SCHEMA
    = (false, "Subqueries are not allowed. Use simple SELECT.") /\
  validate_sql "SELECT Segment FROM leadscored_archive" SCHEMA = (true, EmptyString) /\
  validate_sql "WITH
x AS (SELECT Segment FROM leadscored) DELETE FROM leadscored" SCHEMA
    = (true, EmptyString).
Proof. repeat split; reflexivity. Qed.

(* ===================================================================== *)
(** ** The query pipeline: the sanity check of the plan *)
(* ===================================================================== *)

Lemma detect_web_search (plan : string) :
  Occurs "according to recent search results" plan ->
  detect_invalid_response plan = (true, "web_search").
Proof.
  intros H. unfold detect_invalid_response.
  rewrite (any_in_intro "according to"); [reflexivity| |].
  - cbn; tauto.
  - apply occurs_lower in H.
    change (Py.lower "according to recent search results")
      with ("according to" ++ " recent search results") in H.
    exact (occurs_prefix _ _ _ H).
Qed.

(** C3. When the plan text holds the phrase "according to recent search
    results", the sanity check classifies it as [web_search]; the node
    returns a clarification request with three options and the turn not
    complete; and the only call it has made to the outside is the one that
    produced the plan: no query text is generated, none is executed. *)
Theorem web_search_plan_asks_clarification
    (E : Env) (st : AgentState) (tr : list Event) (reply : string) :
  llm E tr (plan_prompt (working_question st)) = Some reply ->
  Occurs "according to recent search results" (Py.strip reply) ->
  detect_invalid_response (Py.strip reply) = (true, "web_search") /\
  exists u,
    sql_agent_node E st tr
      = (Ok u, (tr ++ [LlmInvoke (plan_prompt (working_question st))])%list) /\
    needs_clarification (apply_update st u) = true /\
    clarification_options (apply_update st u)
      = Some ["Show segment distribution"; "List top customers"; "Let me rephrase"] /\
    is_complete (apply_update st u) = false /\
    sql_query (apply_update st u) = sql_query st /\
    leads_data (apply_update st u) = leads_data st.
Proof.
  intros Hplan Hocc.
  pose proof (detect_web_search _ Hocc) as Hdet.
  split; [exact Hdet|].
  unfold sql_agent_node, bind, invoke_llm, ret.
  rewrite Hplan, Hdet. cbn [String.eqb Ascii.eqb Bool.eqb andb].
  eexists; split; [reflexivity|].
  destruct st; cbn. repeat split; reflexivity.
Qed.

(** The same for the reply as the model gave it, before it is stripped. *)
Corollary web_search_reply_asks_clarification
    (E : Env) (st : AgentState) (tr : list Event) (reply : string) :
  llm E tr (plan_prompt (working_question st)) = Some reply ->
  Occurs "according to recent search results" reply ->
  exists u,
    sql_agent_node E st tr
      = (Ok u, (tr ++ [LlmInvoke (plan_prompt (working_question st))])%list) /\
    needs_clarification (apply_update st u) = true /\
    is_complete (apply_update st u) = false.
Proof.
  intros Hplan Hocc.
  apply (occurs_strip "a" "s" "ccording to recent search result") in Hocc;
    try reflexivity.
  apply detect_web_search in Hocc.
  unfold sql_agent_node, bind, invoke_llm, ret.
  rewrite Hplan, Hocc. cbn [String.eqb Ascii.eqb Bool.eqb andb].
  eexists; split; [reflexivity|].
  destruct st; cbn. split; reflexivity.
Qed.

(* ===================================================================== *)
(** ** The query pipeline: an empty result *)
(* ===================================================================== *)


(* ===================================================================== *)
(** ** The supervisor *)
(* ===================================================================== *)

(** Splits a goal along the [if]s of the code under consideration. *)
Ltac split_ifs :=
  repeat match goal with
         | |- context [if ?b then _ else _] => destruct b eqn:?
         end.

Lemma supervisor_sets_step (st : AgentState) :
  In (set_current_step (current_step st + 1)%Z) (supervisor_node st).
Proof. unfold supervisor_node. split_ifs; cbn; tauto. Qed.

Lemma supervisor_step_after (st : AgentState) :
  current_step (apply_update st (supervisor_node st)) = (current_step st + 1)%Z.
Proof. unfold supervisor_node. split_ifs; destruct st; reflexivity. Qed.

Lemma route_from_supervisor_ceiling (st : AgentState) :
  (8 < current_step st)%Z -> route_from_supervisor st = END.
Proof.
  intros H. unfold route_from_supervisor.
  apply Z.ltb_lt in H. now rewrite H.
Qed.

Lemma step_supervisor (E : Env) (c : Config) :
  status c = Running supervisor ->
  step E c =
  let st := apply_update (state c) (supervisor_node (state c)) in
  {| status := match route_from_supervisor st with Goto m => Running m | END => Done end;
     state := st;
     trace := trace c;
     history := history c ++ [(supervisor, supervisor_node (state c))] |}.
Proof. intros H. unfold step. rewrite H. reflexivity. Qed.

(** C2. Every branch of the supervisor returns [current_step + 1], so each
    decision raises the counter by exactly one; and in every state whose
    counter exceeds 8 the routing function answers ["__end__"], whatever
    [completed_agents] and [next_agent] hold: a supervisor step that leaves
    the counter above 8 halts the run without dispatching a responder. *)
Theorem step_count_increases_and_caps :
  (forall st, In (set_current_step (current_step st + 1)%Z) (supervisor_node st)) /\
  (forall st,
      current_step (apply_update st (supervisor_node st)) = (current_step st + 1)%Z) /\
  (forall st, (8 < current_step st)%Z -> route_from_supervisor st = END) /\
  (forall E c,
      status c = Running supervisor ->
      current_step (state (step E c)) = (current_step (state c) + 1)%Z /\
      ((8 < current_step (state (step E c)))%Z ->
       status (step E c) = Done /\
       map fst (history (step E c)) = (map fst (history c) ++ [supervisor])%list)).
Proof.
  split; [exact supervisor_sets_step|].
  split; [exact supervisor_step_after|].
  split; [exact route_from_supervisor_ceiling|].
  intros E c Hc. rewrite (step_supervisor E c Hc). cbn [state status history].
  split; [apply supervisor_step_after|].
  intros H. rewrite (route_from_supervisor_ceiling _ H).
  split; [reflexivity|]. now rewrite map_app.
Qed.

Lemma first_human_app (log later : list Message) :
  (exists c, In (HumanMessage c) log) ->
  first_human (log ++ later) = first_human log.
Proof.
  intros [c Hc]. induction log as [|m log IH]; [destruct Hc|].
  destruct m; cbn; try reflexivity.
  all: destruct Hc as [Hc|Hc]; [discriminate|auto].
Qed.

Lemma supervisor_same_reads (s1 s2 : AgentState) :
  first_human (messages s1) = first_human (messages s2) ->
  completed_agents s1 = completed_agents s2 ->
  current_step s1 = current_step s2 ->
  Py.truthy (leads_data s1) = Py.truthy (leads_data s2) ->
  supervisor_node s1 = supervisor_node s2.
Proof.
  intros Hm Hc Hs Hl. unfold supervisor_node.
  now rewrite Hm, Hc, Hs, Hl.
Qed.

(** The routing function after a supervisor step reads what that step wrote. *)
Lemma route_after_supervisor (st : AgentState) :
  route_from_supervisor (apply_update st (supervisor_node st)) =
  if (8 <? current_step st + 1)%Z then END
  else
    match hd (set_messages []) (supervisor_node st) with
    | set_next_agent (Some name) => routing_get name routing
    | _ => END
    end.
Proof.
  unfold supervisor_node, route_from_supervisor.
  split_ifs; destruct st; cbn in *; try congruence.
  all: match goal with
       | H : (8 <? ?x)%Z = _ |- _ => rewrite H; reflexivity
       end.
Qed.

(** C9. The dict the supervisor returns, and the routing decision taken on
    it, depend on the state only through the first user message of the log,
    [completed_agents], [current_step] and the truthiness of [leads_data];
    so messages appended to a log that already holds a user message change
    nothing. *)
Theorem supervisor_routing_inputs :
  (forall s1 s2,
      first_human (messages s1) = first_human (messages s2) ->
      completed_agents s1 = completed_agents s2 ->
      current_step s1 = current_step s2 ->
      Py.truthy (leads_data s1) = Py.truthy (leads_data s2) ->
      supervisor_node s1 = supervisor_node s2 /\
      route_from_supervisor (apply_update s1 (supervisor_node s1)) =
      route_from_supervisor (apply_update s2 (supervisor_node s2))) /\
  (forall st later,
      (exists c, In (HumanMessage c) (messages st)) ->
      let st' := apply_entry st (set_messages later) in
      supervisor_node st' = supervisor_node st /\
      route_from_supervisor (apply_update st' (supervisor_node st')) =
      route_from_supervisor (apply_update st (supervisor_node st))).
Proof.
  assert (Hmain : forall s1 s2,
      first_human (messages s1) = first_human (messages s2) ->
      completed_agents s1 = completed_agents s2 ->
      current_step s1 = current_step s2 ->
      Py.truthy (leads_data s1) = Py.truthy (leads_data s2) ->
      supervisor_node s1 = supervisor_node s2 /\
      route_from_supervisor (apply_update s1 (supervisor_node s1)) =
      route_from_supervisor (apply_update s2 (supervisor_node s2))).
  { intros s1 s2 Hm Hc Hs Hl.
    pose proof (supervisor_same_reads s1 s2 Hm Hc Hs Hl) as Heq.
    split; [exact Heq|].
    now rewrite !route_after_supervisor, Heq, Hs. }
  split; [exact Hmain|].
  intros st later Hlog st'. apply Hmain; subst st'; destruct st; cbn in *;
    try reflexivity.
  now apply first_human_app.
Qed.

(* ===================================================================== *)
(** ** What a returned dict can change *)
(* ===================================================================== *)

Section Frame.

Lemma apply_update_cons (st : AgentState) (e : Entry) (u : Update) :
  apply_update st (e :: u) = apply_update (apply_entry st e) u.
Proof. reflexivity. Qed.

(** A projection that no entry of the dict touches keeps its value. *)
Lemma apply_update_keeps {X : Type} (f : AgentState -> X) (touches : Entry -> bool)
    (Hf : forall s e, touches e = false -> f (apply_entry s e) = f s)
    (st : AgentState) (u : Update) :
  existsb touches u = false -> f (apply_update st u) = f st.
Proof.
  revert st; induction u as [|e u IH]; intros st H; [reflexivity|].
  cbn in H. apply orb_false_iff in H as [He Hu].
  rewrite apply_update_cons, IH by exact Hu. now apply Hf.
Qed.

Lemma payload_only_control (u : Update) :
  payload_only u = true -> existsb control_entry u = false.
Proof.
  induction u as [|e u IH]; cbn; [reflexivity|].
  intros H. apply andb_true_iff in H as [He Hu].
  rewrite (IH Hu). now destruct (control_entry e).
Qed.

Lemma payload_keeps_completed (st : AgentState) (u : Update) :
  payload_only u = true ->
  completed_agents (apply_update st u) = completed_agents st.
Proof.
  intros H. apply (apply_update_keeps completed_agents control_entry).
  - intros [] []; cbn; congruence.
  - now apply payload_only_control.
Qed.

Lemma payload_keeps_step (st : AgentState) (u : Update) :
  payload_only u = true ->
  current_step (apply_update st u) = current_step st.
Proof.
  intros H. apply (apply_update_keeps current_step control_entry).
  - intros [] []; cbn; congruence.
  - now apply payload_only_control.
Qed.

Lemma keeps_leads_data (st : AgentState) (u : Update) :
  writes_leads_data u = false ->
  leads_data (apply_update st u) = leads_data st.
Proof.
  intros H. apply (apply_update_keeps leads_data is_leads_entry).
  - intros [] []; cbn; congruence.
  - exact H.
Qed.

Lemma keeps_needs_clarification (st : AgentState) (u : Update) :
  existsb is_clarification_entry u = false ->
  needs_clarification (apply_update st u) = needs_clarification st.
Proof.
  apply (apply_update_keeps needs_clarification is_clarification_entry).
  intros [] []; cbn; congruence.
Qed.

(** No node writes [user_clarification]. *)
Lemma keeps_user_clarification (st : AgentState) (u : Update) :
  user_clarification (apply_update st u) = user_clarification st.
Proof.
  apply (apply_update_keeps user_clarification (fun _ => false)).
  - intros [] []; reflexivity.
  - induction u; cbn; auto.
Qed.

(** The log only grows. *)
Lemma messages_grow (st : AgentState) (u : Update) :
  exists more, messages (apply_update st u) = (messages st ++ more)%list.
Proof.
  revert st; induction u as [|e u IH]; intros st.
  - exists []. now rewrite app_nil_r.
  - rewrite apply_update_cons. destruct (IH (apply_entry st e)) as [more ->].
    destruct st, e; cbn; try (now exists more).
    exists (v ++ more)%list. now rewrite app_assoc.
Qed.

End Frame.

(* ===================================================================== *)
(** ** What each responder returns *)
(* ===================================================================== *)

(** Splits a goal about [dataviz_agent_node E st tr] along its returns. *)
Ltac dataviz_cases E st tr :=
  unfold dataviz_agent_node, bind, attempt, invoke_llm, raise, ret;
  destruct (leads_data st) as [data|] eqn:Hdata;
  [ destruct (Py.truthy_str data) eqn:Htruthy; cbn [negb];
    [ destruct (parse_records E data) as [error_msg|df] eqn:Hparse;
      [ | destruct (df_empty df) eqn:Hempty;
          [ | destruct (chart_report E df (Py.lower (first_human (messages st))))
                as [[result_parts chart_comment]|] eqn:Hchart;
              [ destruct (data_summary E df) as [[cols summary]|] eqn:Hsummary;
                [ match goal with
                  | |- context [llm E tr ?p] => destruct (llm E tr p) eqn:Hllm
                  end
                | ]
              | ] ] ]
    | ]
  | ].

Section Responders.

Variable E : Env.

Lemma sql_agent_update (st : AgentState) (tr tr' : list Event) (u : Update) :
  sql_agent_node E st tr = (Ok u, tr') ->
  payload_only u = true /\
  (exists b, In (set_needs_clarification b) u) /\
  (asks_clarification u = true ->
   is_complete (apply_update st u) = false /\
   needs_clarification (apply_update st u) = true /\
   (exists o os, clarification_options (apply_update st u) = Some (o :: os)) /\
   (leads_data st = None -> leads_data (apply_update st u) = None)) /\
  needs_clarification (apply_update st u) && is_complete (apply_update st u) = false /\
  needs_clarification (apply_update st u) = asks_clarification u.
Proof.
  revert u tr'.
  sql_agent_cases E st tr; intros u tr' Hrun; try discriminate.
  all: injection Hrun as Hu Htr; subst u.
  all: split; [reflexivity|].
  all: split; [eexists; cbn; tauto|].
  all: destruct st; cbn; repeat split; intros; try discriminate; eauto.
Qed.

Lemma dataviz_agent_update (st : AgentState) (tr tr' : list Event) (u : Update) :
  dataviz_agent_node E st tr = (Ok u, tr') ->
  exists text, u = [set_messages [AIMessage text]; set_is_complete true].
Proof.
  revert u tr'.
  dataviz_cases E st tr; intros u tr' Hrun; try discriminate.
  all: injection Hrun as Hu Htr; subst u; eexists; reflexivity.
Qed.

Lemma segmentation_agent_update (st : AgentState) (tr tr' : list Event) (u : Update) :
  segmentation_agent_node E st tr = (Ok u, tr') ->
  exists text analysis,
    u = [set_messages [AIMessage text]; set_segment_analysis (Some analysis)].
Proof.
  unfold segmentation_agent_node, bind, invoke_llm, ret.
  match goal with |- context [llm E tr ?p] => destruct (llm E tr p) end;
    intros Hrun; try discriminate.
  injection Hrun as Hu Htr; subst u. now eexists _, _.
Qed.

Lemma product_expert_update (st : AgentState) (tr tr' : list Event) (u : Update) :
  product_expert_node E st tr = (Ok u, tr') ->
  exists text,
    u = [set_messages [AIMessage text]; set_product_info (Some Text.product_str)].
Proof.
  unfold product_expert_node, bind, invoke_llm, ret.
  match goal with |- context [llm E tr ?p] => destruct (llm E tr p) end;
    intros Hrun; try discriminate.
  injection Hrun as Hu Htr; subst u. now eexists.
Qed.

Lemma email_writer_update (st : AgentState) (tr tr' : list Event) (u : Update) :
  email_writer_node E st tr = (Ok u, tr') ->
  exists text draft,
    u = [set_messages [AIMessage text]; set_email_draft (Some draft);
         set_is_complete true].
Proof.
  unfold email_writer_node, bind, invoke_llm, ret.
  match goal with |- context [llm E tr ?p] => destruct (llm E tr p) end;
    intros Hrun; try discriminate.
  injection Hrun as Hu Htr; subst u. now eexists _, _.
Qed.

(** No responder writes the bookkeeping keys; only the query pipeline has
    the keys [leads_data] and [needs_clarification] in its dict. *)
Lemma responder_update (n : Node) (st : AgentState) (tr tr' : list Event) (u : Update) :
  is_responder n = true ->
  node_fn E n st tr = (Ok u, tr') ->
  payload_only u = true /\
  (n <> sql_agent ->
   writes_leads_data u = false /\ existsb is_clarification_entry u = false).
Proof.
  intros Hn Hrun. destruct n; try discriminate; cbn [node_fn] in Hrun.
  - destruct (sql_agent_update _ _ _ _ Hrun) as [Hp _]. split; [exact Hp|congruence].
  - destruct (dataviz_agent_update _ _ _ _ Hrun) as [text ->]. now split.
  - destruct (segmentation_agent_update _ _ _ _ Hrun) as (text & an & ->). now split.
  - destruct (product_expert_update _ _ _ _ Hrun) as (text & ->). now split.
  - destruct (email_writer_update _ _ _ _ Hrun) as (text & d & ->). now split.
Qed.

End Responders.

(* ===================================================================== *)
(** ** Invariants of a turn *)
(* ===================================================================== *)

Section Invariants.

Variable E : Env.

Lemma scheduled_pending (c : Config) :
  scheduled c = (map fst (history c) ++ pending (status c))%list.
Proof. unfold scheduled, pending. now destruct (status c). Qed.

Lemma node_eqb_eq (n m : Node) : node_eqb n m = true <-> n = m.
Proof. destruct n, m; cbn; split; congruence. Qed.

Lemma node_eqb_refl (n : Node) : node_eqb n n = true.
Proof. now apply node_eqb_eq. Qed.

Lemma count_node_app (n : Node) (l1 l2 : list Node) :
  count_node n (l1 ++ l2) = count_node n l1 + count_node n l2.
Proof. unfold count_node. now rewrite filter_app, length_app. Qed.

Lemma count_node_zero (n : Node) (l : list Node) :
  ~ In n l -> count_node n l = 0.
Proof.
  unfold count_node. induction l as [|m l IH]; cbn; [reflexivity|].
  intros H. destruct (node_eqb n m) eqn:Hnm.
  - apply node_eqb_eq in Hnm. exfalso; apply H; now left.
  - apply IH. intros Hin; apply H; now right.
Qed.

Lemma count_node_other (n m : Node) : n <> m -> count_node n [m] = 0.
Proof.
  intros H. apply count_node_zero. intros [->|[]]. now apply H.
Qed.

Lemma count_node_pos (n : Node) (l : list Node) : In n l -> 1 <= count_node n l.
Proof.
  unfold count_node. induction l as [|m l IH]; cbn; [tauto|].
  intros [->|Hin].
  - rewrite node_eqb_refl. cbn. lia.
  - destruct (node_eqb n m); cbn; [lia|auto].
Qed.

Lemma mem_false_iff (x : string) (l : list string) :
  Py.mem x l = false <-> ~ In x l.
Proof.
  unfold Py.mem. split.
  - intros H Hin. assert (existsb (String.eqb x) l = true); [|congruence].
    apply existsb_exists. exists x. split; [exact Hin|apply String.eqb_refl].
  - intros H. destruct (existsb (String.eqb x) l) eqn:Hex; [|reflexivity].
    apply existsb_exists in Hex as (y & Hy & Hxy).
    apply String.eqb_eq in Hxy. subst y. contradiction.
Qed.

Lemma routing_get_responder (n : Node) :
  is_responder n = true -> routing_get (agent_name n) routing = Goto n.
Proof. destruct n; cbn; congruence. Qed.

Lemma agent_name_listed (n : Node) :
  is_responder n = true -> In (agent_name n) agent_names.
Proof. destruct n; cbn; intros; try discriminate; tauto. Qed.

Lemma agent_name_inj (n m : Node) : agent_name n = agent_name m -> n = m.
Proof. destruct n, m; cbn; intros H; try reflexivity; discriminate. Qed.

(** What a supervisor step does to the state: it raises the counter and
    either records and names a responder that had not been recorded, or
    marks the turn complete. *)
Lemma supervisor_decision (st : AgentState) :
  let st' := apply_update st (supervisor_node st) in
  messages st' = messages st /\
  leads_data st' = leads_data st /\
  needs_clarification st' = needs_clarification st /\
  current_step st' = (current_step st + 1)%Z /\
  writes_leads_data (supervisor_node st) = false /\
  asks_clarification (supervisor_node st) = false /\
  ((exists n,
       is_responder n = true /\
       Py.mem (agent_name n) (completed_agents st) = false /\
       completed_agents st' = (completed_agents st ++ [agent_name n])%list /\
       next_agent st' = Some (agent_name n) /\
       is_complete st' = is_complete st)
   \/
   (completed_agents st' = completed_agents st /\
    next_agent st' = Some "COMPLETE" /\
    is_complete st' = true)).
Proof.
  unfold supervisor_node. split_ifs.
  all: repeat match goal with
              | H : _ && _ = true |- _ => apply andb_true_iff in H as [? ?]
              | H : negb _ = true |- _ => apply negb_true_iff in H
              end.
  all: destruct st; cbn in *; rewrite ?app_nil_r.
  all: repeat (split; [reflexivity|]).
  1: left; exists sql_agent; auto.
  1: left; exists dataviz_agent; auto.
  1: left; exists product_expert; auto.
  1: left; exists email_writer; auto.
  1: left; exists segmentation_agent; auto.
  1: left; exists product_expert; auto.
  1: left; exists sql_agent; auto.
  right; auto.
Qed.

Lemma completed_bound (l : list string) :
  NoDup l -> incl l agent_names -> List.length l <= 5.
Proof. intros Hn Hi. exact (NoDup_incl_length Hn Hi). Qed.

Lemma inv_start (q : string) (a : option string) :
  Inv q a (start (initial_state q a)).
Proof.
  constructor; cbn; try tauto; try congruence.
  - constructor.
  - intros x [].
  - intros n Hn [H|[]]; subst n. cbn in Hn. intuition discriminate.
  - intros n Hn. unfold count_node. cbn. destruct (node_eqb n supervisor); cbn; lia.
  - now exists [].
Qed.

End Invariants.

Section Preservation.

Variable E : Env.
Variable q : string.
Variable a : option string.

Lemma scheduled_extend (c : Config) (m : Node) (u : Update)
    (s' : Status) (st' : AgentState) (tr' : list Event) :
  status c = Running m ->
  scheduled {| status := s'; state := st'; trace := tr';
               history := history c ++ [(m, u)] |}
  = (scheduled c ++ pending s')%list.
Proof.
  intros H. rewrite !scheduled_pending. cbn [history status].
  rewrite H, map_app, <- !app_assoc. reflexivity.
Qed.

Lemma existsb_snoc_false {A : Type} (P : A -> bool) (l : list A) (x : A) :
  P x = false -> existsb P (l ++ [x]) = existsb P l.
Proof. intros H. rewrite existsb_app. cbn. now rewrite H, !orb_false_r. Qed.

Lemma asks_needs_entry (u : Update) :
  existsb is_clarification_entry u = false -> asks_clarification u = false.
Proof.
  unfold asks_clarification. induction u as [|e u IH]; cbn; [reflexivity|].
  intros H. apply orb_false_iff in H as [He Hu]. rewrite (IH Hu).
  destruct e; try discriminate; reflexivity.
Qed.

Lemma edge_responder (n : Node) (st : AgentState) :
  is_responder n = true ->
  edge n st = Goto supervisor \/ edge n st = Goto dataviz_agent \/
  (edge n st = END /\ n = email_writer).
Proof.
  destruct n; cbn; try discriminate; auto.
  intros _. unfold route_after_sql. split_ifs; auto.
Qed.

Lemma inv_supervisor_step (c : Config) :
  Inv q a c -> status c = Running supervisor -> Inv q a (step E c).
Proof.
  intros I Hs. rewrite (step_supervisor E c Hs). cbv zeta.
  pose proof (supervisor_decision (state c)) as D; cbv zeta in D.
  destruct D as (Hm & Hl & Hnc & Hcs & Hw & Ha & D).
  assert (Hrun : status c <> Done) by (rewrite Hs; discriminate).
  pose proof (inv_counter _ _ _ I Hrun) as Hcount.
  pose proof (completed_bound _ (inv_nodup _ _ _ I) (inv_names _ _ _ I)) as Hlen.
  assert (Hhist : forall (P : Node * Update -> bool),
             P (supervisor, supervisor_node (state c)) = false ->
             forall nu,
               In nu (history c ++ [(supervisor, supervisor_node (state c))])%list ->
               P nu = true -> In nu (history c)).
  { intros P HP nu Hin HPnu. apply in_app_iff in Hin as [Hin|[<-|[]]]; [exact Hin|].
    congruence. }
  destruct D as [(n & Hn & Hmem & Hca & Hna & Hic) | (Hca & Hna & Hic)].
  - (* a responder is dispatched *)
    apply mem_false_iff in Hmem.
    assert (Hnodup : NoDup (completed_agents (state c) ++ [agent_name n])).
    { apply NoDup_app; [exact (inv_nodup _ _ _ I)|repeat constructor; intros []|].
      intros x Hx [<-|[]]. contradiction. }
    assert (Hincl : incl (completed_agents (state c) ++ [agent_name n]) agent_names).
    { apply incl_app; [exact (inv_names _ _ _ I)|].
      intros x [<-|[]]. now apply agent_name_listed. }
    pose proof (completed_bound _ Hnodup Hincl) as Hlen'.
    rewrite length_app in Hlen'; cbn in Hlen'.
    assert (Hroute : route_from_supervisor
                       (apply_update (state c) (supervisor_node (state c))) = Goto n).
    { unfold route_from_supervisor. rewrite Hcs, Hna, Hcount.
      destruct (8 <? Z.of_nat (List.length (completed_agents (state c))) + 1)%Z eqn:H8.
      - apply Z.ltb_lt in H8. lia.
      - now apply routing_get_responder. }
    rewrite Hroute.
    constructor; rewrite ?(scheduled_extend c _ _ _ _ _ Hs);
      cbn [state status history pending].
    + now rewrite Hca.
    + now rewrite Hca.
    + intros x Hx Hin. rewrite Hca. apply in_app_iff.
      apply in_app_iff in Hin as [Hin|[<-|[]]].
      * left. exact (inv_recorded _ _ _ I x Hx Hin).
      * right. now left.
    + intros x Hx. rewrite count_node_app.
      pose proof (inv_once _ _ _ I x Hx) as Hone.
      destruct (node_eqb x n) eqn:Hxn.
      * apply node_eqb_eq in Hxn; subst x.
        rewrite (count_node_zero n (scheduled c)).
        -- unfold count_node; cbn. rewrite node_eqb_refl. cbn. lia.
        -- intros Hin. apply Hmem. exact (inv_recorded _ _ _ I n Hx Hin).
      * rewrite (count_node_other x n); [lia|].
        intros ->. now rewrite node_eqb_refl in Hxn.
    + intros _. rewrite Hcs, Hca, Hcount, length_app. cbn. lia.
    + discriminate.
    + rewrite Hl, map_app. intros H. apply in_app_iff. left.
      exact (inv_data _ _ _ I H).
    + rewrite Hm. exact (inv_log _ _ _ I).
    + rewrite keeps_user_clarification. exact (inv_answer _ _ _ I).
    + intros nu Hin Hnu. exact (inv_writers _ _ _ I nu (Hhist _ Hw nu Hin Hnu) Hnu).
    + intros nu Hin Hnu. exact (inv_askers _ _ _ I nu (Hhist _ Ha nu Hin Hnu) Hnu).
    + rewrite Hnc, existsb_snoc_false by exact Ha. exact (inv_asked _ _ _ I).
  - (* the turn is marked complete *)
    assert (Hroute : route_from_supervisor
                       (apply_update (state c) (supervisor_node (state c))) = END).
    { unfold route_from_supervisor. rewrite Hna.
      now destruct (8 <? _)%Z. }
    rewrite Hroute.
    constructor; rewrite ?(scheduled_extend c _ _ _ _ _ Hs);
      cbn [state status history pending]; rewrite ?app_nil_r.
    + rewrite Hca. exact (inv_nodup _ _ _ I).
    + rewrite Hca. exact (inv_names _ _ _ I).
    + intros x Hx Hin. rewrite Hca. exact (inv_recorded _ _ _ I x Hx Hin).
    + exact (inv_once _ _ _ I).
    + congruence.
    + intros _. exact Hic.
    + rewrite Hl, map_app. intros H. apply in_app_iff. left.
      exact (inv_data _ _ _ I H).
    + rewrite Hm. exact (inv_log _ _ _ I).
    + rewrite keeps_user_clarification. exact (inv_answer _ _ _ I).
    + intros nu Hin Hnu. exact (inv_writers _ _ _ I nu (Hhist _ Hw nu Hin Hnu) Hnu).
    + intros nu Hin Hnu. exact (inv_askers _ _ _ I nu (Hhist _ Ha nu Hin Hnu) Hnu).
    + rewrite Hnc, existsb_snoc_false by exact Ha. exact (inv_asked _ _ _ I).
Qed.

(** A responder of [once_nodes] that is about to run has not run before. *)
Lemma not_yet_run (c : Config) (n : Node) :
  Inv q a c -> status c = Running n -> In n once_nodes ->
  ~ In n (map fst (history c)).
Proof.
  intros I Hs Hn Hin.
  pose proof (inv_once _ _ _ I n Hn) as Hone.
  rewrite scheduled_pending, Hs, count_node_app in Hone. cbn [pending] in Hone.
  pose proof (count_node_pos _ _ Hin).
  assert (count_node n [n] = 1)
    by (unfold count_node; cbn; now rewrite node_eqb_refl).
  lia.
Qed.

Lemma inv_responder_step (c : Config) (n : Node) :
  Inv q a c -> status c = Running n -> is_responder n = true ->
  Inv q a (step E c).
Proof.
  intros I Hs Hn. unfold step. rewrite Hs.
  assert (Hrunning : status c <> Done) by (rewrite Hs; discriminate).
  destruct (node_fn E n (state c) (trace c)) as [[u|] tr'] eqn:Hrun.
  - destruct (responder_update E n _ _ _ _ Hn Hrun) as [Hp Hother].
    set (st' := apply_update (state c) u).
    set (s' := match edge n st' with Goto m => Running m | END => Done end).
    assert (Hpend : forall x, In x once_nodes -> ~ In x (pending s')).
    { intros x Hx. subst s'.
      destruct (edge_responder n st' Hn) as [->|[->|[-> _]]]; cbn;
        try tauto; intros [<-|[]]; cbn in Hx; intuition discriminate. }
    assert (Hcompleted : completed_agents st' = completed_agents (state c))
      by (subst st'; now apply payload_keeps_completed).
    assert (Hsql : n <> sql_agent ->
                   leads_data st' = leads_data (state c) /\
                   needs_clarification st' = needs_clarification (state c) /\
                   writes_leads_data u = false /\ asks_clarification u = false).
    { intros Hne. destruct (Hother Hne) as [Hw Hc]. subst st'.
      rewrite keeps_leads_data, keeps_needs_clarification by assumption.
      auto using asks_needs_entry. }
    constructor; rewrite ?(scheduled_extend c _ _ _ _ _ Hs);
      cbn [state status history]; fold st'; fold s'.
    + rewrite Hcompleted. exact (inv_nodup _ _ _ I).
    + rewrite Hcompleted. exact (inv_names _ _ _ I).
    + intros x Hx Hin. rewrite Hcompleted.
      apply in_app_iff in Hin as [Hin|Hin].
      * exact (inv_recorded _ _ _ I x Hx Hin).
      * exfalso. exact (Hpend x Hx Hin).
    + intros x Hx. rewrite count_node_app, (count_node_zero x (pending s')).
      * rewrite Nat.add_0_r. exact (inv_once _ _ _ I x Hx).
      * exact (Hpend x Hx).
    + intros _. rewrite Hcompleted. subst st'.
      rewrite payload_keeps_step by exact Hp. exact (inv_counter _ _ _ I Hrunning).
    + intros Hdone. subst s'.
      destruct (edge_responder n st' Hn) as [He|[He|[He ->]]];
        rewrite He in Hdone; try discriminate.
      cbn [node_fn] in Hrun.
      destruct (email_writer_update _ _ _ _ _ Hrun) as (text & d & ->).
      subst st'. now destruct (state c).
    + intros H. rewrite map_app. apply in_app_iff.
      destruct (node_eqb n sql_agent) eqn:Hn_sql.
      * apply node_eqb_eq in Hn_sql. subst n. right. now left.
      * left. apply (inv_data _ _ _ I).
        destruct Hsql as [Hld _]; [|now rewrite <- Hld].
        intros ->. discriminate.
    + destruct (messages_grow (state c) u) as [more Hmore].
      destruct (inv_log _ _ _ I) as [rest Hrest].
      subst st'. rewrite Hmore, Hrest. now exists (rest ++ more)%list.
    + subst st'. rewrite keeps_user_clarification. exact (inv_answer _ _ _ I).
    + intros nu Hin Hnu. apply in_app_iff in Hin as [Hin|[<-|[]]].
      * exact (inv_writers _ _ _ I nu Hin Hnu).
      * cbn [fst]. destruct (node_eqb n sql_agent) eqn:Hn_sql;
          [now apply node_eqb_eq|].
        destruct Hsql as (_ & _ & Hw & _); [intros ->; discriminate|].
        unfold entry_writes in Hnu; cbn [snd] in Hnu. congruence.
    + intros nu Hin Hnu. apply in_app_iff in Hin as [Hin|[<-|[]]].
      * exact (inv_askers _ _ _ I nu Hin Hnu).
      * cbn [fst]. destruct (node_eqb n sql_agent) eqn:Hn_sql;
          [now apply node_eqb_eq|].
        destruct Hsql as (_ & _ & _ & Hc); [intros ->; discriminate|].
        unfold entry_asks in Hnu; cbn [snd] in Hnu. congruence.
    + rewrite existsb_app. cbn [existsb]. unfold entry_asks at 2. cbn [snd].
      rewrite orb_false_r.
      destruct (node_eqb n sql_agent) eqn:Hn_sql.
      * apply node_eqb_eq in Hn_sql. subst n. cbn [node_fn] in Hrun.
        destruct (sql_agent_update _ _ _ _ _ Hrun) as (_ & _ & _ & _ & Hasks).
        subst st'. rewrite Hasks.
        destruct (existsb entry_asks (history c)) eqn:Hex; [|reflexivity].
        exfalso. apply existsb_exists in Hex as (nu & Hin & Hnu).
        apply (not_yet_run c sql_agent I Hs); [cbn; tauto|].
        rewrite <- (inv_askers _ _ _ I nu Hin Hnu). now apply in_map.
      * destruct Hsql as (_ & -> & _ & ->); [intros ->; discriminate|].
        rewrite orb_false_r. exact (inv_asked _ _ _ I).
  - assert (Hsched : scheduled {| status := Failed n; state := state c;
                                  trace := tr'; history := history c |}
                     = scheduled c)
      by (rewrite !scheduled_pending; cbn; now rewrite Hs).
    constructor; rewrite ?Hsched; cbn [state status history];
      try apply I; try discriminate.
    intros _. exact (inv_counter _ _ _ I Hrunning).
Qed.

Lemma inv_step (c : Config) : Inv q a c -> Inv q a (step E c).
Proof.
  intros I. destruct (status c) as [n| |n] eqn:Hs.
  - destruct n.
    + now apply inv_supervisor_step.
    + now apply (inv_responder_step c sql_agent).
    + now apply (inv_responder_step c dataviz_agent).
    + now apply (inv_responder_step c segmentation_agent).
    + now apply (inv_responder_step c product_expert).
    + now apply (inv_responder_step c email_writer).
  - unfold step. now rewrite Hs.
  - unfold step. now rewrite Hs.
Qed.

(** Every configuration of a turn satisfies the invariants. *)
Lemma inv_reach (c : Config) :
  Reach E (start (initial_state q a)) c -> Inv q a c.
Proof.
  induction 1 as [|c _ IH]; [apply inv_start|now apply inv_step].
Qed.

Lemma reach_run (fuel : nat) (c0 c : Config) :
  Reach E c0 c -> Reach E c0 (run E fuel c).
Proof.
  revert c; induction fuel as [|fuel IH]; intros c H; cbn; [exact H|].
  destruct (status c); auto. apply IH. now constructor.
Qed.

End Preservation.

(* ===================================================================== *)
(** ** Every turn halts *)
(* ===================================================================== *)

Section Termination.

Variable E : Env.
Variable q : string.
Variable a : option string.

Lemma measure_step (c : Config) (n : Node) :
  Inv q a c -> status c = Running n -> measure (step E c) < measure c.
Proof.
  intros I Hs.
  pose proof (inv_step E q a c I) as I'.
  pose proof (completed_bound _ (inv_nodup _ _ _ I') (inv_names _ _ _ I')) as Hlen'.
  unfold measure at 2. rewrite Hs.
  destruct (is_responder n) eqn:Hn.
  - (* a responder: the completed agents stay, the edge leads to a lighter node *)
    revert I' Hlen'. unfold step, measure. rewrite Hs.
    destruct (node_fn E n (state c) (trace c)) as [[u|] tr'] eqn:Hrun;
      cbn [status state]; intros I' Hlen'; [|destruct n; cbn; lia].
    destruct (responder_update E n _ _ _ _ Hn Hrun) as [Hp _].
    rewrite (payload_keeps_completed _ _ Hp).
    destruct n; try discriminate; cbn [edge weight]; try lia.
    unfold route_after_sql. split_ifs; cbn [weight]; lia.
  - destruct n; try discriminate.
    revert I' Hlen'. rewrite (step_supervisor E c Hs). cbv zeta.
    pose proof (supervisor_decision (state c)) as D; cbv zeta in D.
    destruct D as (_ & _ & _ & _ & _ & _ & D).
    unfold measure. cbn [status state weight]. intros I' Hlen'.
    destruct D as [(m & Hm & _ & Hca & _ & _) | (Hca & Hna & _)].
    + rewrite Hca, length_app in *. cbn [List.length] in *.
      destruct (route_from_supervisor _) as [k|]; [|lia].
      assert (weight k <= 3) by (destruct k; cbn; lia). lia.
    + unfold route_from_supervisor. rewrite Hna.
      destruct (8 <? _)%Z;
        [|change (routing_get "COMPLETE" routing) with END]; cbv beta iota; lia.
Qed.

Lemma run_halts (fuel : nat) (c : Config) :
  Inv q a c -> measure c <= fuel ->
  forall n, status (run E fuel c) <> Running n.
Proof.
  revert c; induction fuel as [|fuel IH]; intros c I Hm n; cbn.
  - unfold measure in Hm. destruct (status c) as [m| |m]; try discriminate.
    destruct m; cbn in Hm; lia.
  - destruct (status c) as [m| |m] eqn:Hs; try (rewrite Hs; discriminate).
    apply IH; [now apply inv_step|].
    pose proof (measure_step c m I Hs). lia.
Qed.

(** A turn halts well within LangGraph's recursion limit: [app.invoke]
    returns at ["__end__"] or passes on the exception of a node. *)
Lemma invoke_halts :
  status (run_team_query E q a) = Done \/
  exists n, status (run_team_query E q a) = Failed n.
Proof.
  assert (Hfuel : measure (start (initial_state q a)) <= recursion_limit)
    by (cbv; lia).
  pose proof (run_halts recursion_limit (start (initial_state q a))
                (inv_start q a) Hfuel) as H.
  unfold run_team_query, invoke.
  destruct (status (run E recursion_limit (start (initial_state q a))))
    as [n| |n] eqn:Hs; [|now left|right; now exists n].
  exfalso. now apply (H n).
Qed.

Lemma reach_final : Reach E (start (initial_state q a)) (run_team_query E q a).
Proof. apply reach_run. constructor. Qed.

End Termination.

(* ===================================================================== *)
(** ** The first call of the pipeline *)
(* ===================================================================== *)

(** The first thing the pipeline does is the Plan call on its working
    input. *)
Lemma sql_agent_first_call (E : Env) (st : AgentState) (tr : list Event) :
  exists rest,
    snd (sql_agent_node E st tr)
    = (tr ++ LlmInvoke (plan_prompt (working_question st)) :: rest)%list.
Proof.
  sql_agent_cases E st tr.
  all: cbn [snd]; rewrite <- ?app_assoc; cbn [app]; eexists; reflexivity.
Qed.

(* ===================================================================== *)
(** ** After an escalation *)
(* ===================================================================== *)

Section AfterEscalation.

Variable E : Env.

Lemma history_step (c : Config) :
  exists more, history (step E c) = (history c ++ more)%list.
Proof.
  unfold step. destruct (status c); try (exists []; now rewrite app_nil_r).
  destruct (node_fn E n (state c) (trace c)) as [[u|] tr']; cbn.
  - now eexists.
  - exists []. now rewrite app_nil_r.
Qed.

Lemma history_run (fuel : nat) (c : Config) :
  exists more, history (run E fuel c) = (history c ++ more)%list.
Proof.
  revert c; induction fuel as [|fuel IH]; intros c; cbn.
  - exists []. now rewrite app_nil_r.
  - destruct (status c); try (exists []; now rewrite app_nil_r).
    destruct (IH (step E c)) as [more ->].
    destruct (history_step c) as [more' ->].
    exists (more' ++ more)%list. now rewrite app_assoc.
Qed.

(** C5, as the code has it. When the pipeline escalates, the state it
    returns has the turn not complete, a pending clarification with at least
    one option and no data, and control goes back to the supervisor, which
    never dispatches the pipeline again in the turn. *)
Theorem escalation_returns_to_supervisor
    (q : string) (a : option string) (c : Config) (u : Update) (tr' : list Event) :
  Reach E (start (initial_state q a)) c ->
  status c = Running sql_agent ->
  sql_agent_node E (state c) (trace c) = (Ok u, tr') ->
  asks_clarification u = true ->
  is_complete (state (step E c)) = false /\
  needs_clarification (state (step E c)) = true /\
  (exists o os, clarification_options (state (step E c)) = Some (o :: os)) /\
  leads_data (state (step E c)) = None /\
  status (step E c) = Running supervisor /\
  forall fuel, status (run E fuel (step E c)) <> Running sql_agent.
Proof.
  intros Hreach Hs Hrun Hasks.
  pose proof (inv_reach E q a c Hreach) as I.
  assert (Hnone : leads_data (state c) = None).
  { destruct (leads_data (state c)) eqn:Hld; [|reflexivity].
    exfalso. apply (not_yet_run q a c sql_agent I Hs); [cbn; tauto|].
    apply (inv_data _ _ _ I). congruence. }
  destruct (sql_agent_update E _ _ _ _ Hrun) as (_ & _ & Hesc & _).
  destruct (Hesc Hasks) as (Hic & Hnc & Hopts & Hld).
  assert (Hstep : step E c =
                  {| status := Running supervisor;
                     state := apply_update (state c) u;
                     trace := tr';
                     history := history c ++ [(sql_agent, u)] |}).
  { unfold step. rewrite Hs. cbn [node_fn]. rewrite Hrun. cbn [edge].
    unfold route_after_sql. now rewrite Hic, (Hld Hnone). }
  rewrite Hstep. cbn [state status].
  repeat split; auto.
  intros fuel Hagain. rewrite <- Hstep in Hagain.
  assert (Hreach' : Reach E (start (initial_state q a)) (run E fuel (step E c)))
    by (apply reach_run; now constructor).
  apply (not_yet_run q a _ sql_agent (inv_reach E q a _ Hreach') Hagain);
    [cbn; tauto|].
  destruct (history_run fuel (step E c)) as [more ->].
  rewrite Hstep. cbn [history]. rewrite !map_app. cbn.
  apply in_app_iff. left. apply in_app_iff. right. now left.
Qed.

End AfterEscalation.

(* ===================================================================== *)
(** ** Resuming after a clarification: the turn is run again *)
(* ===================================================================== *)

Section Resume.

Variable E : Env.

Lemma apply_entry_with_answer (answer : option string) (st : AgentState) (e : Entry) :
  apply_entry (with_answer answer st) e = with_answer answer (apply_entry st e).
Proof. destruct st, e; reflexivity. Qed.

Lemma apply_update_with_answer (answer : option string) (st : AgentState) (u : Update) :
  apply_update (with_answer answer st) u = with_answer answer (apply_update st u).
Proof.
  revert st; induction u as [|e u IH]; intros st; [reflexivity|].
  rewrite !apply_update_cons, apply_entry_with_answer. apply IH.
Qed.

(** Only the pipeline reads the clarification answer. *)
Lemma node_fn_with_answer (answer : option string) (n : Node) (st : AgentState) :
  n <> sql_agent ->
  node_fn E n (with_answer answer st) = node_fn E n st /\
  forall st', edge n (with_answer answer st') = edge n st'.
Proof. intros Hn. destruct n; try congruence; split; reflexivity. Qed.

Lemma step_with_answer (answer : option string) (c c' : Config) :
  status c <> Running sql_agent ->
  same_but_answer answer c c' ->
  same_but_answer answer (step E c) (step E c').
Proof.
  intros Hs (Hst & Hstate & Htr & Hh). unfold step. rewrite Hst.
  destruct (status c) as [n| |n] eqn:Hn;
    try (unfold same_but_answer; rewrite Hn; auto; fail).
  assert (Hne : n <> sql_agent) by congruence.
  destruct (node_fn_with_answer answer n (state c) Hne) as [Hfn Hedge].
  rewrite Hstate, Htr, Hfn, Hh.
  destruct (node_fn E n (state c) (trace c)) as [[u|] tr'].
  - rewrite apply_update_with_answer, Hedge. repeat split.
  - repeat split.
Qed.

Lemma iterate_with_answer (answer : option string) (k : nat) (c c' : Config) :
  (forall j, j < k -> status (iterate (step E) j c) <> Running sql_agent) ->
  same_but_answer answer c c' ->
  same_but_answer answer (iterate (step E) k c) (iterate (step E) k c').
Proof.
  revert c c'; induction k as [|k IH]; intros c c' Hbefore Hsim; [exact Hsim|].
  cbn [iterate]. apply IH.
  - intros j Hj. exact (Hbefore (S j) ltac:(lia)).
  - apply step_with_answer; [exact (Hbefore 0 ltac:(lia))|exact Hsim].
Qed.

Lemma iterate_add {A : Type} (f : A -> A) (j m : nat) (x : A) :
  iterate f (j + m) x = iterate f m (iterate f j x).
Proof. revert x; induction j as [|j IH]; intros x; [reflexivity|]. cbn. apply IH. Qed.

Lemma reach_iterate (c0 c : Config) (k : nat) :
  Reach E c0 c -> Reach E c0 (iterate (step E) k c).
Proof.
  revert c; induction k as [|k IH]; intros c H; [exact H|].
  cbn [iterate]. apply IH. now constructor.
Qed.

Lemma history_iterate (k : nat) (c : Config) (n : Node) :
  In n (map fst (history c)) -> In n (map fst (history (iterate (step E) k c))).
Proof.
  revert c; induction k as [|k IH]; intros c H; [exact H|].
  cbn [iterate]. apply IH. destruct (history_step E c) as [more ->].
  rewrite map_app. apply in_app_iff. now left.
Qed.

Lemma failed_iterate (k : nat) (c : Config) (n : Node) :
  status c = Failed n -> iterate (step E) k c = c.
Proof.
  intros H. induction k as [|k IH]; [reflexivity|].
  cbn [iterate]. replace (step E c) with c; [exact IH|].
  unfold step. now rewrite H.
Qed.

(** The configurations [run] passes through are the iterates of [step],
    which leaves a halted configuration as it is. *)
Lemma run_iterate (fuel : nat) (c : Config) :
  run E fuel c = iterate (step E) fuel c.
Proof.
  revert c; induction fuel as [|fuel IH]; intros c; [reflexivity|].
  cbn [run iterate]. destruct (status c) as [n| |n] eqn:Hs; [apply IH| |].
  - replace (step E c) with c by (unfold step; now rewrite Hs).
    clear IH. induction fuel as [|fuel IH]; [reflexivity|].
    cbn [iterate]. replace (step E c) with c by (unfold step; now rewrite Hs).
    exact IH.
  - symmetry. replace (step E c) with c by (unfold step; now rewrite Hs).
    now apply (failed_iterate fuel c n).
Qed.

(** The pipeline is about to run at one super-step of a turn at most. *)
Lemma pipeline_first_time (q : string) (a : option string) (k : nat) :
  status (iterate (step E) k (start (initial_state q a))) = Running sql_agent ->
  forall j, j < k ->
            status (iterate (step E) j (start (initial_state q a)))
            <> Running sql_agent.
Proof.
  intros Hk j Hj Hjs.
  set (c0 := start (initial_state q a)) in *.
  set (cj := iterate (step E) j c0) in *.
  assert (Hlater : iterate (step E) k c0 = iterate (step E) (k - j - 1) (step E cj)).
  { replace k with (j + S (k - j - 1)) at 1 by lia.
    rewrite iterate_add. reflexivity. }
  assert (Hreach : Reach E c0 (iterate (step E) k c0))
    by (apply reach_iterate; constructor).
  pose proof (inv_reach E q a _ Hreach) as I.
  rewrite Hlater in Hk, I.
  destruct (node_fn E sql_agent (state cj) (trace cj)) as [[u|] tr'] eqn:Hrun.
  - apply (not_yet_run q a _ sql_agent I Hk); [cbn; tauto|].
    apply history_iterate. unfold step. rewrite Hjs, Hrun. cbn [history].
    rewrite map_app. apply in_app_iff. right. now left.
  - rewrite (failed_iterate _ _ sql_agent) in Hk.
    + unfold step in Hk. rewrite Hjs, Hrun in Hk. discriminate.
    + unfold step. now rewrite Hjs, Hrun.
Qed.

End Resume.

(** C4, as the code has it. A turn resumed with a non-empty clarification
    answer starts from a fresh state: the log holds the original request
    alone, the step counter is 0 and no responder is recorded. Throughout the
    resumed turn the working input of the pipeline is the original request
    followed by the annotation of the answer, and whenever the pipeline runs
    its first call is the Plan call on exactly that text. The pipeline is
    entered again: if it was about to run at some super-step of the
    interrupted turn (whatever answer that turn carried), then the resumed
    turn, in which the collaborators answer as before, has taken the same
    steps with the same calls and the same log up to that super-step, and
    the pipeline is about to run there. *)
Theorem resume_plans_annotated_request
    (E : Env) (q answer : string) (before : option string) :
  answer <> EmptyString ->
  (messages (initial_state q (Some answer)) = [HumanMessage q] /\
   current_step (initial_state q (Some answer)) = 0%Z /\
   completed_agents (initial_state q (Some answer)) = [] /\
   leads_data (initial_state q (Some answer)) = None) /\
  (forall c,
      Reach E (start (initial_state q (Some answer))) c ->
      working_question (state c) = q ++ " (User clarified: " ++ answer ++ ")") /\
  (forall c,
      Reach E (start (initial_state q (Some answer))) c ->
      status c = Running sql_agent ->
      exists rest,
        trace (step E c)
        = (trace c
           ++ LlmInvoke (plan_prompt (q ++ " (User clarified: " ++ answer ++ ")"))
           :: rest)%list) /\
  (forall k,
      status (iterate (step E) k (start (initial_state q before)))
      = Running sql_agent ->
      same_but_answer (Some answer)
        (iterate (step E) k (start (initial_state q before)))
        (iterate (step E) k (start (initial_state q (Some answer)))) /\
      status (iterate (step E) k (start (initial_state q (Some answer))))
      = Running sql_agent).
Proof.
  intros Hanswer.
  assert (Hw : forall c,
             Reach E (start (initial_state q (Some answer))) c ->
             working_question (state c)
             = q ++ " (User clarified: " ++ answer ++ ")").
  { intros c Hreach. pose proof (inv_reach E q (Some answer) c Hreach) as I.
    unfold working_question.
    destruct (inv_log _ _ _ I) as [rest ->]. rewrite (inv_answer _ _ _ I).
    destruct answer; [congruence|reflexivity]. }
  split; [repeat split|]. split; [exact Hw|]. split.
  - intros c Hreach Hs. rewrite <- (Hw c Hreach).
    destruct (sql_agent_first_call E (state c) (trace c)) as [rest Hrest].
    exists rest. rewrite <- Hrest. unfold step. rewrite Hs. cbn [node_fn].
    now destruct (sql_agent_node E (state c) (trace c)) as [[u|] tr'].
  - intros k Hk.
    assert (Hsim : same_but_answer (Some answer)
                     (iterate (step E) k (start (initial_state q before)))
                     (iterate (step E) k (start (initial_state q (Some answer))))).
    { apply iterate_with_answer.
      - now apply pipeline_first_time.
      - repeat split. }
    split; [exact Hsim|]. destruct Hsim as (Hst & _). now rewrite Hst.
Qed.

(* ===================================================================== *)
(** ** The two flags, and the single writer of the data *)
(* ===================================================================== *)

(** C6, as the code has it. In the state the pipeline returns,
    [needs_clarification] and [is_complete] are never both true. A turn
    always halts, at ["__end__"] or on the exception of a node; at
    ["__end__"] [is_complete] is true, and [needs_clarification] is true
    there exactly when the pipeline, and no other node, asked for a
    clarification during the turn. *)
Theorem flags_after_pipeline_and_at_halt :
  (forall E st tr u tr',
      sql_agent_node E st tr = (Ok u, tr') ->
      needs_clarification (apply_update st u) && is_complete (apply_update st u)
      = false) /\
  (forall E q a c,
      Reach E (start (initial_state q a)) c ->
      status c = Done ->
      is_complete (state c) = true /\
      needs_clarification (state c) = existsb entry_asks (history c) /\
      (forall nu, In nu (history c) -> entry_asks nu = true -> fst nu = sql_agent)) /\
  (forall E q a,
      status (run_team_query E q a) = Done \/
      exists n, status (run_team_query E q a) = Failed n).
Proof.
  split; [|split].
  - intros E st tr u tr' Hrun.
    now destruct (sql_agent_update E _ _ _ _ Hrun) as (_ & _ & _ & H & _).
  - intros E q a c Hreach Hdone.
    pose proof (inv_reach E q a c Hreach) as I.
    split; [exact (inv_done _ _ _ I Hdone)|].
    split; [exact (inv_asked _ _ _ I)|exact (inv_askers _ _ _ I)].
  - intros E q a. apply invoke_halts.
Qed.

Lemma writers_counted (h : list (Node * Update)) :
  (forall nu, In nu h -> entry_writes nu = true -> fst nu = sql_agent) ->
  List.length (filter entry_writes h) <= count_node sql_agent (map fst h).
Proof.
  unfold count_node. induction h as [|nu h IH]; cbn [filter map List.length]; [lia|].
  intros H.
  assert (IH' : List.length (filter entry_writes h)
                <= List.length (filter (node_eqb sql_agent) (map fst h)))
    by (apply IH; intros x Hx Hwx; apply H; [now right|exact Hwx]).
  destruct (entry_writes nu) eqn:Hw.
  - rewrite (H nu (or_introl eq_refl) Hw). cbn. lia.
  - destruct (node_eqb sql_agent (fst nu)); cbn [List.length]; lia.
Qed.

Lemma run_at_most_once (E : Env) (q : string) (a : option string) (c : Config) (n : Node) :
  Reach E (start (initial_state q a)) c ->
  In n once_nodes ->
  count_node n (map fst (history c)) <= 1.
Proof.
  intros Hreach Hn.
  pose proof (inv_once _ _ _ (inv_reach E q a c Hreach) n Hn) as H.
  rewrite scheduled_pending, count_node_app in H. lia.
Qed.

(** C8. The supervisor and every responder other than the query pipeline
    return dicts without the key [leads_data], so the state keeps the value
    it had; and in a turn at most one returned dict has the key, a dict of
    the query pipeline, which runs at most once. *)
Theorem leads_data_single_writer :
  (forall st,
      writes_leads_data (supervisor_node st) = false /\
      leads_data (apply_update st (supervisor_node st)) = leads_data st) /\
  (forall E n st tr u tr',
      n <> sql_agent ->
      node_fn E n st tr = (Ok u, tr') ->
      writes_leads_data u = false /\
      leads_data (apply_update st u) = leads_data st) /\
  (forall E q a c,
      Reach E (start (initial_state q a)) c ->
      (forall nu, In nu (history c) -> entry_writes nu = true -> fst nu = sql_agent) /\
      List.length (filter entry_writes (history c)) <= 1 /\
      count_node sql_agent (map fst (history c)) <= 1).
Proof.
  assert (Hsup : forall st,
             writes_leads_data (supervisor_node st) = false /\
             leads_data (apply_update st (supervisor_node st)) = leads_data st).
  { intros st. pose proof (supervisor_decision st) as D; cbv zeta in D.
    destruct D as (_ & Hl & _ & _ & Hw & _). now split. }
  split; [exact Hsup|]. split.
  - intros E n st tr u tr' Hn Hrun.
    destruct (is_responder n) eqn:Hr.
    + destruct (responder_update E n _ _ _ _ Hr Hrun) as [_ H].
      destruct (H Hn) as [Hw _]. split; [exact Hw|now apply keeps_leads_data].
    + destruct n; try discriminate. cbn in Hrun.
      injection Hrun as <- _. apply Hsup.
  - intros E q a c Hreach.
    pose proof (inv_reach E q a c Hreach) as I.
    assert (Hone : count_node sql_agent (map fst (history c)) <= 1)
      by (apply (run_at_most_once E q a c sql_agent Hreach); cbn; tauto).
    split; [exact (inv_writers _ _ _ I)|]. split; [|exact Hone].
    pose proof (writers_counted _ (inv_writers _ _ _ I)). lia.
Qed.

(* ===================================================================== *)
(** ** Dispatching each responder once *)
(* ===================================================================== *)

(** The part of C7 that holds: no identifier is recorded twice, the
    counter equals the number of recorded identifiers while the turn runs,
    and the query pipeline, the Segment Strategist, the Catalog and the
    Content responder each execute at most once in a turn. *)
Theorem recorded_once_and_dispatched_once
    (E : Env) (q : string) (a : option string) (c : Config) :
  Reach E (start (initial_state q a)) c ->
  NoDup (completed_agents (state c)) /\
  (List.length (completed_agents (state c)) <= 5) /\
  (forall n, In n once_nodes -> count_node n (map fst (history c)) <= 1).
Proof.
  intros Hreach. pose proof (inv_reach E q a c Hreach) as I.
  split; [exact (inv_nodup _ _ _ I)|]. split.
  - exact (completed_bound _ (inv_nodup _ _ _ I) (inv_names _ _ _ I)).
  - intros n Hn. now apply (run_at_most_once E q a c n).
Qed.

(** Every turn halts within the recursion limit of the graph. *)
Theorem every_turn_halts (E : Env) (q : string) (a : option string) :
  status (run_team_query E q a) = Done \/
  exists n, status (run_team_query E q a) = Failed n.
Proof. apply invoke_halts. Qed.

(** C7 fails for the Analytics responder. On a request for a chart the
    pipeline hands over to Analytics directly, which records nothing in
    [completed_agents]; the supervisor then finds Analytics not recorded and
    dispatches it again. *)
Theorem analytics_runs_twice :
  status pie_chart_turn = Done /\
  map fst (history pie_chart_turn)
    = [supervisor; sql_agent; dataviz_agent; supervisor; dataviz_agent; supervisor] /\
  count_node dataviz_agent (map fst (history pie_chart_turn)) = 2 /\
  completed_agents (state pie_chart_turn) = ["SQL_AGENT"; "DATAVIZ_AGENT"].
Proof. vm_compute. repeat split; reflexivity. Qed.

(* ===================================================================== *)
(** ** A query that returns no row *)
(* ===================================================================== *)

Lemma first_human_snoc_ai (log : list Message) (text : string) :
  first_human (log ++ [AIMessage text]) = first_human log.
Proof. induction log as [|m log IH]; [reflexivity|]. now destruct m. Qed.

Lemma last_human_snoc_ai (log : list Message) (text : string) :
  last_human (log ++ [AIMessage text]) = last_human log.
Proof. unfold last_human. now rewrite rev_app_distr. Qed.

Lemma last_read_snoc (log : list Message) (text : string) :
  first_human_or_ai (rev (log ++ [AIMessage text])) = text.
Proof. now rewrite rev_app_distr. Qed.

(** The state after the dict of a query that returned no row. *)
Lemma zero_rows_state (st : AgentState) (text plan query : string) (viz : bool) :
  apply_update st
    [ set_messages [AIMessage text];
      set_sql_plan (Some plan);
      set_sql_query (Some query);
      set_leads_data None;
      set_needs_visualization viz;
      set_needs_clarification false;
      set_is_complete false ]
  = {| messages := (messages st ++ [AIMessage text])%list;
       next_agent := next_agent st;
       leads_data := None;
       product_info := product_info st;
       segment_analysis := segment_analysis st;
       email_draft := email_draft st;
       sql_plan := Some plan;
       sql_query := Some query;
       sql_validation_error := sql_validation_error st;
       needs_visualization := viz;
       needs_clarification := false;
       clarification_question := clarification_question st;
       clarification_options := clarification_options st;
       user_clarification := user_clarification st;
       is_complete := false;
       current_step := current_step st;
       completed_agents := completed_agents st |}.
Proof. destruct st; reflexivity. Qed.

(** C10, as the code has it. When the node has executed a query (which
    therefore passed validation) and the store answered with zero rows, the
    dict it returns sets [leads_data] to [None], not to a serialized empty
    list, with [needs_clarification] and [is_complete] both false; control
    goes back to the supervisor, and Analytics run on the state answers "No
    data available" without calling anything. If the state held no data
    before, the supervisor, Analytics, the Segment Strategist and the
    Content responder do on the new state exactly what they do on the state
    before the query. The log, however, holds the pipeline's message, and
    the Catalog responder reads it: its prompt asks for product information
    for the text that ends in "No data found". *)
Theorem zero_rows_leave_no_data
    (E : Env) (st : AgentState) (tr new : list Event) (u : Update) (q : string) :
  sql_agent_node E st tr = (Ok u, (tr ++ new)%list) ->
  In q (executed_queries new) ->
  read_sql E q = inr [] ->
  fst (validate_sql q SCHEMA) = true /\
  In (set_leads_data None) u /\
  leads_data (apply_update st u) = None /\
  needs_clarification (apply_update st u) = false /\
  is_complete (apply_update st u) = false /\
  route_after_sql (apply_update st u) = Goto supervisor /\
  (forall tr2,
      dataviz_agent_node E (apply_update st u) tr2
      = (Ok [set_messages [AIMessage Text.msg_no_data]; set_is_complete true], tr2)) /\
  (leads_data st = None ->
   supervisor_node (apply_update st u) = supervisor_node st /\
   (forall tr2,
       dataviz_agent_node E (apply_update st u) tr2 = dataviz_agent_node E st tr2) /\
   (forall tr2,
       segmentation_agent_node E (apply_update st u) tr2
       = segmentation_agent_node E st tr2) /\
   (forall tr2,
       email_writer_node E (apply_update st u) tr2 = email_writer_node E st tr2)) /\
  exists plan,
    messages (apply_update st u)
    = (messages st ++ [AIMessage (Text.result_no_data plan q)])%list /\
    forall tr2,
      snd (product_expert_node E (apply_update st u) tr2)
      = (tr2 ++
         [LlmInvoke
            [ SystemMessage (Text.PRODUCT_EXPERT_PROMPT Text.product_str);
              HumanMessage ("Provide product information for: "
                            ++ Text.result_no_data plan q) ]])%list.
Proof.
  revert u new.
  sql_agent_cases E st tr; intros u new Hrun Hq Hzero.
  all: try discriminate.
  all: injection Hrun as Hu Htr; subst u.
  all: rewrite <- ?app_assoc in Htr; apply app_inv_head in Htr; subst new.
  all: cbn [executed_queries flat_map app] in Hq; try contradiction.
  all: destruct Hq as [Hq|[]]; subst q.
  all: try congruence.
  all: try (rewrite Hzero in Hexec; injection Hexec as <-; discriminate).
  rewrite Hvalid, !zero_rows_state.
  split; [reflexivity|]. split; [cbn; tauto|].
  split; [reflexivity|]. split; [reflexivity|]. split; [reflexivity|].
  split; [reflexivity|]. split; [intros tr2; reflexivity|]. split.
  - intros Hnone. split.
    + apply supervisor_same_reads; cbn [messages completed_agents current_step
                                         leads_data];
        [apply first_human_snoc_ai|reflexivity|reflexivity|now rewrite Hnone].
    + split; [|split]; intros tr2.
      * unfold dataviz_agent_node. cbn [leads_data messages]. now rewrite Hnone.
      * unfold segmentation_agent_node. cbn [messages].
        now rewrite last_human_snoc_ai.
      * unfold email_writer_node. cbn [leads_data messages product_info].
        now rewrite Hnone, first_human_snoc_ai.
  - eexists. split; [reflexivity|]. intros tr2.
    unfold product_expert_node, bind, invoke_llm, ret. cbn [messages].
    rewrite last_read_snoc.
    match goal with |- context [llm E tr2 ?p] => destruct (llm E tr2 p) end;
      reflexivity.
Qed.

(* ===================================================================== *)
(** ** Concrete turns: where the specification and the code part ways *)
(* ===================================================================== *)


(** C10 fails for the Catalog responder. In a turn that asks for data and
    for an email about the product, over an empty table, the query returns
    no row and [leads_data] stays absent; the Catalog responder, about to
    run, reads the pipeline's "No data found" message, where before the
    query it would have read the request. *)
Lemma catalog_reads_the_empty_result :
  status empty_result_turn_at_catalog = Running product_expert /\
  map fst (history empty_result_turn_at_catalog) = [supervisor; sql_agent; supervisor] /\
  executed_queries (trace empty_result_turn_at_catalog)
  = ["SELECT Segment FROM leadscored;"] /\
  read_sql env_empty "SELECT Segment FROM leadscored;" = inr [] /\
  leads_data (state empty_result_turn_at_catalog) = None /\
  Py.contains "No data found"
    (first_human_or_ai (rev (messages (state empty_result_turn_at_catalog)))) = true /\
  first_human_or_ai
    (rev (messages
            (state (step env_empty
                      (start (initial_state
                                "show customers and write an email about learning labs"
                                None))))))
  = "show customers and write an email about learning labs".
Proof. vm_compute. repeat split; reflexivity. Qed.

(** C4 fails on the log: the turn interrupted by a clarification ends with
    the request and the clarification message in its log, while the resumed
    turn starts from the request alone, and its final log does not start
    with the log of the interrupted turn either. *)
Lemma resumed_turn_starts_afresh :
  needs_clarification (state interrupted_turn) = true /\
  List.length (messages (state interrupted_turn)) = 2 /\
  messages (initial_state "hello" (Some "Let me rephrase")) = [HumanMessage "hello"] /\
  log_preserved (messages (state interrupted_turn))
                (messages (initial_state "hello" (Some "Let me rephrase"))) = false /\
  log_preserved (messages (state interrupted_turn))
                (messages (state resumed_turn)) = false.
Proof. vm_compute. repeat split; reflexivity. Qed.

(** C5 fails on the dispatch: the pipeline asks for a clarification, none is
    supplied, and the supervisor goes on to dispatch the Content
    responder. *)
Lemma responder_dispatched_after_escalation :
  user_clarification (state email_turn) = None /\
  map fst (history email_turn) = [supervisor; sql_agent; supervisor; email_writer] /\
  map (fun nu => asks_clarification (snd nu)) (history email_turn)
    = [false; true; false; false] /\
  quiet_after_clarification (history email_turn) = false.
Proof. vm_compute. repeat split; reflexivity. Qed.

(** C6 fails at the halted state: after an escalation the supervisor marks
    the turn complete, and both flags are true. *)
Lemma halted_with_both_flags :
  status greeting_turn = Done /\
  needs_clarification (state greeting_turn) = true /\
  is_complete (state greeting_turn) = true.
Proof. vm_compute. repeat split; reflexivity. Qed.

(* ===================================================================== *)
(** ** The theorems at concrete inputs *)
(* ===================================================================== *)


(** The pipeline over an empty table. *)
Lemma empty_table_leaves_no_data :
  leads_data
    (apply_update (initial_state "show customers" None)
       (returned (fst (sql_agent_node env_empty (initial_state "show customers" None) []))
                 [])) = None.
Proof.
  destruct (zero_rows_leave_no_data env_empty (initial_state "show customers" None) []
              (snd (sql_agent_node env_empty (initial_state "show customers" None) []))
              (returned (fst (sql_agent_node env_empty
                                (initial_state "show customers" None) [])) [])
              "SELECT Segment FROM leadscored;")
    as (_ & _ & H & _).
  - vm_compute. reflexivity.
  - vm_compute. now left.
  - reflexivity.
  - exact H.
Defined.

(** The ceiling on a state whose counter is 9. *)
Lemma ceiling_at_step_nine :
  route_from_supervisor
    (apply_entry (initial_state "show customers" None) (set_current_step 9)) = END.
Proof.
  apply (proj1 (proj2 (proj2 step_count_increases_and_caps))).
  reflexivity.
Defined.

(** The sanity check on [drift_reply]. *)
Lemma drift_reply_asks_clarification :
  detect_invalid_response (Py.strip drift_reply) = (true, "web_search") /\
  exists u,
    sql_agent_node env_drift (initial_state "show champions" None) []
      = (Ok u, [LlmInvoke (plan_prompt "show champions")]) /\
    needs_clarification (apply_update (initial_state "show champions" None) u) = true /\
    clarification_options (apply_update (initial_state "show champions" None) u)
      = Some ["Show segment distribution"; "List top customers"; "Let me rephrase"] /\
    is_complete (apply_update (initial_state "show champions" None) u) = false /\
    sql_query (apply_update (initial_state "show champions" None) u) = None /\
    leads_data (apply_update (initial_state "show champions" None) u) = None.
Proof.
  apply (web_search_plan_asks_clarification
           env_drift (initial_state "show champions" None) [] drift_reply).
  - reflexivity.
  - exists EmptyString, ", Champions are a football club". reflexivity.
Defined.

(** The working input at the end of [resumed_turn]. *)
Lemma resumed_turn_plans_annotated_request :
  working_question (state resumed_turn) = "hello (User clarified: Let me rephrase)".
Proof.
  apply (proj1 (proj2 (resume_plans_annotated_request
                         env_resume "hello" "Let me rephrase" None
                         ltac:(discriminate)))).
  apply reach_final.
Defined.

(** The escalation of [email_turn]. *)
Lemma email_turn_returns_to_supervisor :
  is_complete (state (step env_drift email_turn_at_pipeline)) = false /\
  needs_clarification (state (step env_drift email_turn_at_pipeline)) = true /\
  status (step env_drift email_turn_at_pipeline) = Running supervisor.
Proof.
  destruct (escalation_returns_to_supervisor env_drift
              "show customers and write an email" None email_turn_at_pipeline
              (returned (fst (sql_agent_node env_drift (state email_turn_at_pipeline)
                                (trace email_turn_at_pipeline))) [])
              (snd (sql_agent_node env_drift (state email_turn_at_pipeline)
                      (trace email_turn_at_pipeline))))
    as (H1 & H2 & _ & _ & H3 & _).
  - apply reach_step. apply reach_start.
  - reflexivity.
  - vm_compute. reflexivity.
  - vm_compute. reflexivity.
  - exact (conj H1 (conj H2 H3)).
Defined.

(** The flags at the end of [greeting_turn]. *)
Lemma greeting_turn_halts_complete :
  is_complete (state greeting_turn) = true /\
  needs_clarification (state greeting_turn) = existsb entry_asks (history greeting_turn).
Proof.
  destruct (proj1 (proj2 flags_after_pipeline_and_at_halt)
              env_drift "hello" None greeting_turn) as (H1 & H2 & _).
  - apply reach_final.
  - vm_compute. reflexivity.
  - exact (conj H1 H2).
Defined.

(** The writes of [leads_data] in [pie_chart_turn]. *)
Lemma pie_chart_turn_writes_once :
  List.length (filter entry_writes (history pie_chart_turn)) <= 1.
Proof.
  destruct (proj2 (proj2 leads_data_single_writer)
              env_rows "Show me segment distribution with a pie chart" None
              pie_chart_turn) as (_ & H & _).
  - apply reach_final.
  - exact H.
Defined.

(** The identifiers recorded in [pie_chart_turn]. *)
Lemma pie_chart_turn_records_once :
  NoDup (completed_agents (state pie_chart_turn)).
Proof.
  destruct (recorded_once_and_dispatched_once
              env_rows "Show me segment distribution with a pie chart" None
              pie_chart_turn) as (H & _).
  - apply reach_final.
  - exact H.
Defined.

(** A second user message appended to the log of a request for data. *)
Lemma later_message_does_not_reroute :
  supervisor_node
    (apply_entry (initial_state "show top customers" None)
                 (set_messages [HumanMessage "write an email about learning labs"]))
  = supervisor_node (initial_state "show top customers" None).
Proof.
  apply (proj1 supervisor_routing_inputs); reflexivity.
Defined.


(* ===================================================================== *)
(** ** The sanity check and the Validate stage, whatever the case *)
(* ===================================================================== *)

Section CaseAndClassification.

Lemma lower_upper_char (c : ascii) :
  Py.lower_char (Py.upper_char c) = Py.lower_char c.
Proof. destruct c as [[] [] [] [] [] [] [] []]; reflexivity. Qed.

Lemma upper_lower_char (c : ascii) :
  Py.upper_char (Py.lower_char c) = Py.upper_char c.
Proof. destruct c as [[] [] [] [] [] [] [] []]; reflexivity. Qed.

Lemma upper_of_lower (s : string) : Py.upper (Py.lower s) = Py.upper s.
Proof.
  unfold Py.upper, Py.lower. induction s as [|c s IH]; cbn [Py.map_str];
    [reflexivity|]. now rewrite IH, upper_lower_char.
Qed.

Lemma lower_of_upper (s : string) : Py.lower (Py.upper s) = Py.lower s.
Proof.
  unfold Py.upper, Py.lower. induction s as [|c s IH]; cbn [Py.map_str];
    [reflexivity|]. now rewrite IH, lower_upper_char.
Qed.

Lemma length_map_str (f : ascii -> ascii) (s : string) :
  String.length (Py.map_str f s) = String.length s.
Proof. induction s; cbn; congruence. Qed.

Lemma same_lower_same_upper (s1 s2 : string) :
  Py.lower s1 = Py.lower s2 -> Py.upper s1 = Py.upper s2.
Proof. intros H. now rewrite <- (upper_of_lower s1), H, upper_of_lower. Qed.

Lemma lower_char_continuation (c : ascii) :
  Py.is_continuation (Py.lower_char c) = Py.is_continuation c.
Proof. destruct c as [[] [] [] [] [] [] [] []]; reflexivity. Qed.

Lemma len_lower (s : string) : Py.len (Py.lower s) = Py.len s.
Proof.
  unfold Py.lower. induction s as [|c s IH]; [reflexivity|].
  cbn [Py.map_str Py.len]. now rewrite lower_char_continuation, IH.
Qed.

Lemma same_lower_same_len (s1 s2 : string) :
  Py.lower s1 = Py.lower s2 -> Py.len s1 = Py.len s2.
Proof. intros H. now rewrite <- (len_lower s1), H, len_lower. Qed.

(** Two ASCII texts that differ only in the case of their letters are
    classified alike by the sanity check and decided alike, with the same
    message, by the Validate stage. (Beyond ASCII Python's [upper] is not a
    function of [lower], and the statement is only made of ASCII text.) *)
Theorem checks_ignore_case (s1 s2 : string) :
  Py.is_ascii s1 = true -> Py.is_ascii s2 = true ->
  Py.lower s1 = Py.lower s2 ->
  detect_invalid_response s1 = detect_invalid_response s2 /\
  validate_sql s1 SCHEMA = validate_sql s2 SCHEMA.
Proof.
  intros _ _ H.
  pose proof (same_lower_same_upper _ _ H) as Hu.
  pose proof (same_lower_same_len _ _ H) as Hl.
  unfold detect_invalid_response, validate_sql.
  now rewrite H, Hu, Hl.
Qed.

Lemma any_in_iff (kws : list string) (s : string) :
  Py.any_in kws s = true <-> exists kw, In kw kws /\ Occurs kw s.
Proof.
  unfold Py.any_in. rewrite existsb_exists.
  split; intros (kw & Hin & H); exists kw; split; auto; now apply contains_iff.
Qed.

Lemma any_in_false_iff (kws : list string) (s : string) :
  Py.any_in kws s = false <-> forall kw, In kw kws -> ~ Occurs kw s.
Proof.
  split.
  - intros H kw Hin Hocc.
    assert (Py.any_in kws s = true) by (apply any_in_iff; eauto). congruence.
  - intros H. destruct (Py.any_in kws s) eqn:Hany; [|reflexivity].
    apply any_in_iff in Hany as (kw & Hin & Hocc). now destruct (H kw Hin).
Qed.

End CaseAndClassification.

(* ===================================================================== *)
(** ** The query text taken from a reply *)
(* ===================================================================== *)

Section Extraction.

Lemma take_app_length (a b : string) : take (String.length a) (a ++ b) = a.
Proof. induction a; cbn; congruence. Qed.

Lemma leading_spaces_app (blanks rest : string) (c : ascii) :
  all_spaces blanks = true -> Py.is_space c = false ->
  leading_spaces (blanks ++ String c rest) = String.length blanks.
Proof.
  intros Hb Hc. induction blanks as [|x blanks IH]; cbn.
  - now rewrite Hc.
  - cbn in Hb. apply andb_true_iff in Hb as [Hx Hb]. rewrite Hx. now rewrite IH.
Qed.

Lemma find_char_app (c : ascii) (body rest : string) :
  Py.contains (String c EmptyString) body = false ->
  find_char c (body ++ String c rest) = Some (String.length body).
Proof.
  induction body as [|x body IH]; intros H.
  - cbn. now rewrite Ascii.eqb_refl.
  - rewrite contains_unfold in H. apply orb_false_iff in H as [Hx Hb].
    cbn in Hx. rewrite andb_true_r in Hx. cbn [append find_char].
    rewrite Ascii.eqb_sym, Hx, (IH Hb). reflexivity.
Qed.

Lemma upper_S_not_space (c : ascii) :
  Py.upper_char c = "S"%char -> Py.is_space c = false.
Proof.
  destruct c as [[] [] [] [] [] [] [] []]; vm_compute; intros H;
    try reflexivity; discriminate H.
Qed.

(** A text without the first character of [old] is left alone by
    [replace]. *)
Lemma replace_absent (c : ascii) (old new s : string) :
  Py.contains (String c EmptyString) s = false ->
  Py.replace (String c old) new s = s.
Proof.
  unfold Py.replace. induction s as [|x s IH]; intros H; [reflexivity|].
  rewrite contains_unfold in H. apply orb_false_iff in H as [Hx Hs].
  cbn in Hx. rewrite andb_true_r in Hx.
  cbn [Py.replace_from Py.startswith]. rewrite Hx. cbn [andb].
  now rewrite (IH Hs).
Qed.

Lemma strip_statement (k : ascii) (rest : string) :
  Py.is_space k = false ->
  Py.strip (String k (rest ++ ";")) = String k (rest ++ ";").
Proof.
  intros Hk. unfold Py.strip. cbn [Py.lstrip]. rewrite Hk.
  change (String k (rest ++ ";")) with (String k rest ++ String ";" EmptyString).
  now rewrite rstrip_keeps.
Qed.

(** A reply that opens with a statement [SELECT ... ;] free of code fences
    yields that statement, letter for letter, whatever follows its
    semicolon: only the first statement of a reply reaches the Validate
    stage. The statement is the keyword in ASCII letters of any case, ASCII
    blanks, and then an ASCII character that is not a blank (the pattern's
    [\s] also takes blanks beyond ASCII, of which nothing is said here). *)
Theorem extract_sql_first_statement
    (kw blanks body extra : string) (c : ascii) :
  Py.upper kw = "SELECT" ->
  blanks <> EmptyString ->
  all_spaces blanks = true ->
  Py.is_ascii_char c = true ->
  Py.is_space c = false ->
  Py.contains ";" body = false ->
  Py.contains "`" (kw ++ blanks ++ String c body) = false ->
  extract_sql (kw ++ blanks ++ String c body ++ ";" ++ extra)
  = kw ++ blanks ++ String c body ++ ";".
Proof.
  intros Hkw Hne Hblanks _ Hc Hbody Hfence.
  assert (Hlen : String.length kw = 6).
  { rewrite <- (length_map_str Py.upper_char kw). fold (Py.upper kw).
    now rewrite Hkw. }
  set (stmt := kw ++ blanks ++ String c body ++ ";").
  assert (Hs : kw ++ blanks ++ String c body ++ ";" ++ extra = stmt ++ extra).
  { subst stmt. rewrite ?append_assoc. cbn [append]. now rewrite ?append_assoc. }
  assert (Hmatch : match_select_at (stmt ++ extra) = Some stmt).
  { unfold match_select_at.
    assert (Htake : take 6 (stmt ++ extra) = kw).
    { rewrite <- Hs, <- Hlen. apply take_app_length. }
    rewrite Htake, Hkw. cbn [Py.startswith Ascii.eqb Bool.eqb andb].
    assert (Hdrop : Py.drop 6 (stmt ++ extra)
                    = blanks ++ String c (body ++ String ";" extra)).
    { rewrite <- Hs, <- Hlen. apply drop_app_length. }
    rewrite Hdrop, (leading_spaces_app _ _ _ Hblanks Hc).
    destruct (String.length blanks) as [|k] eqn:Hk;
      [destruct blanks; [congruence|discriminate]|].
    rewrite <- Hk, drop_app_length, (find_char_app _ _ _ Hbody).
    assert (Hn : 6 + String.length blanks + 1 + String.length body + 1
                 = String.length stmt).
    { subst stmt. rewrite !length_append, Hlen. cbn [String.length]. lia. }
    rewrite Hn. now rewrite take_app_length. }
  assert (Hsearch : search_select (stmt ++ extra) = Some stmt)
    by (destruct (stmt ++ extra); cbn [search_select]; now rewrite Hmatch).
  assert (Hstrip : Py.strip stmt = stmt).
  { destruct kw as [|k kw']; [discriminate|].
    assert (Hk : Py.is_space k = false).
    { apply upper_S_not_space. unfold Py.upper in Hkw. cbn in Hkw. congruence. }
    subst stmt.
    replace (String k kw' ++ blanks ++ String c body ++ ";")
      with (String k ((kw' ++ blanks ++ String c body) ++ ";"))
      by (cbn [append]; now rewrite ?append_assoc).
    now apply strip_statement. }
  assert (Hclean : Py.contains "`" stmt = false).
  { apply contains_false_iff. apply contains_false_iff in Hfence.
    intros (pre & post & Hocc). apply Hfence.
    subst stmt. rewrite <- !append_assoc in Hocc.
    (* the backquote is not the final semicolon *)
    assert (Hlast : forall x y : string,
               x ++ ";" = y ++ "`" ++ post -> exists post', x = y ++ "`" ++ post').
    { clear. intros x y; revert x; induction y as [|b y IH]; intros x H.
      - destruct x as [|a x]; [discriminate|]. cbn in H. injection H as -> H.
        now exists x.
      - destruct x as [|a x]; cbn in H.
        + injection H as _ H. destruct y; discriminate.
        + injection H as -> H. destruct (IH _ H) as [post' ->]. now exists post'. }
    rewrite !append_assoc in Hocc.
    replace (kw ++ blanks ++ String c body ++ ";")
      with ((kw ++ blanks ++ String c body) ++ ";") in Hocc
      by (rewrite ?append_assoc; cbn [append]; now rewrite ?append_assoc).
    destruct (Hlast _ _ Hocc) as [post' Hx]. now exists pre, post'. }
  unfold extract_sql. rewrite Hs, Hsearch, Hstrip.
  rewrite !(replace_absent _ _ _ _ Hclean). exact Hstrip.
Qed.

End Extraction.

(* ===================================================================== *)
(** ** The Analytics node *)
(* ===================================================================== *)

(** The Analytics node fails only where the computation on the frame
    raises: on a state without data, on data it cannot parse, on an empty
    frame and on a failing language model it returns a message. It calls
    the model at most once and never the store, and whatever it returns is
    one message that opens with its tag, with the turn marked complete. *)
Theorem analytics_fails_only_on_the_frame
    (E : Env) (st : AgentState) (tr : list Event) :
  (fst (dataviz_agent_node E st tr) = Raised <->
   exists data df,
     leads_data st = Some data /\ Py.truthy_str data = true /\
     parse_records E data = inr df /\ df_empty df = false /\
     chart_report E df (Py.lower (first_human (messages st))) = None) /\
  (exists new,
      snd (dataviz_agent_node E st tr) = (tr ++ new)%list /\
      List.length new <= 1 /\ executed_queries new = []) /\
  (forall u,
      fst (dataviz_agent_node E st tr) = Ok u ->
      exists text,
        u = [set_messages [AIMessage text]; set_is_complete true] /\
        Py.startswith "[Data Viz Agent]" text = true).
Proof.
  dataviz_cases E st tr; cbn [fst snd].
  all: split; [split; [intros H; try discriminate|
                       intros (data' & df' & H1 & H2 & H3 & H4 & H5); try congruence]|].
  all: try (exfalso;
            repeat match goal with
                   | H : Some _ = Some _ |- _ => injection H as H; subst
                   | H : inr _ = inr _ |- _ => injection H as H; subst
                   end; congruence).
  all: try (eexists _, _; repeat split; eauto; fail).
  all: split;
    [ first [ exists []; rewrite app_nil_r; repeat split; cbn; lia
            | eexists [_]; repeat split; cbn; lia ]
    | intros u Hu; try discriminate; injection Hu as <-;
      eexists; split; reflexivity ].
Qed.

(* ===================================================================== *)
(** ** More on what the nodes return *)
(* ===================================================================== *)

Section NodeEffects.

Variable E : Env.

Lemma executed_queries_app (tr new : list Event) :
  executed_queries (tr ++ new) = (executed_queries tr ++ executed_queries new)%list.
Proof. unfold executed_queries. apply flat_map_app. Qed.

Lemma mem_snoc (x y : string) (l : list string) :
  Py.mem x (l ++ [y]) = Py.mem x l || String.eqb x y.
Proof. unfold Py.mem. rewrite existsb_app. cbn. now rewrite orb_false_r. Qed.

Lemma keeps_product_info (st : AgentState) (u : Update) :
  existsb is_product_entry u = false ->
  product_info (apply_update st u) = product_info st.
Proof.
  apply (apply_update_keeps product_info is_product_entry).
  intros [] []; cbn; congruence.
Qed.

(** What the supervisor has checked when it names Analytics or the Content
    responder, and what it leaves alone. *)
Lemma supervisor_guards (st : AgentState) :
  let st' := apply_update st (supervisor_node st) in
  let request_lower := Py.lower (first_human (messages st)) in
  product_info st' = product_info st /\
  (next_agent st' = Some "DATAVIZ_AGENT" ->
   Py.truthy (leads_data st) || negb (needs_sql_of request_lower) = true) /\
  (next_agent st' = Some "EMAIL_WRITER" ->
   needs_product_of request_lower = true ->
   Py.mem "PRODUCT_EXPERT" (completed_agents st) = true).
Proof.
  unfold supervisor_node. cbv zeta. split_ifs.
  all: repeat match goal with
              | H : _ && _ = true |- _ => apply andb_true_iff in H as [? ?]
              end.
  all: destruct st;
    cbn [messages leads_data completed_agents current_step product_info] in *;
    cbn [apply_update fold_left apply_entry next_agent product_info].
  all: (split; [reflexivity|]); split; intros Hnext; try discriminate Hnext.
  - assumption.
  - intros Hp.
    match goal with
    | H1 : needs_product_of _ && needs_email_of _ && negb ?m = false,
      H2 : needs_email_of _ = true |- ?m = true =>
        rewrite Hp, H2 in H1; cbn [andb] in H1; now apply negb_false_iff in H1
    end.
Qed.

(** The pipeline appends one message of its own to the log. *)
Lemma sql_agent_message (st : AgentState) (tr tr' : list Event) (u : Update) :
  sql_agent_node E st tr = (Ok u, tr') ->
  (exists text, messages (apply_update st u) = (messages st ++ [AIMessage text])%list) /\
  product_info (apply_update st u) = product_info st /\
  (needs_visualization (apply_update st u) = needs_visualization st \/
   needs_visualization (apply_update st u)
   = Py.any_in pipeline_viz_words (Py.lower (working_question st))).
Proof.
  revert u tr'.
  sql_agent_cases E st tr; intros u tr' Hrun; try discriminate.
  all: injection Hrun as Hu Htr; subst u.
  all: destruct st; cbn; split; [eexists; reflexivity|]; split; auto.
Qed.

(** What the pipeline does to the trace, and where data comes from when it
    returns some. *)
Lemma sql_agent_store (st : AgentState) (tr : list Event) :
  exists new,
    snd (sql_agent_node E st tr) = (tr ++ new)%list /\
    forallb validated (executed_queries new) = true /\
    List.length (executed_queries new) <= 1 /\
    (fst (sql_agent_node E st tr) = Raised -> executed_queries new = []) /\
    (forall u j,
        fst (sql_agent_node E st tr) = Ok u ->
        leads_data st = None ->
        leads_data (apply_update st u) = Some j ->
        needs_visualization (apply_update st u)
        = Py.any_in pipeline_viz_words (Py.lower (working_question st)) /\
        exists query df,
          In query (executed_queries new) /\ read_sql E query = inr df /\
          df <> [] /\ j = to_json E df).
Proof.
  sql_agent_cases E st tr.
  all: cbn [snd fst]; rewrite <- ?app_assoc; cbn [app].
  all: eexists; split; [reflexivity|].
  all: cbn [executed_queries flat_map app forallb List.length].
  all: unfold validated; rewrite ?Hvalid; cbn [fst andb].
  all: split; [reflexivity|]; split; [lia|]; split; [intros H; try discriminate H; reflexivity|].
  all: intros u j Hu Hnone Hj; try discriminate Hu; injection Hu as Hu; subst u.
  all: destruct st; cbn in *; try congruence.
  split; [reflexivity|].
  exists (extract_sql (Py.strip sql_reply)), df.
  repeat split; auto; [|congruence].
  intros ->. discriminate.
Qed.

(** The other responders call the model, never the store, and append AI
    messages only. *)
Lemma responder_effects (n : Node) (st : AgentState) (tr : list Event) :
  is_responder n = true -> n <> sql_agent ->
  (exists new,
      snd (node_fn E n st tr) = (tr ++ new)%list /\ executed_queries new = []) /\
  (forall u,
      fst (node_fn E n st tr) = Ok u ->
      (exists text, messages (apply_update st u) = (messages st ++ [AIMessage text])%list) /\
      (n <> product_expert -> product_info (apply_update st u) = product_info st) /\
      (n = product_expert -> product_info (apply_update st u) = Some Text.product_str)).
Proof.
  intros Hn Hsql. destruct n; try discriminate; try congruence; cbn [node_fn].
  - dataviz_cases E st tr; cbn [fst snd].
    all: split;
      [ first [ exists []; now rewrite app_nil_r | now eexists [_] ] | ].
    all: intros u Hu; try discriminate; injection Hu as Hu; subst u.
    all: destruct st; cbn; split; [now eexists|split; congruence].
  - unfold segmentation_agent_node, bind, invoke_llm, ret.
    match goal with |- context [llm E tr ?p] => destruct (llm E tr p) end;
      cbn [fst snd]; (split; [now eexists|]); intros u Hu; try discriminate.
    injection Hu as <-. destruct st; cbn.
    split; [now eexists|]. split; congruence.
  - unfold product_expert_node, bind, invoke_llm, ret.
    match goal with |- context [llm E tr ?p] => destruct (llm E tr p) end;
      cbn [fst snd]; (split; [now eexists|]); intros u Hu; try discriminate.
    injection Hu as <-. destruct st; cbn.
    split; [now eexists|]. split; congruence.
  - unfold email_writer_node, bind, invoke_llm, ret.
    match goal with |- context [llm E tr ?p] => destruct (llm E tr p) end;
      cbn [fst snd]; (split; [now eexists|]); intros u Hu; try discriminate.
    injection Hu as <-. destruct st; cbn.
    split; [now eexists|]. split; congruence.
Qed.

End NodeEffects.

(* ===================================================================== *)
(** ** What a turn keeps true of its log, its counter and its store *)
(* ===================================================================== *)

Section TurnFacts.

Variable E : Env.
Variable q : string.
Variable a : option string.

Lemma mem_true_iff (x : string) (l : list string) : Py.mem x l = true <-> In x l.
Proof.
  split.
  - intros H. destruct (in_dec string_dec x l) as [Hin|Hout]; [exact Hin|].
    apply mem_false_iff in Hout. congruence.
  - intros H. destruct (Py.mem x l) eqn:Hm; [reflexivity|].
    apply mem_false_iff in Hm. contradiction.
Qed.

Lemma count_node_self (n : Node) : count_node n [n] = 1.
Proof. unfold count_node. cbn. now rewrite node_eqb_refl. Qed.

Lemma count_node_le_length (n : Node) (l : list Node) :
  count_node n l <= List.length l.
Proof. unfold count_node. apply filter_length_le. Qed.

Lemma pending_short (s : Status) : List.length (pending s) <= 1.
Proof. destruct s; cbn; lia. Qed.

(** What any responder does to the trace. *)
Lemma node_trace (n : Node) (st : AgentState) (tr : list Event) :
  is_responder n = true ->
  exists new,
    snd (node_fn E n st tr) = (tr ++ new)%list /\
    forallb validated (executed_queries new) = true /\
    List.length (executed_queries new) <= count_node sql_agent [n] /\
    (fst (node_fn E n st tr) = Raised -> executed_queries new = []).
Proof.
  intros Hn. destruct (node_eqb n sql_agent) eqn:Hsql.
  - apply node_eqb_eq in Hsql. subst n. cbn [node_fn].
    destruct (sql_agent_store E st tr) as (new & Htr & Hv & Hl & Hr & _).
    exists new. rewrite count_node_self. auto.
  - assert (Hne : n <> sql_agent) by (intros ->; discriminate).
    destruct (responder_effects E n st tr Hn Hne) as [(new & Htr & Hq) _].
    exists new. rewrite Hq. cbn. repeat split; auto. lia.
Qed.

(** What any responder does to the log and to the catalog text. *)
Lemma node_state (n : Node) (st : AgentState) (tr : list Event) (u : Update) :
  is_responder n = true ->
  fst (node_fn E n st tr) = Ok u ->
  (exists text,
      messages (apply_update st u) = (messages st ++ [AIMessage text])%list) /\
  (n <> product_expert -> product_info (apply_update st u) = product_info st) /\
  (n = product_expert -> product_info (apply_update st u) = Some Text.product_str).
Proof.
  intros Hn Hu. destruct (node_eqb n sql_agent) eqn:Hsql.
  - apply node_eqb_eq in Hsql. subst n. cbn [node_fn] in Hu.
    destruct (sql_agent_message E st tr (snd (sql_agent_node E st tr)) u)
      as (Hm & Hp & _).
    { rewrite <- Hu. apply surjective_pairing. }
    split; [exact Hm|]. split; [auto|discriminate].
  - apply (responder_effects E n st tr); auto. intros ->; discriminate.
Qed.

(** Only the pipeline's edge leads to Analytics, and only with data. *)
Lemma edge_to_dataviz (n : Node) (st : AgentState) :
  is_responder n = true -> edge n st = Goto dataviz_agent ->
  n = sql_agent /\ Py.truthy (leads_data st) = true.
Proof.
  destruct n; cbn; try discriminate. intros _. unfold route_after_sql.
  destruct (is_complete st || negb (Py.truthy (leads_data st))) eqn:Hfail;
    [discriminate|].
  intros _. split; [reflexivity|].
  apply orb_false_iff in Hfail as [_ Hfail]. now apply negb_false_iff in Hfail.
Qed.

Lemma first_human_head (rest : list Message) : first_human (HumanMessage q :: rest) = q.
Proof. reflexivity. Qed.

Lemma turn_start : Turn E q a (start (initial_state q a)).
Proof.
  constructor; cbn; try tauto; try discriminate; try lia.
  now exists [].
Qed.

(** A supervisor step of a turn either records a responder that had not been
    recorded and dispatches it, or ends the turn: the step ceiling never
    comes into play. *)
Lemma supervisor_dispatch (c : Config) :
  Inv q a c -> status c = Running supervisor ->
  let st' := apply_update (state c) (supervisor_node (state c)) in
  (exists n,
      is_responder n = true /\
      route_from_supervisor st' = Goto n /\
      Py.mem (agent_name n) (completed_agents (state c)) = false /\
      completed_agents st' = (completed_agents (state c) ++ [agent_name n])%list /\
      next_agent st' = Some (agent_name n)) \/
  (route_from_supervisor st' = END /\
   completed_agents st' = completed_agents (state c)).
Proof.
  intros I Hs. cbv zeta.
  pose proof (supervisor_decision (state c)) as D; cbv zeta in D.
  destruct D as (_ & _ & _ & Hcs & _ & _ & D).
  assert (Hrun : status c <> Done) by (rewrite Hs; discriminate).
  pose proof (inv_counter _ _ _ I Hrun) as Hcount.
  pose proof (completed_bound _ (inv_nodup _ _ _ I) (inv_names _ _ _ I)) as Hlen.
  destruct D as [(n & Hn & Hmem & Hca & Hna & _) | (Hca & Hna & _)].
  - left. exists n. repeat split; auto.
    unfold route_from_supervisor. rewrite Hcs, Hna, Hcount.
    destruct (8 <? Z.of_nat (List.length (completed_agents (state c))) + 1)%Z eqn:H8.
    + apply Z.ltb_lt in H8. lia.
    + now apply routing_get_responder.
  - right. split; [|exact Hca].
    unfold route_from_supervisor. rewrite Hna. now destruct (8 <? _)%Z.
Qed.

Lemma turn_supervisor_step (c : Config) :
  Inv q a c -> Turn E q a c -> status c = Running supervisor ->
  Turn E q a (step E c).
Proof.
  intros I T Hs. rewrite (step_supervisor E c Hs). cbv zeta.
  pose proof (supervisor_decision (state c)) as D; cbv zeta in D.
  destruct D as (Hm & Hl & _ & Hcs & _ & _ & _).
  pose proof (supervisor_guards (state c)) as G; cbv zeta in G.
  destruct G as (Hpi & Gviz & Gmail).
  destruct (turn_log _ _ _ _ T) as (rest & Hrest & Hai).
  rewrite Hrest, first_human_head in Gviz, Gmail.
  set (nu := (supervisor, supervisor_node (state c))).
  assert (Hhist : forall m, m <> supervisor ->
                            In m (map fst (history c ++ [nu])) ->
                            In m (map fst (history c))).
  { intros m Hm' Hin. rewrite map_app in Hin.
    apply in_app_iff in Hin as [Hin|[Heq|[]]]; [exact Hin|].
    cbn in Heq. congruence. }
  assert (Hcount : forall m, m <> supervisor ->
                             count_node m (map fst (history c ++ [nu]))
                             = count_node m (map fst (history c))).
  { intros m Hm'. rewrite map_app, count_node_app. cbn [map fst nu].
    rewrite (count_node_other m supervisor Hm'). lia. }
  assert (Hsup : count_node supervisor (map fst (history c ++ [nu]))
                 = S (count_node supervisor (map fst (history c)))).
  { rewrite map_app, count_node_app. cbn [map fst nu].
    rewrite count_node_self. lia. }
  pose proof (turn_bound _ _ _ _ T) as Hbound.
  pose proof (turn_analytics _ _ _ _ T) as Han.
  destruct (supervisor_dispatch c I Hs) as [(n & Hn & Hroute & Hmem & Hca & Hna)|(Hroute & Hca)];
    rewrite Hroute.
  - constructor; unfold nu; rewrite ?(scheduled_extend c _ _ _ _ _ Hs);
      cbn [state status history trace pending]; fold nu.
    + rewrite Hm. eauto.
    + intros m Hm' Hin. rewrite Hca in Hin. apply in_app_iff.
      apply in_app_iff in Hin as [Hin|[Heq|[]]].
      * left. now apply (turn_dispatched _ _ _ _ T).
      * right. left. now apply agent_name_inj.
    + intros Hin. rewrite Hpi. apply (turn_catalog _ _ _ _ T).
      apply Hhist; [discriminate|exact Hin].
    + intros Heq Hp. injection Heq as ->. rewrite Hca. apply in_app_iff. left.
      apply mem_true_iff. now apply Gmail.
    + intros Hin. apply Hhist in Hin; [|discriminate].
      pose proof (turn_content_last _ _ _ _ T Hin). congruence.
    + rewrite Hcs, (turn_counter _ _ _ _ T), Hsup. lia.
    + rewrite Hcs, Hca, length_app. cbn [List.length]. lia.
    + rewrite count_node_app, Hcount by discriminate. rewrite Hca, mem_snoc.
      destruct (node_eqb n dataviz_agent) eqn:Hnd.
      * apply node_eqb_eq in Hnd. subst n. cbn [agent_name] in Hmem.
        rewrite Hmem in Han |- *. cbn [agent_name]. rewrite String.eqb_refl.
        rewrite count_node_self. cbn [orb]. lia.
      * rewrite (count_node_other dataviz_agent n)
          by (intros <-; now rewrite node_eqb_refl in Hnd).
        destruct (Py.mem "DATAVIZ_AGENT" (completed_agents (state c)));
          cbn [orb]; [lia|].
        destruct (String.eqb "DATAVIZ_AGENT" (agent_name n)); lia.
    + intros Heq Hsql. injection Heq as ->. rewrite Hl.
      specialize (Gviz Hna). rewrite Hsql in Gviz. cbn [negb] in Gviz.
      now rewrite orb_false_r in Gviz.
    + exact (turn_store_valid _ _ _ _ T).
    + rewrite Hcount by discriminate. exact (turn_store_once _ _ _ _ T).
    + rewrite Hl. exact (turn_rows _ _ _ _ T).
  - constructor; unfold nu; rewrite ?(scheduled_extend c _ _ _ _ _ Hs);
      cbn [state status history trace pending]; fold nu; rewrite ?app_nil_r.
    + rewrite Hm. eauto.
    + intros m Hm' Hin. rewrite Hca in Hin. now apply (turn_dispatched _ _ _ _ T).
    + intros Hin. rewrite Hpi. apply (turn_catalog _ _ _ _ T).
      apply Hhist; [discriminate|exact Hin].
    + discriminate.
    + reflexivity.
    + rewrite Hcs, (turn_counter _ _ _ _ T), Hsup. lia.
    + rewrite Hcs, Hca. pose proof (inv_counter _ _ _ I) as Hc.
      rewrite Hc by (rewrite Hs; discriminate). lia.
    + rewrite Hcount, Hca by discriminate. exact Han.
    + discriminate.
    + exact (turn_store_valid _ _ _ _ T).
    + rewrite Hcount by discriminate. exact (turn_store_once _ _ _ _ T).
    + rewrite Hl. exact (turn_rows _ _ _ _ T).
Qed.

Lemma turn_responder_step (c : Config) (n : Node) :
  Inv q a c -> Turn E q a c -> status c = Running n -> is_responder n = true ->
  Turn E q a (step E c).
Proof.
  intros I T Hs Hn. unfold step. rewrite Hs.
  destruct (node_trace n (state c) (trace c) Hn)
    as (new & Htr & Hvalid & Hlen & Hraised).
  pose proof (node_state n (state c) (trace c)) as Hstate.
  pose proof (turn_store_valid _ _ _ _ T) as Hv.
  pose proof (turn_store_once _ _ _ _ T) as Ho.
  assert (Hnot_last : ~ In email_writer (map fst (history c))).
  { intros Hin. pose proof (turn_content_last _ _ _ _ T Hin). congruence. }
  assert (Hsup : n <> supervisor) by (intros ->; discriminate).
  destruct (node_fn E n (state c) (trace c)) as [[u|] tr'] eqn:Hrun;
    cbn [fst snd] in *; subst tr'.
  - destruct (responder_update E n _ _ _ _ Hn Hrun) as [Hp Hother].
    destruct (Hstate u Hn eq_refl) as ((text & Htext) & Hkeep & Hcat).
    clear Hstate.
    set (st' := apply_update (state c) u) in *.
    set (s' := match edge n st' with Goto m => Running m | END => Done end).
    assert (Hcompleted : completed_agents st' = completed_agents (state c))
      by (now apply payload_keeps_completed).
    assert (Hstep : current_step st' = current_step (state c))
      by (now apply payload_keeps_step).
    constructor; rewrite ?(scheduled_extend c _ _ _ _ _ Hs);
      cbn [state status history trace]; fold st'; fold s'.
    + destruct (turn_log _ _ _ _ T) as (rest & Hrest & Hai).
      rewrite Htext, Hrest. exists (rest ++ [AIMessage text])%list.
      split; [reflexivity|]. rewrite forallb_app, Hai. reflexivity.
    + intros m Hm Hin. rewrite Hcompleted in Hin. apply in_app_iff. left.
      now apply (turn_dispatched _ _ _ _ T).
    + rewrite map_app. intros Hin.
      apply in_app_iff in Hin as [Hin|[Heq|[]]].
      * destruct (node_eqb n product_expert) eqn:Hnp.
        -- apply node_eqb_eq in Hnp. now apply Hcat.
        -- rewrite Hkeep; [now apply (turn_catalog _ _ _ _ T)|].
           intros ->. discriminate.
      * cbn in Heq. now apply Hcat.
    + intros Heq. subst s'.
      destruct (edge_responder n st' Hn) as [He|[He|[He _]]];
        rewrite He in Heq; discriminate.
    + rewrite map_app. intros Hin.
      apply in_app_iff in Hin as [Hin|[Heq|[]]]; [contradiction|].
      cbn in Heq. subst n s'. reflexivity.
    + rewrite Hstep, map_app, count_node_app. cbn [map fst].
      rewrite (count_node_other supervisor n) by congruence.
      rewrite (turn_counter _ _ _ _ T). lia.
    + rewrite Hstep, Hcompleted. exact (turn_bound _ _ _ _ T).
    + rewrite count_node_app, map_app, (count_node_app sql_agent), Hcompleted.
      cbn [map fst].
      pose proof (turn_analytics _ _ _ _ T) as Han.
      destruct (node_eqb n sql_agent) eqn:Hsql.
      * apply node_eqb_eq in Hsql. subst n. rewrite count_node_self.
        pose proof (count_node_le_length dataviz_agent (pending s')).
        pose proof (pending_short s'). lia.
      * rewrite (count_node_zero dataviz_agent (pending s')); [lia|].
        subst s'. intros Hin.
        destruct (edge n st') as [m|] eqn:He; cbn in Hin; [|tauto].
        destruct Hin as [->|[]].
        destruct (edge_to_dataviz n st' Hn He) as [-> _]. discriminate.
    + intros Heq _. subst s'.
      destruct (edge n st') as [m|] eqn:He; [|discriminate].
      injection Heq as ->. now destruct (edge_to_dataviz n st' Hn He).
    + rewrite executed_queries_app, forallb_app, Hv, Hvalid. reflexivity.
    + rewrite executed_queries_app, length_app, map_app, count_node_app.
      cbn [map fst]. lia.
    + intros j Hj. destruct (node_eqb n sql_agent) eqn:Hsql.
      * apply node_eqb_eq in Hsql. subst n. cbn [node_fn] in Hrun.
        destruct (sql_agent_store E (state c) (trace c))
          as (new' & Htr' & _ & _ & _ & Hdata).
        rewrite Hrun in Htr', Hdata. cbn [fst snd] in Htr', Hdata.
        apply app_inv_head in Htr'. subst new'.
        assert (Hnone : leads_data (state c) = None).
        { destruct (leads_data (state c)) eqn:Hld; [|reflexivity]. exfalso.
          apply (not_yet_run q a c sql_agent I Hs); [cbn; tauto|].
          apply (inv_data _ _ _ I). congruence. }
        destruct (Hdata u j eq_refl Hnone Hj)
          as (_ & query & df & Hin & Hread & Hne & Hjson).
        exists query, df. rewrite executed_queries_app, in_app_iff. auto.
      * destruct Hother as [Hw _]; [intros ->; discriminate|].
        subst st'. rewrite keeps_leads_data in Hj by exact Hw.
        destruct (turn_rows _ _ _ _ T j Hj) as (query & df & Hin & Hrest).
        exists query, df. rewrite executed_queries_app, in_app_iff. auto.
  - assert (Hsched : scheduled {| status := Failed n; state := state c;
                                  trace := (trace c ++ new)%list;
                                  history := history c |}
                     = scheduled c)
      by (rewrite !scheduled_pending; cbn; now rewrite Hs).
    specialize (Hraised eq_refl).
    constructor; rewrite ?Hsched; cbn [state status history trace];
      rewrite ?executed_queries_app, ?Hraised, ?app_nil_r;
      try apply T; try discriminate.
    intros Hin. contradiction.
Qed.

Lemma turn_step (c : Config) : Inv q a c -> Turn E q a c -> Turn E q a (step E c).
Proof.
  intros I T. destruct (status c) as [n| |n] eqn:Hs.
  - destruct (is_responder n) eqn:Hn.
    + now apply (turn_responder_step c n).
    + destruct n; try discriminate. now apply turn_supervisor_step.
  - unfold step. now rewrite Hs.
  - unfold step. now rewrite Hs.
Qed.

(** Every configuration of a turn satisfies both sets of invariants. *)
Lemma turn_reach (c : Config) :
  Reach E (start (initial_state q a)) c -> Inv q a c /\ Turn E q a c.
Proof.
  induction 1 as [|c _ [I T]]; [split; [apply inv_start|apply turn_start]|].
  split; [now apply inv_step|now apply turn_step].
Qed.

End TurnFacts.

Section TurnConsequences.

Variable E : Env.
Variable q : string.
Variable a : option string.

Lemma first_human_skips_ai (l : list Message) (rest : list Message) :
  forallb is_ai l = true -> first_human (l ++ rest) = first_human rest.
Proof.
  induction l as [|m l IH]; cbn; [reflexivity|].
  intros H. apply andb_true_iff in H as [Hm Hl].
  destruct m; try discriminate. now apply IH.
Qed.

Lemma forallb_rev {A : Type} (P : A -> bool) (l : list A) :
  forallb P (rev l) = forallb P l.
Proof.
  induction l as [|x l IH]; cbn; [reflexivity|].
  rewrite forallb_app, IH. cbn. rewrite andb_true_r. apply andb_comm.
Qed.

(** In a log that holds the request first and AI messages after it, the scan
    from the end finds the same request as the scan from the start. *)
Lemma last_human_log (rest : list Message) :
  forallb is_ai rest = true -> last_human (HumanMessage q :: rest) = q.
Proof.
  intros H. unfold last_human. cbn [rev].
  rewrite first_human_skips_ai by (now rewrite forallb_rev). reflexivity.
Qed.

(** The scan of product_expert.py stops at the last message of such a
    log. *)
Lemma last_message_read (rest : list Message) :
  forallb is_ai rest = true ->
  first_human_or_ai (rev (HumanMessage q :: rest))
  = content (last rest (HumanMessage q)).
Proof.
  intros H. destruct rest as [|m rest] using rev_ind; [reflexivity|].
  rewrite last_last. rewrite app_comm_cons, rev_app_distr. cbn [rev app].
  rewrite forallb_app in H. apply andb_true_iff in H as [_ H]. cbn in H.
  now destruct m.
Qed.

(** Induction over the configurations of a turn, one executed node at a
    time. *)
Lemma reach_invariant (P : Config -> Prop) :
  P (start (initial_state q a)) ->
  (forall c n,
      Reach E (start (initial_state q a)) c -> status c = Running n ->
      P c -> P (step E c)) ->
  forall c, Reach E (start (initial_state q a)) c -> P c.
Proof.
  intros H0 Hstep c Hreach. induction Hreach as [|c Hreach IH]; [exact H0|].
  destruct (status c) as [n| |n] eqn:Hs.
  - now apply (Hstep c n).
  - unfold step. now rewrite Hs.
  - unfold step. now rewrite Hs.
Qed.

(** What a step does to [completed_agents]: a supervisor step may append
    the identifier it names, any other step leaves the list alone. *)
Lemma completed_after_step (c : Config) (n : Node) :
  Inv q a c -> status c = Running n ->
  completed_agents (state (step E c)) = completed_agents (state c) \/
  exists m,
    n = supervisor /\ is_responder m = true /\
    next_agent (apply_update (state c) (supervisor_node (state c)))
    = Some (agent_name m) /\
    completed_agents (state (step E c))
    = (completed_agents (state c) ++ [agent_name m])%list.
Proof.
  intros I Hs. destruct (is_responder n) eqn:Hn.
  - left. unfold step. rewrite Hs.
    destruct (node_fn E n (state c) (trace c)) as [[u|] tr'] eqn:Hrun;
      [|reflexivity].
    destruct (responder_update E n _ _ _ _ Hn Hrun) as [Hp _].
    cbn [state]. now apply payload_keeps_completed.
  - destruct n; try discriminate. rewrite (step_supervisor E c Hs). cbv zeta.
    cbn [state].
    destruct (supervisor_dispatch q a c I Hs)
      as [(m & Hm & _ & _ & Hca & Hna)|(_ & Hca)]; [|now left].
    right. exists m. auto.
Qed.

(** The supervisor names a responder only when the request holds the
    responder's keyword. *)
Lemma supervisor_keyword (st : AgentState) (n : Node) :
  next_agent (apply_update st (supervisor_node st)) = Some (agent_name n) ->
  keyword_of n (Py.lower (first_human (messages st))) = true.
Proof.
  unfold supervisor_node. cbv zeta. split_ifs.
  all: repeat match goal with
              | H : _ && _ = true |- _ => apply andb_true_iff in H as [? ?]
              end.
  all: destruct st; cbn [messages leads_data completed_agents current_step] in *;
    cbn [apply_update fold_left apply_entry next_agent].
  all: intros Hnext; destruct n; try discriminate Hnext; cbn [keyword_of]; auto.
Qed.

Lemma keyed_reach (c : Config) :
  Reach E (start (initial_state q a)) c ->
  forall n, In (agent_name n) (completed_agents (state c)) ->
            keyword_of n (Py.lower q) = true.
Proof.
  revert c.
  apply (reach_invariant
           (fun c => forall n, In (agent_name n) (completed_agents (state c)) ->
                               keyword_of n (Py.lower q) = true)).
  - intros n [].
  - intros c n Hreach Hs IH m Hin.
    destruct (turn_reach E q a c Hreach) as [I T].
    destruct (completed_after_step c n I Hs) as [Heq|(r & -> & Hr & Hna & Heq)];
      rewrite Heq in Hin; [now apply IH|].
    apply in_app_iff in Hin as [Hin|[Hname|[]]]; [now apply IH|].
    apply agent_name_inj in Hname. subst r.
    destruct (turn_log _ _ _ _ T) as (rest & Hrest & _).
    pose proof (supervisor_keyword (state c) m Hna) as Hk.
    now rewrite Hrest in Hk.
Qed.

(** The catalog text is in the state only after the Catalog responder has
    run. *)
Lemma catalog_source (c : Config) :
  Reach E (start (initial_state q a)) c ->
  product_info (state c) <> None -> In product_expert (map fst (history c)).
Proof.
  revert c.
  apply (reach_invariant
           (fun c => product_info (state c) <> None ->
                     In product_expert (map fst (history c)))).
  - cbn. congruence.
  - intros c n Hreach Hs IH Hpi. unfold step in *. rewrite Hs in *.
    destruct (node_fn E n (state c) (trace c)) as [[u|] tr'] eqn:Hrun;
      cbn [state history] in *; [|now apply IH].
    rewrite map_app. apply in_app_iff.
    destruct (node_eqb n product_expert) eqn:Hnp.
    + apply node_eqb_eq in Hnp. subst n. right. now left.
    + left. apply IH.
      assert (Hne : n <> product_expert) by (intros ->; discriminate).
      destruct (is_responder n) eqn:Hn.
      * destruct (node_state E n (state c) (trace c) u Hn) as (_ & Hkeep & _);
          [now rewrite Hrun|].
        now rewrite <- (Hkeep Hne).
      * destruct n; try discriminate. cbn in Hrun. injection Hrun as <- _.
        pose proof (supervisor_guards (state c)) as G. cbv zeta in G.
        destruct G as [G _]. now rewrite <- G.
Qed.

Lemma length_by_node (l : list Node) :
  List.length l
  = count_node supervisor l + count_node sql_agent l + count_node dataviz_agent l
    + count_node segmentation_agent l + count_node product_expert l
    + count_node email_writer l.
Proof.
  unfold count_node. induction l as [|n l IH]; [reflexivity|].
  destruct n; cbn [filter node_eqb List.length]; lia.
Qed.

Lemma count_history_le (c : Config) (n : Node) :
  count_node n (map fst (history c)) <= count_node n (scheduled c).
Proof. rewrite scheduled_pending, count_node_app. lia. Qed.

End TurnConsequences.

Lemma last_cons_default {A : Type} (x d : A) (l : list A) :
  last (x :: l) d = last l x.
Proof.
  revert x d; induction l as [|y l IH]; intros x d; [reflexivity|].
  change (last (x :: y :: l) d) with (last (y :: l) d).
  now rewrite !IH.
Qed.

(** Each turn has one user message. In every configuration of a turn the log
    holds the request first and only AI messages after it; so the scans for
    the first HumanMessage (supervisor, pipeline, Analytics, Content) and
    the scan for the last one (Segment Strategist) find the same request, the
    working input of the pipeline is that of the initial state, and the scan
    of the Catalog responder stops at the last message of the log, which is
    the text of the responder that ran last when one has run. *)
Theorem one_request_per_turn
    (E : Env) (q : string) (a : option string) (c : Config) :
  Reach E (start (initial_state q a)) c ->
  (exists rest,
      messages (state c) = HumanMessage q :: rest /\ forallb is_ai rest = true) /\
  first_human (messages (state c)) = q /\
  last_human (messages (state c)) = q /\
  working_question (state c) = working_question (initial_state q a) /\
  first_human_or_ai (rev (messages (state c)))
  = content (last (messages (state c)) (HumanMessage q)).
Proof.
  intros Hreach. destruct (turn_reach E q a c Hreach) as [I T].
  destruct (turn_log _ _ _ _ T) as (rest & Hrest & Hai).
  split; [now exists rest|]. rewrite Hrest.
  split; [reflexivity|]. split; [now apply last_human_log|]. split.
  - unfold working_question. rewrite Hrest, (inv_answer _ _ _ I). reflexivity.
  - rewrite last_cons_default. now apply last_message_read.
Qed.

(** The Content responder writes for the request of the turn and from the
    catalog text exactly when the request names the product: when it is
    about to run, the request holds the word email, the product text of its
    prompt is the catalog's if the request holds the product name and the
    built-in default otherwise, and the request of its prompt is the user's.
    Once it has run the turn is over. *)
Theorem content_prompt_follows_the_request
    (E : Env) (q : string) (a : option string) (c : Config) :
  Reach E (start (initial_state q a)) c ->
  (status c = Running email_writer ->
   needs_email_of (Py.lower q) = true /\
   product_info (state c)
   = (if needs_product_of (Py.lower q) then Some Text.product_str else None) /\
   exists leads_info,
     snd (email_writer_node E (state c) (trace c))
     = (trace c ++
        [LlmInvoke
           (email_prompt leads_info
              (if needs_product_of (Py.lower q)
               then Text.product_str else Text.default_product_info)
              q)])%list) /\
  (In email_writer (map fst (history c)) -> status c = Done).
Proof.
  intros Hreach. destruct (turn_reach E q a c Hreach) as [I T].
  split; [|exact (turn_content_last _ _ _ _ T)].
  intros Hs.
  assert (Hsched : forall n, In n (scheduled c) ->
                             n = email_writer \/ In n (map fst (history c))).
  { intros n Hin. rewrite scheduled_pending, Hs in Hin.
    apply in_app_iff in Hin as [Hin|[<-|[]]]; auto. }
  assert (Hmail : In email_writer (scheduled c)).
  { rewrite scheduled_pending, Hs. apply in_app_iff. right. now left. }
  assert (Hpi : product_info (state c)
                = if needs_product_of (Py.lower q)
                  then Some Text.product_str else None).
  { destruct (needs_product_of (Py.lower q)) eqn:Hp.
    - apply (turn_catalog _ _ _ _ T).
      pose proof (turn_content_ready _ _ _ _ T Hs Hp) as Hrec.
      destruct (Hsched product_expert) as [Habs|Hin]; [|discriminate|exact Hin].
      now apply (turn_dispatched _ _ _ _ T product_expert).
    - destruct (product_info (state c)) eqn:Hinfo; [|reflexivity]. exfalso.
      assert (Hrun : In product_expert (map fst (history c)))
        by (apply (catalog_source E q a c Hreach); congruence).
      assert (Hrec : In (agent_name product_expert) (completed_agents (state c))).
      { apply (inv_recorded _ _ _ I); [cbn; tauto|].
        rewrite scheduled_pending. apply in_app_iff. now left. }
      pose proof (keyed_reach E q a c Hreach product_expert Hrec) as Hk.
      cbn [keyword_of] in Hk. congruence. }
  split.
  - apply (keyed_reach E q a c Hreach email_writer).
    apply (inv_recorded _ _ _ I); [cbn; tauto|exact Hmail].
  - split; [exact Hpi|].
    destruct (turn_log _ _ _ _ T) as (rest & Hrest & _).
    unfold email_writer_node, bind, invoke_llm, ret, email_prompt.
    rewrite Hpi, Hrest, first_human_head.
    eexists.
    destruct (needs_product_of (Py.lower q));
      match goal with |- context [llm E ?t ?p] => destruct (llm E t p) end;
      reflexivity.
Qed.

(** The counter counts the supervisor's decisions, and the safety ceiling of
    the routing function is never reached in a turn: the supervisor decides
    at most six times, so the counter stays below the threshold of 8;
    Analytics is scheduled at most twice; and the history of a turn holds at
    most twelve node executions, well inside the recursion limit. *)
Theorem step_ceiling_is_never_reached
    (E : Env) (q : string) (a : option string) (c : Config) :
  Reach E (start (initial_state q a)) c ->
  current_step (state c) = Z.of_nat (count_node supervisor (map fst (history c))) /\
  (current_step (state c) <= 6)%Z /\
  (8 <? current_step (state c))%Z = false /\
  count_node dataviz_agent (scheduled c) <= 2 /\
  List.length (history c) <= 12.
Proof.
  intros Hreach. destruct (turn_reach E q a c Hreach) as [I T].
  pose proof (completed_bound _ (inv_nodup _ _ _ I) (inv_names _ _ _ I)) as Hlen.
  pose proof (turn_bound _ _ _ _ T) as Hbound.
  pose proof (turn_counter _ _ _ _ T) as Hcount.
  pose proof (turn_analytics _ _ _ _ T) as Han.
  assert (Honce : forall n, In n once_nodes ->
                            count_node n (map fst (history c)) <= 1).
  { intros n Hn. pose proof (inv_once _ _ _ I n Hn).
    pose proof (count_history_le c n). lia. }
  assert (Hviz : count_node dataviz_agent (scheduled c) <= 2).
  { pose proof (Honce sql_agent ltac:(cbn; tauto)).
    destruct (Py.mem "DATAVIZ_AGENT" (completed_agents (state c))); lia. }
  split; [exact Hcount|]. split; [lia|]. split; [apply Z.ltb_ge; lia|].
  split; [exact Hviz|].
  rewrite <- (length_map fst), length_by_node.
  pose proof (Honce sql_agent ltac:(cbn; tauto)).
  pose proof (Honce segmentation_agent ltac:(cbn; tauto)).
  pose proof (Honce product_expert ltac:(cbn; tauto)).
  pose proof (Honce email_writer ltac:(cbn; tauto)).
  pose proof (count_history_le c dataviz_agent).
  lia.
Qed.

(** The store sees at most one query in a turn, and that query has passed
    the Validate stage; data in the state is the JSON text of the rows the
    store returned for that query, and there is at least one row. *)
Theorem store_runs_one_validated_query
    (E : Env) (q : string) (a : option string) (c : Config) :
  Reach E (start (initial_state q a)) c ->
  List.length (executed_queries (trace c)) <= 1 /\
  (forall query, In query (executed_queries (trace c)) ->
                 validate_sql query SCHEMA = (true, EmptyString) /\
                 ~ Forbidden query) /\
  (forall j, leads_data (state c) = Some j ->
             exists query df,
               executed_queries (trace c) = [query] /\
               read_sql E query = inr df /\ df <> [] /\ j = to_json E df).
Proof.
  intros Hreach. destruct (turn_reach E q a c Hreach) as [I T].
  pose proof (turn_store_once _ _ _ _ T) as Honce.
  pose proof (inv_once _ _ _ I sql_agent ltac:(cbn; tauto)) as Hsql.
  pose proof (count_history_le c sql_agent) as Hle.
  assert (Hlen : List.length (executed_queries (trace c)) <= 1) by lia.
  split; [exact Hlen|]. split.
  - intros query Hin.
    pose proof (turn_store_valid _ _ _ _ T) as Hv.
    rewrite forallb_forall in Hv. specialize (Hv query Hin).
    unfold validated in Hv. split.
    + unfold validate_sql in *. split_ifs; cbn in Hv; congruence.
    + intros Hf. apply validate_sql_false_iff in Hf. congruence.
  - intros j Hj.
    destruct (turn_rows _ _ _ _ T j Hj) as (query & df & Hin & Hread & Hne & Hjson).
    exists query, df. repeat split; auto.
    destruct (executed_queries (trace c)) as [|x [|y l]]; cbn in Hlen, Hin;
      [tauto| |lia].
    destruct Hin as [->|[]]. reflexivity.
Qed.

(* ===================================================================== *)
(** ** Why a responder runs *)
(* ===================================================================== *)

Section Dispatch.

Variable E : Env.
Variable q : string.
Variable a : option string.

(** Every word on which the pipeline asks for a chart is also one of the
    supervisor's words for Analytics. *)
Lemma pipeline_words_are_viz_words (s : string) :
  Py.any_in pipeline_viz_words s = true -> needs_viz_of s = true.
Proof.
  intros H. apply any_in_iff in H as (kw & Hin & Hocc).
  apply (any_in_intro kw); [|exact Hocc].
  unfold pipeline_viz_words in Hin. simpl in Hin |- *.
  repeat destruct Hin as [<-|Hin]; auto 20; contradiction.
Qed.

Lemma supervisor_viz (st : AgentState) :
  let st' := apply_update st (supervisor_node st) in
  needs_visualization st' = needs_visualization st \/
  needs_visualization st' = needs_viz_of (Py.lower (first_human (messages st))).
Proof.
  unfold supervisor_node. cbv zeta. split_ifs.
  all: destruct st;
    cbn [messages leads_data completed_agents current_step needs_visualization];
    cbn [apply_update fold_left apply_entry needs_visualization]; auto.
Qed.

Lemma responder_keeps_viz (n : Node) (st : AgentState) (tr tr' : list Event)
    (u : Update) :
  is_responder n = true -> n <> sql_agent ->
  node_fn E n st tr = (Ok u, tr') ->
  needs_visualization (apply_update st u) = needs_visualization st /\
  leads_data (apply_update st u) = leads_data st.
Proof.
  intros Hn Hne Hrun. destruct n; try discriminate; try congruence;
    cbn [node_fn] in Hrun.
  - destruct (dataviz_agent_update _ _ _ _ _ Hrun) as [text ->]. now destruct st.
  - destruct (segmentation_agent_update _ _ _ _ _ Hrun) as (text & an & ->).
    now destruct st.
  - destruct (product_expert_update _ _ _ _ _ Hrun) as (text & ->). now destruct st.
  - destruct (email_writer_update _ _ _ _ _ Hrun) as (text & d & ->).
    now destruct st.
Qed.

(** When the pipeline's edge leads to Analytics the state asks for a chart,
    holds data, and has no record of Analytics. *)
Lemma route_to_dataviz (st : AgentState) :
  route_after_sql st = Goto dataviz_agent ->
  needs_visualization st = true /\
  Py.truthy (leads_data st) = true /\
  Py.mem "DATAVIZ_AGENT" (completed_agents st) = false.
Proof.
  unfold route_after_sql. cbv zeta.
  destruct (is_complete st || negb (Py.truthy (leads_data st))) eqn:Hfail;
    [discriminate|].
  destruct (needs_visualization st
            && negb (Py.mem "DATAVIZ_AGENT" (completed_agents st))) eqn:Hviz;
    [|discriminate].
  intros _. apply orb_false_iff in Hfail as [_ Hdata].
  apply negb_false_iff in Hdata.
  apply andb_true_iff in Hviz as [Hv Hm]. apply negb_true_iff in Hm. auto.
Qed.

Lemma working_question_reach (c : Config) :
  Reach E (start (initial_state q a)) c ->
  working_question (state c) = working_question (initial_state q a).
Proof.
  intros Hreach. destruct (turn_reach E q a c Hreach) as [I T].
  destruct (turn_log _ _ _ _ T) as (rest & Hrest & _).
  unfold working_question. now rewrite Hrest, (inv_answer _ _ _ I).
Qed.

Lemma working_question_plain :
  Py.truthy a = false -> working_question (initial_state q a) = q.
Proof.
  unfold working_question. cbn. destruct a as [[|ch s]|]; cbn; congruence.
Qed.

(** What stands behind a request for a chart and behind a run of
    Analytics: a word of the supervisor's list in the request, or a word of
    the pipeline's list in its working input. *)
Lemma viz_reach (c : Config) :
  Reach E (start (initial_state q a)) c ->
  let V := needs_viz_of (Py.lower q) = true \/
           Py.any_in pipeline_viz_words
             (Py.lower (working_question (initial_state q a))) = true in
  (needs_visualization (state c) = true -> V) /\
  (In dataviz_agent (scheduled c) -> V).
Proof.
  cbv zeta. revert c.
  apply (reach_invariant E q a
           (fun c =>
              (needs_visualization (state c) = true ->
               needs_viz_of (Py.lower q) = true \/
               Py.any_in pipeline_viz_words
                 (Py.lower (working_question (initial_state q a))) = true) /\
              (In dataviz_agent (scheduled c) ->
               needs_viz_of (Py.lower q) = true \/
               Py.any_in pipeline_viz_words
                 (Py.lower (working_question (initial_state q a))) = true))).
  - split; [cbn; discriminate|].
    cbn. intros [H|[]]. discriminate.
  - intros c n Hreach Hs [IHv IHd].
    destruct (turn_reach E q a c Hreach) as [I T].
    destruct (turn_log _ _ _ _ T) as (rest & Hrest & _).
    destruct (is_responder n) eqn:Hn.
    + unfold step. rewrite Hs.
      destruct (node_fn E n (state c) (trace c)) as [[u|] tr'] eqn:Hrun.
      * set (st' := apply_update (state c) u).
        assert (Hv : needs_visualization st' = true ->
                     needs_viz_of (Py.lower q) = true \/
                     Py.any_in pipeline_viz_words
                       (Py.lower (working_question (initial_state q a))) = true).
        { destruct (node_eqb n sql_agent) eqn:Hsql.
          - apply node_eqb_eq in Hsql. subst n. cbn [node_fn] in Hrun.
            destruct (sql_agent_message E _ _ _ _ Hrun) as (_ & _ & [Hk|Hk]);
              fold st' in Hk; rewrite Hk; [exact IHv|].
            rewrite (working_question_reach c Hreach). auto.
          - assert (Hne : n <> sql_agent) by (intros ->; discriminate).
            destruct (responder_keeps_viz n _ _ _ _ Hn Hne Hrun) as [Hk _].
            fold st' in Hk. now rewrite Hk. }
        rewrite (scheduled_extend c _ _ _ _ _ Hs). cbn [state].
        split; [exact Hv|].
        intros Hin. apply in_app_iff in Hin as [Hin|Hin]; [now apply IHd|].
        apply Hv. fold st' in Hin.
        destruct (edge n st') as [m|] eqn:He; cbn in Hin; [|tauto].
        destruct Hin as [->|[]].
        destruct (edge_to_dataviz n st' Hn He) as [-> _]. cbn in He.
        now apply route_to_dataviz.
      * cbn [state]. split; [exact IHv|].
        intros Hin. apply IHd. rewrite scheduled_pending in *.
        cbn [history status] in Hin. now rewrite Hs.
    + destruct n; try discriminate. rewrite (step_supervisor E c Hs). cbv zeta.
      rewrite (scheduled_extend c _ _ _ _ _ Hs). cbn [state].
      pose proof (supervisor_viz (state c)) as Hk. cbv zeta in Hk.
      rewrite Hrest, first_human_head in Hk.
      split.
      * destruct Hk as [Hk|Hk]; rewrite Hk; auto.
      * intros Hin. apply in_app_iff in Hin as [Hin|Hin]; [now apply IHd|].
        left.
        destruct (supervisor_dispatch q a c I Hs)
          as [(m & Hm & Hroute & _ & _ & Hna)|(Hroute & _)];
          rewrite Hroute in Hin; cbn in Hin; [|tauto].
        destruct Hin as [->|[]].
        pose proof (supervisor_keyword (state c) dataviz_agent Hna) as Hkey.
        now rewrite Hrest in Hkey.
Qed.

End Dispatch.

Section DirectRoute.

Variable E : Env.
Variable q : string.
Variable a : option string.

Lemma step_ok (c : Config) (n : Node) (u : Update) (tr' : list Event) :
  status c = Running n -> node_fn E n (state c) (trace c) = (Ok u, tr') ->
  step E c
  = {| status := match edge n (apply_update (state c) u) with
                 | Goto m => Running m
                 | END => Done
                 end;
       state := apply_update (state c) u;
       trace := tr';
       history := history c ++ [(n, u)] |}.
Proof. intros Hs Hrun. unfold step. now rewrite Hs, Hrun. Qed.

Lemma step_raised (c : Config) (n : Node) (tr' : list Event) :
  status c = Running n -> node_fn E n (state c) (trace c) = (Raised, tr') ->
  step E c
  = {| status := Failed n; state := state c; trace := tr'; history := history c |}.
Proof. intros Hs Hrun. unfold step. now rewrite Hs, Hrun. Qed.

(** With the pipeline recorded, data in the state and no record of
    Analytics, a request that holds a word for Analytics makes the
    supervisor name Analytics. *)
Lemma supervisor_picks_dataviz (st : AgentState) :
  Py.mem "SQL_AGENT" (completed_agents st) = true ->
  needs_viz_of (Py.lower (first_human (messages st))) = true ->
  Py.mem "DATAVIZ_AGENT" (completed_agents st) = false ->
  Py.truthy (leads_data st) = true ->
  supervisor_node st
  = [ set_next_agent (Some "DATAVIZ_AGENT");
      set_current_step (current_step st + 1)%Z;
      set_completed_agents (completed_agents st ++ ["DATAVIZ_AGENT"]);
      set_messages [] ].
Proof.
  intros Hsql Hviz Hrec Hdata. unfold supervisor_node. cbv zeta.
  rewrite Hsql, Hviz, Hrec, Hdata. cbn [negb andb orb].
  rewrite andb_false_r. reflexivity.
Qed.

End DirectRoute.

(** A responder runs only for a reason in the request. The Segment
    Strategist, the Catalog and the Content responder are scheduled only
    when the request holds their keyword; Analytics only when the request
    holds one of the supervisor's words for it or the working input of the
    pipeline (the request with the clarification answer) holds one of the
    pipeline's words for a chart. The pipeline is the default and needs no
    keyword. *)
Theorem responders_run_for_their_keywords
    (E : Env) (q : string) (a : option string) (c : Config) :
  Reach E (start (initial_state q a)) c ->
  forall n,
    In n (scheduled c) ->
    keyword_of n (Py.lower q) = true \/
    (n = dataviz_agent /\
     Py.any_in pipeline_viz_words
       (Py.lower (working_question (initial_state q a))) = true).
Proof.
  intros Hreach n Hin. destruct (turn_reach E q a c Hreach) as [I T].
  destruct (node_eqb n dataviz_agent) eqn:Hviz.
  - apply node_eqb_eq in Hviz. subst n.
    destruct (viz_reach E q a c Hreach) as [_ Hd].
    destruct (Hd Hin) as [H|H]; auto.
  - left. destruct n; try reflexivity; try discriminate.
    all: apply (keyed_reach E q a c Hreach);
      apply (inv_recorded _ _ _ I); [cbn; tauto|exact Hin].
Qed.

(** For a request that holds a word for Analytics (which is the case
    whenever no clarification answer is given), whenever the pipeline hands
    over to Analytics directly, Analytics runs a second time: if the pipeline
    is about to run and its edge leads to Analytics, then Analytics has not
    run before and is not recorded, and unless its first run raises, the
    supervisor's next decision dispatches Analytics again, so that it is
    scheduled exactly twice. *)
Theorem direct_route_runs_analytics_twice
    (E : Env) (q : string) (a : option string) (c : Config) :
  Reach E (start (initial_state q a)) c ->
  status c = Running sql_agent ->
  status (step E c) = Running dataviz_agent ->
  needs_viz_of (Py.lower q) = true \/ Py.truthy a = false ->
  count_node dataviz_agent (scheduled c) = 0 /\
  Py.mem "DATAVIZ_AGENT" (completed_agents (state (step E c))) = false /\
  (status (iterate (step E) 2 c) = Failed dataviz_agent \/
   status (iterate (step E) 3 c) = Running dataviz_agent /\
   map fst (history (iterate (step E) 3 c))
   = (map fst (history c) ++ [sql_agent; dataviz_agent; supervisor])%list /\
   count_node dataviz_agent (scheduled (iterate (step E) 3 c)) = 2).
Proof.
  intros Hreach Hs Hs1 Hword. cbn [iterate].
  destruct (turn_reach E q a c Hreach) as [I T].
  assert (Hreach1 : Reach E (start (initial_state q a)) (step E c))
    by (now constructor).
  assert (Hreach2 : Reach E (start (initial_state q a)) (step E (step E c)))
    by (now constructor).
  (* the pipeline's step *)
  destruct (node_fn E sql_agent (state c) (trace c)) as [[u|] tr1] eqn:Hrun;
    [|rewrite (step_raised E c _ _ Hs Hrun) in Hs1; discriminate].
  pose proof (step_ok E c _ _ _ Hs Hrun) as Hc1.
  set (c1 := step E c) in *.
  assert (Hst1 : state c1 = apply_update (state c) u) by (now rewrite Hc1).
  assert (Hh1 : history c1 = (history c ++ [(sql_agent, u)])%list)
    by (now rewrite Hc1).
  assert (Hroute : route_after_sql (state c1) = Goto dataviz_agent).
  { rewrite Hc1 in Hs1 |- *. cbn [status state edge] in *.
    destruct (route_after_sql (apply_update (state c) u)) as [m|];
      [now injection Hs1 as ->|discriminate]. }
  destruct (route_to_dataviz _ Hroute) as (Hnv & Hdata & Hrec).
  destruct (responder_update E sql_agent _ _ _ _ eq_refl Hrun) as [Hp _].
  assert (Hca1 : completed_agents (state c1) = completed_agents (state c))
    by (rewrite Hst1; now apply payload_keeps_completed).
  assert (Hsql : Py.mem "SQL_AGENT" (completed_agents (state c1)) = true).
  { rewrite Hca1. apply mem_true_iff.
    apply (inv_recorded _ _ _ I sql_agent); [cbn; tauto|].
    rewrite scheduled_pending, Hs. apply in_app_iff. right. now left. }
  assert (Hviz : needs_viz_of (Py.lower q) = true).
  { destruct Hword as [Hw|Hw]; [exact Hw|].
    destruct (viz_reach E q a c1 Hreach1) as [Hv _].
    destruct (Hv Hnv) as [H|H]; [exact H|].
    rewrite (working_question_plain q a Hw) in H.
    now apply pipeline_words_are_viz_words. }
  assert (Hzero : count_node dataviz_agent (scheduled c) = 0).
  { pose proof (turn_analytics _ _ _ _ T) as Han.
    rewrite <- Hca1, Hrec in Han.
    rewrite (count_node_zero sql_agent (map fst (history c))) in Han; [lia|].
    apply (not_yet_run q a c sql_agent I Hs). cbn; tauto. }
  split; [exact Hzero|]. split; [exact Hrec|].
  (* the first run of Analytics *)
  destruct (node_fn E dataviz_agent (state c1) (trace c1)) as [[u2|] tr2] eqn:Hrun2;
    [|left; now rewrite (step_raised E c1 _ _ Hs1 Hrun2)].
  right.
  pose proof (step_ok E c1 _ _ _ Hs1 Hrun2) as Hc2. cbn [edge] in Hc2.
  set (c2 := step E c1) in *.
  assert (Hs2 : status c2 = Running supervisor) by (now rewrite Hc2).
  assert (Hst2 : state c2 = apply_update (state c1) u2) by (now rewrite Hc2).
  assert (Hh2 : history c2 = (history c1 ++ [(dataviz_agent, u2)])%list)
    by (now rewrite Hc2).
  destruct (responder_update E dataviz_agent _ _ _ _ eq_refl Hrun2) as [Hp2 _].
  destruct (responder_keeps_viz E dataviz_agent _ _ _ _ eq_refl
              ltac:(discriminate) Hrun2) as [_ Hld2].
  assert (Hca2 : completed_agents (state c2) = completed_agents (state c1))
    by (rewrite Hst2; now apply payload_keeps_completed).
  destruct (turn_reach E q a c2 Hreach2) as [I2 T2].
  destruct (turn_log _ _ _ _ T2) as (rest2 & Hrest2 & _).
  (* the supervisor's decision *)
  assert (Hsup : supervisor_node (state c2)
                 = [ set_next_agent (Some "DATAVIZ_AGENT");
                     set_current_step (current_step (state c2) + 1)%Z;
                     set_completed_agents
                       (completed_agents (state c2) ++ ["DATAVIZ_AGENT"]);
                     set_messages [] ]).
  { apply supervisor_picks_dataviz.
    - now rewrite Hca2.
    - now rewrite Hrest2.
    - now rewrite Hca2.
    - now rewrite Hst2, Hld2. }
  rewrite (step_supervisor E c2 Hs2). cbv zeta.
  destruct (supervisor_dispatch q a c2 I2 Hs2)
    as [(m & Hm & Hroute3 & _ & _ & Hna)|(_ & Hca3)].
  - assert (m = dataviz_agent).
    { apply agent_name_inj. rewrite Hsup in Hna.
      destruct (state c2); cbn in Hna. now injection Hna as <-. }
    subst m. rewrite Hroute3. cbn [status history].
    split; [reflexivity|]. split.
    + rewrite Hh2, Hh1, !map_app, <- !app_assoc. reflexivity.
    + rewrite (scheduled_extend c2 _ _ _ _ _ Hs2).
      rewrite (scheduled_pending c2), Hs2, Hh2, Hh1, !map_app, !count_node_app.
      cbn [map fst pending]. rewrite scheduled_pending, Hs, count_node_app in Hzero.
      rewrite count_node_self, !count_node_other by discriminate. lia.
  - exfalso. rewrite Hsup in Hca3.
    apply (f_equal (@List.length string)) in Hca3.
    destruct (state c2); cbn in Hca3. rewrite length_app in Hca3. cbn in Hca3. lia.
Qed.

(* ===================================================================== *)
(** ** A request without keywords *)
(* ===================================================================== *)

Section Fallback.

Variable E : Env.

Lemma run_running (fuel : nat) (c : Config) (n : Node) :
  status c = Running n -> run E (S fuel) c = run E fuel (step E c).
Proof. intros H. cbn [run]. now rewrite H. Qed.

Lemma run_halted (fuel : nat) (c : Config) :
  (forall n, status c <> Running n) -> run E fuel c = c.
Proof.
  intros H. destruct fuel; cbn [run]; [reflexivity|].
  destruct (status c) as [n| |n] eqn:Hs; try reflexivity. now destruct (H n).
Qed.

(** With none of the keywords in the request the supervisor falls through
    to its default: the pipeline if it is not recorded, the end of the turn
    otherwise. *)
Lemma supervisor_without_keywords (st : AgentState) :
  no_trigger (first_human (messages st)) ->
  supervisor_node st
  = if negb (Py.mem "SQL_AGENT" (completed_agents st))
    then [ set_next_agent (Some "SQL_AGENT");
           set_current_step (current_step st + 1)%Z;
           set_completed_agents (completed_agents st ++ ["SQL_AGENT"]);
           set_needs_visualization false;
           set_messages [] ]
    else [ set_next_agent (Some "COMPLETE");
           set_current_step (current_step st + 1)%Z;
           set_is_complete true;
           set_messages [] ].
Proof.
  intros (H1 & H2 & H3 & H4 & H5). unfold supervisor_node. cbv zeta.
  rewrite H1, H2, H3, H4, H5. reflexivity.
Qed.

End Fallback.

(** A request that holds none of the supervisor's keywords goes to the
    query pipeline all the same. Without a clarification answer the turn is
    supervisor, pipeline, supervisor: it either stops on an exception of the
    pipeline, or ends complete with the pipeline as the only responder
    recorded. *)
Theorem request_without_keywords_runs_the_pipeline
    (E : Env) (q : string) (a : option string) :
  no_trigger q -> Py.truthy a = false ->
  (status (run_team_query E q a) = Failed sql_agent /\
   map fst (history (run_team_query E q a)) = [supervisor]) \/
  (status (run_team_query E q a) = Done /\
   map fst (history (run_team_query E q a)) = [supervisor; sql_agent; supervisor] /\
   completed_agents (state (run_team_query E q a)) = ["SQL_AGENT"] /\
   is_complete (state (run_team_query E q a)) = true).
Proof.
  intros Hq Ha. unfold run_team_query, invoke, recursion_limit.
  set (c0 := start (initial_state q a)).
  assert (Hreach0 : Reach E c0 c0) by constructor.
  (* the supervisor's first decision *)
  rewrite (run_running E _ c0 supervisor eq_refl).
  assert (Hreach1 : Reach E c0 (step E c0)) by (now constructor).
  assert (Hc1 : exists u0 st1,
             step E c0 = mkConfig (Running sql_agent) st1 [] [(supervisor, u0)] /\
             messages st1 = [HumanMessage q] /\
             completed_agents st1 = ["SQL_AGENT"] /\
             needs_visualization st1 = false /\
             user_clarification st1 = a).
  { rewrite (step_supervisor E c0 eq_refl). cbv zeta.
    rewrite (supervisor_without_keywords (state c0) Hq). cbn.
    eexists _, _. split; [reflexivity|]. cbn. auto. }
  destruct Hc1 as (u0 & st1 & Hc1 & Hm1 & Hca1 & Hnv1 & Hua1).
  set (c1 := step E c0) in *.
  assert (Hs1 : status c1 = Running sql_agent) by (now rewrite Hc1).
  assert (Hst1 : state c1 = st1) by (now rewrite Hc1).
  assert (Hh1 : history c1 = [(supervisor, u0)]) by (now rewrite Hc1).
  rewrite (run_running E _ c1 sql_agent Hs1).
  (* the pipeline *)
  destruct (node_fn E sql_agent (state c1) (trace c1)) as [[u|] tr1] eqn:Hrun.
  2:{ left. rewrite (step_raised E c1 _ _ Hs1 Hrun).
      rewrite run_halted by (cbn [status]; discriminate).
      cbn [status history]. now rewrite Hh1. }
  right.
  pose proof (step_ok E c1 _ _ _ Hs1 Hrun) as Hc2.
  assert (Hreach2 : Reach E c0 (step E c1)) by (now constructor).
  set (c2 := step E c1) in *.
  cbn [node_fn] in Hrun.
  destruct (sql_agent_message E _ _ _ _ Hrun) as ((text & Hm2) & _ & Hnv2).
  destruct (responder_update E sql_agent _ _ _ _ eq_refl Hrun) as [Hp _].
  assert (Hst2 : state c2 = apply_update st1 u) by (now rewrite Hc2, Hst1).
  assert (Hh2 : history c2 = [(supervisor, u0); (sql_agent, u)])
    by (now rewrite Hc2, Hh1).
  rewrite Hst1 in Hm2, Hnv2.
  assert (Hca2 : completed_agents (state c2) = ["SQL_AGENT"])
    by (rewrite Hst2, <- Hca1; now apply payload_keeps_completed).
  assert (Hquiet : needs_visualization (state c2) = false).
  { rewrite Hst2. destruct Hnv2 as [->| ->]; [exact Hnv1|].
    replace (working_question st1) with q.
    - destruct (Py.any_in pipeline_viz_words (Py.lower q)) eqn:Hany;
        [|reflexivity].
      apply pipeline_words_are_viz_words in Hany.
      destruct Hq as (_ & Hviz & _). congruence.
    - unfold working_question. rewrite Hm1, Hua1. cbn [first_human].
      destruct a as [[|ch s]|]; cbn in Ha |- *; congruence. }
  assert (Hs2 : status c2 = Running supervisor).
  { rewrite Hc2. cbn [status edge]. unfold route_after_sql. cbv zeta.
    rewrite Hst1, <- Hst2, Hquiet. cbn [andb].
    now destruct (is_complete (state c2) || negb (Py.truthy (leads_data (state c2)))). }
  rewrite (run_running E _ c2 supervisor Hs2).
  (* the supervisor's second decision *)
  rewrite (step_supervisor E c2 Hs2). cbv zeta.
  rewrite supervisor_without_keywords
    by (rewrite Hst2, Hm2, Hm1; exact Hq).
  rewrite Hca2. cbn [Py.mem existsb String.eqb Ascii.eqb Bool.eqb orb negb].
  assert (Hend : route_from_supervisor
                   (apply_update (state c2)
                      [ set_next_agent (Some "COMPLETE");
                        set_current_step (current_step (state c2) + 1)%Z;
                        set_is_complete true;
                        set_messages [] ])
                 = END).
  { unfold route_from_supervisor. destruct (state c2); cbn.
    now destruct (8 <? _)%Z. }
  rewrite Hend, run_halted by (cbn [status]; discriminate).
  cbn [status history state]. rewrite Hh2.
  split; [reflexivity|]. split; [reflexivity|].
  revert Hca2. destruct (state c2); cbn. auto.
Qed.

(* ===================================================================== *)
(** ** The chat front end *)
(* ===================================================================== *)

Section ChartComment.

Lemma search_chart_unfold (s : string) :
  search_chart s
  = match match_chart_at s with
    | Some m => Some m
    | None => match s with
              | EmptyString => None
              | String _ s' => search_chart s'
              end
    end.
Proof. destruct s; reflexivity. Qed.

(** A pattern cannot start in [b] and run over a character it does not
    hold. *)
Lemma startswith_straddle (pat b rest : string) (c : ascii) :
  has_char c pat = false ->
  Py.startswith pat (b ++ String c rest) = true -> Py.startswith pat b = true.
Proof.
  revert b; induction pat as [|p pat IH]; intros b Hc H; [reflexivity|].
  cbn in Hc. apply orb_false_iff in Hc as [Hp Hc].
  destruct b as [|x b]; cbn in H |- *.
  - rewrite Hp in H. discriminate.
  - apply andb_true_iff in H as [Hx H]. rewrite Hx. cbn. now apply IH.
Qed.

Lemma startswith_prefix (p t s : string) :
  Py.startswith (p ++ t) s = true -> Py.startswith p s = true.
Proof.
  revert s; induction p as [|a p IH]; intros s H; [reflexivity|].
  destruct s as [|b s]; cbn in H |- *; [discriminate|].
  apply andb_true_iff in H as [Hab H]. rewrite Hab. cbn. now apply IH.
Qed.

Lemma match_chart_needs_start (s : string) :
  Py.startswith "<!--CHART:" s = false -> match_chart_at s = None.
Proof. intros H. unfold match_chart_at. now rewrite H. Qed.

Lemma search_chart_skip (body rest : string) (c : ascii) :
  has_char c "<!--CHART:" = false ->
  Py.contains "<!--CHART:" body = false ->
  search_chart (body ++ String c rest) = search_chart (String c rest).
Proof.
  intros Hc. induction body as [|x body IH]; intros H; [reflexivity|].
  rewrite contains_unfold in H. apply orb_false_iff in H as [Hx Hb].
  rewrite search_chart_unfold, match_chart_needs_start.
  - cbn [append]. now apply IH.
  - destruct (Py.startswith "<!--CHART:" (String x body ++ String c rest)) eqn:Hs;
      [|reflexivity].
    apply startswith_straddle in Hs; [congruence|exact Hc].
Qed.

Lemma closing_straddle (b : string) :
  b <> EmptyString ->
  Py.startswith "-->" (b ++ "-->") = true -> Py.startswith "-->" b = true.
Proof.
  intros Hb. destruct b as [|x [|y [|z b]]]; [congruence| | |]; cbn.
  - rewrite !andb_false_r. discriminate.
  - rewrite !andb_false_r. discriminate.
  - rewrite !andb_true_r. auto.
Qed.

Lemma find_closing (r : string) :
  Py.contains "-->" r = false ->
  find "-->" (r ++ "-->") = Some (String.length r).
Proof.
  induction r as [|x r IH]; intros H; [reflexivity|].
  rewrite contains_unfold in H. apply orb_false_iff in H as [Hx Hr].
  change (find "-->" (String x r ++ "-->"))
    with (if Py.startswith "-->" (String x r ++ "-->") then Some 0
          else match find "-->" (r ++ "-->") with
               | Some i => Some (S i)
               | None => None
               end).
  destruct (Py.startswith "-->" (String x r ++ "-->")) eqn:Hs.
  - apply closing_straddle in Hs; [congruence|discriminate].
  - now rewrite IH.
Qed.

Lemma replace_from_skips (old new s t : string) :
  Py.replace_from old new (String.length s) (s ++ t) = Py.replace_from old new 0 t.
Proof. induction s as [|x s IH]; [reflexivity|]. cbn. exact IH. Qed.

Lemma replace_from_skips_all (old new s : string) :
  Py.replace_from old new (String.length s) s = EmptyString.
Proof. induction s as [|x s IH]; [reflexivity|]. cbn. exact IH. Qed.

Lemma replace_miss (old new s : string) (c : ascii) :
  Py.startswith old (String c s) = false ->
  Py.replace old new (String c s) = String c (Py.replace old new s).
Proof. intros H. unfold Py.replace. cbn [Py.replace_from]. now rewrite H. Qed.

Lemma startswith_refl (s : string) : Py.startswith s s = true.
Proof. induction s as [|a s IH]; cbn; [reflexivity|]. now rewrite Ascii.eqb_refl. Qed.

Lemma replace_self (a : ascii) (old new : string) :
  Py.replace (String a old) new (String a old) = new.
Proof.
  unfold Py.replace. cbn [Py.replace_from].
  rewrite (startswith_refl (String a old)).
  replace (String.length (String a old) - 1) with (String.length old)
    by (cbn; lia).
  now rewrite replace_from_skips_all, append_nil_r.
Qed.

(** Replacing a text that starts with [pat] leaves alone a part that does
    not hold [pat] and is followed by a character outside [pat]. *)
Lemma replace_keeps_body (pat t new body rest : string) (a c : ascii) :
  has_char c (String a pat) = false ->
  Py.contains (String a pat) body = false ->
  Py.replace (String a pat ++ t) new (body ++ String c rest)
  = body ++ Py.replace (String a pat ++ t) new (String c rest).
Proof.
  intros Hc. unfold Py.replace.
  induction body as [|x body IH]; intros H; [reflexivity|].
  rewrite contains_unfold in H. apply orb_false_iff in H as [Hx Hb].
  cbn [append Py.replace_from].
  change (String x (body ++ String c rest)) with (String x body ++ String c rest).
  change (String a (pat ++ t)) with (String a pat ++ t).
  destruct (Py.startswith (String a pat ++ t) (String x body ++ String c rest))
    eqn:Hs.
  - apply startswith_prefix, startswith_straddle in Hs; [congruence|exact Hc].
  - cbn [append]. f_equal. now apply IH.
Qed.

End ChartComment.

(** The chart data that Analytics embeds in its message comes back whole in
    the front end. For a message text that does not hold the opening mark,
    followed by the comment built from a non-empty JSON text that does not
    hold the closing mark: when [json.loads] accepts the JSON text the front
    end displays the message text alone (with the two line breaks that
    preceded the comment) and reads the chart data from exactly that JSON
    text; when it raises, the content is displayed whole, comment included,
    and there is no chart data. *)
Theorem chart_comment_round_trip
    (json_ok : string -> bool) (body chart_json : string) :
  Py.contains "<!--CHART:" body = false ->
  chart_json <> EmptyString ->
  Py.contains "-->" chart_json = false ->
  render_message json_ok (body ++ chart_comment_of chart_json)
  = if json_ok chart_json
    then (body ++ String "010" (String "010" EmptyString), Some chart_json)
    else (body ++ chart_comment_of chart_json, None).
Proof.
  intros Hbody Hne Hclose.
  set (group0 := "<!--CHART:" ++ chart_json ++ "-->").
  assert (Hmatch : match_chart_at group0 = Some (group0, chart_json)).
  { unfold match_chart_at, group0.
    destruct chart_json as [|c r]; [congruence|].
    rewrite contains_unfold in Hclose. apply orb_false_iff in Hclose as [_ Hr].
    cbn [append Py.startswith Py.drop]. rewrite !Ascii.eqb_refl. cbn [andb].
    rewrite (find_closing r Hr).
    change (String c (r ++ "-->")) with (String c r ++ "-->").
    replace (S (String.length r)) with (String.length (String c r)) by reflexivity.
    now rewrite take_app_length. }
  assert (Hsearch : search_chart (body ++ chart_comment_of chart_json)
                    = Some (group0, chart_json)).
  { change (chart_comment_of chart_json)
      with (String "010" (String "010" group0)).
    rewrite search_chart_skip by (exact Hbody || reflexivity).
    rewrite search_chart_unfold, match_chart_needs_start by reflexivity.
    rewrite search_chart_unfold, match_chart_needs_start by reflexivity.
    rewrite search_chart_unfold. now rewrite Hmatch. }
  unfold render_message. rewrite Hsearch.
  destruct (json_ok chart_json); [|reflexivity].
  f_equal.
  change (chart_comment_of chart_json) with (String "010" (String "010" group0)).
  change group0 with (String "<" "!--CHART:" ++ chart_json ++ "-->").
  rewrite replace_keeps_body by (exact Hbody || reflexivity).
  f_equal. rewrite !replace_miss by reflexivity.
  f_equal. f_equal. apply (replace_self "<").
Qed.

Section Display.

Lemma visible_from_sound (seen contents : list string) (c : string) :
  In c (visible_from seen contents) ->
  In c contents /\ c <> EmptyString /\
  Py.startswith "[Supervisor]" c = false /\ ~ In (Py.take_chars 100 c) seen.
Proof.
  revert seen; induction contents as [|x rest IH]; intros seen Hin; [destruct Hin|].
  cbn [visible_from] in Hin.
  destruct (negb (Py.truthy_str x) || Py.startswith "[Supervisor]" x) eqn:Hskip.
  - destruct (IH seen Hin) as (H1 & H2). split; [now right|exact H2].
  - destruct (Py.mem (Py.take_chars 100 x) seen) eqn:Hseen.
    + destruct (IH seen Hin) as (H1 & H2). split; [now right|exact H2].
    + apply orb_false_iff in Hskip as [Hx Hsup]. apply negb_false_iff in Hx.
      destruct Hin as [<-|Hin].
      * split; [now left|]. split; [now destruct x|].
        split; [exact Hsup|]. now apply mem_false_iff.
      * destruct (IH _ Hin) as (H1 & H2 & H3 & H4).
        split; [now right|]. split; [exact H2|]. split; [exact H3|].
        intros Hs. apply H4. now right.
Qed.

Lemma visible_from_keys (seen contents : list string) :
  NoDup (map (Py.take_chars 100) (visible_from seen contents)).
Proof.
  revert seen; induction contents as [|x rest IH]; intros seen; [constructor|].
  cbn [visible_from].
  destruct (negb (Py.truthy_str x) || Py.startswith "[Supervisor]" x); [apply IH|].
  destruct (Py.mem (Py.take_chars 100 x) seen); [apply IH|].
  cbn [map]. constructor; [|apply IH].
  intros Hin. apply in_map_iff in Hin as (d & Hd & Hin).
  apply visible_from_sound in Hin as (_ & _ & _ & Hnew).
  apply Hnew. now left.
Qed.

Lemma visible_from_complete (seen contents : list string) (c : string) :
  In c contents -> c <> EmptyString -> Py.startswith "[Supervisor]" c = false ->
  In (Py.take_chars 100 c) seen \/
  exists d, In d (visible_from seen contents) /\ Py.take_chars 100 d = Py.take_chars 100 c.
Proof.
  revert seen; induction contents as [|x rest IH]; intros seen Hin Hne Hsup;
    [destruct Hin|].
  cbn [visible_from].
  destruct Hin as [->|Hin].
  - assert (Hx : Py.truthy_str c = true) by (now destruct c).
    rewrite Hx, Hsup. cbn [negb orb].
    destruct (Py.mem (Py.take_chars 100 c) seen) eqn:Hseen.
    + left. now apply mem_true_iff.
    + right. exists c. split; [now left|reflexivity].
  - destruct (negb (Py.truthy_str x) || Py.startswith "[Supervisor]" x);
      [now apply IH|].
    destruct (Py.mem (Py.take_chars 100 x) seen); [now apply IH|].
    destruct (IH (Py.take_chars 100 x :: seen) Hin Hne Hsup) as [[Hk|Hk]|(d & Hd & Hk)].
    + right. exists x. split; [now left|exact Hk].
    + now left.
    + right. exists d. split; [now right|exact Hk].
Qed.

End Display.

(** What the front end displays of a log. No two displayed contents share
    their first 100 characters; every displayed content is a content of the
    log that is not empty and is not a supervisor note; and every such
    content of the log is displayed or agrees on its first 100 characters
    with one that is. *)
Theorem display_shows_each_key_once (contents : list string) :
  NoDup (map (Py.take_chars 100) (visible_from [] contents)) /\
  (forall c, In c (visible_from [] contents) ->
             In c contents /\ c <> EmptyString /\
             Py.startswith "[Supervisor]" c = false) /\
  (forall c, In c contents -> c <> EmptyString ->
             Py.startswith "[Supervisor]" c = false ->
             exists d, In d (visible_from [] contents) /\
                       Py.take_chars 100 d = Py.take_chars 100 c).
Proof.
  split; [apply visible_from_keys|]. split.
  - intros c Hin. apply visible_from_sound in Hin. tauto.
  - intros c Hin Hne Hsup.
    destruct (visible_from_complete [] contents c Hin Hne Hsup) as [[]|H].
    exact H.
Qed.

Section Reply.

Variable E : Env.
Variable q : string.
Variable a : option string.

Lemma visible_from_length (seen contents : list string) :
  List.length (visible_from seen contents) <= List.length contents.
Proof.
  revert seen; induction contents as [|x rest IH]; intros seen; [cbn; lia|].
  cbn [visible_from List.length].
  destruct (negb (Py.truthy_str x) || Py.startswith "[Supervisor]" x);
    [specialize (IH seen); lia|].
  destruct (Py.mem (Py.take_chars 100 x) seen);
    [specialize (IH seen); lia|].
  cbn [List.length]. specialize (IH (Py.take_chars 100 x :: seen)). lia.
Qed.

(** The log holds the request and one message for every responder that has
    returned. *)
Lemma log_length_reach (c : Config) :
  Reach E (start (initial_state q a)) c ->
  List.length (messages (state c))
  = S (List.length (filter is_responder (map fst (history c)))).
Proof.
  revert c.
  apply (reach_invariant E q a
           (fun c => List.length (messages (state c))
                     = S (List.length (filter is_responder (map fst (history c)))))).
  - reflexivity.
  - intros c n Hreach Hs IH. unfold step. rewrite Hs.
    destruct (node_fn E n (state c) (trace c)) as [[u|] tr'] eqn:Hrun;
      cbn [state history]; [|exact IH].
    rewrite map_app, filter_app, length_app. cbn [map fst filter].
    destruct (is_responder n) eqn:Hn.
    + destruct (node_state E n (state c) (trace c) u Hn) as ((text & ->) & _);
        [now rewrite Hrun|].
      rewrite length_app, IH. cbn. lia.
    + destruct n; try discriminate. cbn in Hrun. injection Hrun as <- _.
      pose proof (supervisor_decision (state c)) as D. cbv zeta in D.
      destruct D as (-> & _). rewrite IH. cbn. lia.
Qed.

End Reply.

(** The reply shown for a turn starts with the user's own request. The log
    a turn returns begins with the request, and the front end displays every
    message of the log, so for a request that is not empty and does not
    start with the supervisor's tag the first displayed part is the request,
    and the responders' messages follow, less those that repeat the first
    100 characters of a part before them. The reply has at most one part
    more than there are responders that returned. *)
Theorem response_starts_with_the_request
    (E : Env) (q : string) (a : option string) (c : Config)
    (json_ok : string -> bool) :
  Reach E (start (initial_state q a)) c ->
  q <> EmptyString -> Py.startswith "[Supervisor]" q = false ->
  (exists rest,
      messages (state c) = HumanMessage q :: rest /\
      response_parts json_ok (messages (state c))
      = fst (render_message json_ok q)
        :: map (fun content => fst (render_message json_ok content))
             (visible_from [Py.take_chars 100 q] (map content rest))) /\
  List.length (response_parts json_ok (messages (state c)))
  <= S (List.length (filter is_responder (map fst (history c)))).
Proof.
  intros Hreach Hne Hsup. destruct (turn_reach E q a c Hreach) as [_ T].
  destruct (turn_log _ _ _ _ T) as (rest & Hrest & _).
  split.
  - exists rest. split; [exact Hrest|].
    unfold response_parts. rewrite Hrest. cbn [map content visible_from].
    assert (Hq : Py.truthy_str q = true) by (now destruct q).
    rewrite Hq, Hsup. reflexivity.
  - rewrite <- (log_length_reach E q a c Hreach).
    unfold response_parts. rewrite length_map.
    rewrite <- (length_map content (messages (state c))).
    apply visible_from_length.
Qed.

(* ===================================================================== *)
(** ** The offline scripts *)
(* ===================================================================== *)

Section Cleaning.

Lemma map_fixes {A : Type} (f : A -> A) (l : list A) :
  (forall x, In x l -> f x = x) -> map f l = l.
Proof.
  induction l as [|x l IH]; intros H; [reflexivity|].
  cbn. rewrite (H x) by now left. f_equal. apply IH. intros y Hy. apply H. now right.
Qed.

Lemma filter_none {A : Type} (P : A -> bool) (l : list A) :
  (forall x, In x l -> P x = false) -> filter P l = [].
Proof.
  induction l as [|x l IH]; intros H; [reflexivity|].
  cbn. rewrite (H x) by now left. apply IH. intros y Hy. apply H. now right.
Qed.

Lemma replace_select_map (col : ObjectColumn) :
  replace_select col
  = map (fun cell => if is_select cell then Some "Unknown" else cell) col.
Proof.
  unfold replace_select. destruct (existsb is_select col) eqn:Hany; [reflexivity|].
  symmetry. apply map_fixes. intros cell Hin.
  destruct (is_select cell) eqn:Hsel; [|reflexivity].
  assert (existsb is_select col = true) by (apply existsb_exists; eauto).
  congruence.
Qed.

Lemma fill_unknown_map (col : ObjectColumn) :
  fill_unknown col
  = map (fun cell => match cell with Some _ => cell | None => Some "Unknown" end) col.
Proof.
  unfold fill_unknown. destruct (0 <? List.length (filter isna col)) eqn:Hany;
    [reflexivity|].
  symmetry. apply map_fixes. intros [text|] Hin; [reflexivity|].
  apply Nat.ltb_ge in Hany.
  assert (Hf : In None (filter isna col)) by (apply filter_In; auto).
  destruct (filter isna col); [destruct Hf|cbn in Hany; lia].
Qed.

Lemma clean_column_map (col : ObjectColumn) :
  clean_column col
  = map (fun cell =>
           if is_select cell then Some "Unknown"
           else match cell with Some _ => cell | None => Some "Unknown" end)
        col.
Proof.
  unfold clean_column. rewrite fill_unknown_map, replace_select_map, map_map.
  apply map_ext. intros cell. now destruct (is_select cell).
Qed.

End Cleaning.

(** Steps 9.1 and 9.3 of the cleaning script leave no placeholder and no
    missing cell in a text column, so the validation that follows counts
    zero of each. The column keeps its length; a cell that was a placeholder
    in any letter case or missing reads Unknown, every other cell is
    unchanged; and cleaning a cleaned column changes nothing. *)
Theorem cleaning_leaves_no_placeholder (col : ObjectColumn) :
  remaining_select (clean_column col) = 0 /\
  remaining_missing (clean_column col) = 0 /\
  List.length (clean_column col) = List.length col /\
  (forall i cell,
      nth_error col i = Some cell ->
      nth_error (clean_column col) i
      = Some (if is_select cell || isna cell then Some "Unknown" else cell)) /\
  clean_column (clean_column col) = clean_column col.
Proof.
  assert (Hclean : forall cell,
             In cell (clean_column col) -> is_select cell = false /\ isna cell = false).
  { intros cell Hin. rewrite clean_column_map in Hin.
    apply in_map_iff in Hin as (x & <- & _).
    destruct (is_select x) eqn:Hx; [now split|]. destruct x; [now split|now split]. }
  split; [|split; [|split; [|split]]].
  - unfold remaining_select. rewrite filter_none; [reflexivity|].
    intros cell Hin. now apply Hclean.
  - unfold remaining_missing. rewrite filter_none; [reflexivity|].
    intros cell Hin. now apply Hclean.
  - rewrite clean_column_map. apply length_map.
  - intros i cell Hi. rewrite clean_column_map, nth_error_map, Hi. cbn.
    f_equal. destruct (is_select cell); [reflexivity|]. now destruct cell.
  - rewrite (clean_column_map (clean_column col)). apply map_fixes.
    intros cell Hin. destruct (Hclean cell Hin) as [-> Hna]. now destruct cell.
Qed.

Section Segments.

Lemma dict_get_set (key key' : Z) (value : string) (d : list (Z * string)) :
  dict_get key' (dict_set key value d)
  = if Z.eqb key key' then Some value else dict_get key' d.
Proof.
  unfold dict_set. cbn [dict_get]. destruct (Z.eqb key key') eqn:Hk; [reflexivity|].
  induction d as [|[k v] d IH]; [reflexivity|]. cbn [filter fst dict_get].
  destruct (Z.eqb k key) eqn:Hkk; cbn [negb dict_get].
  - apply Z.eqb_eq in Hkk. subst k. now rewrite Hk.
  - now rewrite IH.
Qed.

Lemma assign_segment_names_spec (ranking : list Z) (rank : nat)
    (names : list (Z * string)) :
  NoDup ranking -> rank <= List.length segment_label_pool ->
  (List.length segment_label_pool < rank + List.length ranking ->
   assign_segment_names rank ranking names = None) /\
  (rank + List.length ranking <= List.length segment_label_pool ->
   exists d,
     assign_segment_names rank ranking names = Some d /\
     (forall i id, nth_error ranking i = Some id ->
                   dict_get id d = nth_error segment_label_pool (rank + i)) /\
     (forall id, ~ In id ranking -> dict_get id d = dict_get id names)).
Proof.
  revert rank names.
  induction ranking as [|id ranking IH]; intros rank names Hnd Hrank.
  - split; [cbn [List.length]; lia|]. intros _. exists names. split; [reflexivity|].
    split; [intros [|i] x Hx; discriminate|reflexivity].
  - inversion Hnd as [|? ? Hnotin Hnd']; subst.
    cbn [assign_segment_names List.length].
    destruct (nth_error segment_label_pool rank) as [label|] eqn:Hlabel.
    + assert (Hlt : rank < List.length segment_label_pool)
        by (apply nth_error_Some; congruence).
      destruct (IH (S rank) (dict_set id label names) Hnd' Hlt) as [Hnone Hsome].
      split; [intros H; apply Hnone; lia|].
      intros H. destruct Hsome as (d & Hd & Hget & Hother); [lia|].
      exists d. split; [exact Hd|]. split.
      * intros [|i] x Hx; cbn in Hx.
        -- injection Hx as <-. rewrite Hother by exact Hnotin.
           rewrite dict_get_set, Z.eqb_refl, Nat.add_0_r. now symmetry.
        -- rewrite (Hget i x Hx). f_equal. lia.
      * intros x Hx. rewrite Hother by (intros Hin; apply Hx; now right).
        rewrite dict_get_set. destruct (Z.eqb id x) eqn:Heq; [|reflexivity].
        apply Z.eqb_eq in Heq. subst x. exfalso. apply Hx. now left.
    + apply nth_error_None in Hlabel.
      split; [reflexivity|]. intros H. lia.
Qed.

End Segments.

(** The segment labels follow the ranking of the clusters. For a ranking
    without repetition: with more than five clusters the loop raises
    (IndexError on the label pool); with at most five, the cluster of rank i
    gets label i of the pool, which is one of the segment values the query
    pipeline's schema lists, and no other cluster gets a label. *)
Theorem segment_names_follow_the_ranking (cluster_ranking : list Z) :
  NoDup cluster_ranking ->
  (5 < List.length cluster_ranking ->
   assign_segment_names 0 cluster_ranking [] = None) /\
  (List.length cluster_ranking <= 5 ->
   exists segment_names,
     assign_segment_names 0 cluster_ranking [] = Some segment_names /\
     (forall i cluster_id,
         nth_error cluster_ranking i = Some cluster_id ->
         dict_get cluster_id segment_names = nth_error segment_label_pool i /\
         exists label, dict_get cluster_id segment_names = Some label /\
                       In label (segment_values SCHEMA)) /\
     (forall cluster_id, ~ In cluster_id cluster_ranking ->
                         dict_get cluster_id segment_names = None)).
Proof.
  intros Hnd. destruct (assign_segment_names_spec cluster_ranking 0 [] Hnd)
    as [Hnone Hsome]; [cbn; lia|].
  split; [exact Hnone|].
  intros Hlen. destruct (Hsome Hlen) as (d & Hd & Hget & Hother).
  exists d. split; [exact Hd|]. split; [|exact Hother].
  intros i id Hi. split; [exact (Hget i id Hi)|].
  rewrite (Hget i id Hi). cbn [Nat.add].
  assert (Hi' : i < List.length cluster_ranking)
    by (apply nth_error_Some; congruence).
  destruct (nth_error segment_label_pool i) as [label|] eqn:Hl.
  - exists label. split; [reflexivity|]. apply nth_error_In in Hl. exact Hl.
  - apply nth_error_None in Hl. cbn in Hl. lia.
Qed.

Section ColumnNames.

Lemma contains_char (c : ascii) (s : string) :
  Py.contains (String c EmptyString) s = has_char c s.
Proof.
  induction s as [|x s IH]; [reflexivity|].
  rewrite contains_unfold, IH. cbn. now rewrite andb_true_r, Ascii.eqb_sym.
Qed.

Lemma has_char_app (c : ascii) (s t : string) :
  has_char c (s ++ t) = has_char c s || has_char c t.
Proof. induction s as [|x s IH]; cbn; [reflexivity|]. now rewrite IH, orb_assoc. Qed.

(** Replacing a character by a text without it leaves none behind, and
    brings in no character that neither text held. *)
Lemma replace_char (c d : ascii) (new s : string) :
  has_char d new = false ->
  (d = c \/ has_char d s = false) ->
  has_char d (Py.replace (String c EmptyString) new s) = false.
Proof.
  intros Hnew. unfold Py.replace. induction s as [|x s IH]; intros Hs; [reflexivity|].
  cbn [Py.replace_from Py.startswith String.length Nat.sub].
  rewrite andb_true_r.
  assert (Hrest : d = c \/ has_char d s = false).
  { destruct Hs as [Hs|Hs]; [now left|right].
    cbn in Hs. now apply orb_false_iff in Hs. }
  destruct (Ascii.eqb c x) eqn:Hcx.
  - rewrite has_char_app, Hnew. now apply IH.
  - cbn [has_char]. rewrite (IH Hrest), orb_false_r.
    destruct Hs as [->|Hs]; [now rewrite Ascii.eqb_sym|].
    cbn in Hs. now apply orb_false_iff in Hs.
Qed.

Lemma rename_column_cases (name : string) (renames : list (string * string)) :
  rename_column name renames = name \/
  In (rename_column name renames) (map snd renames).
Proof.
  induction renames as [|[old new] renames IH]; [now left|]. cbn.
  destruct (String.eqb name old); [right; now left|]. destruct IH; auto.
Qed.

Lemma rename_column_other (name : string) (renames : list (string * string)) :
  ~ In name (map fst renames) -> rename_column name renames = name.
Proof.
  induction renames as [|[old new] renames IH]; intros H; [reflexivity|]. cbn in *.
  destruct (String.eqb name old) eqn:Heq.
  - apply String.eqb_eq in Heq. subst. tauto.
  - apply IH. tauto.
Qed.

End ColumnNames.

(** The name a column gets in the database holds no space and no dash;
    renaming a name of the database again changes nothing; and a name that
    holds neither and is not one of the five long names is kept as it is. *)
Theorem sql_friendly_names (name : string) :
  Py.contains " " (sql_friendly name) = false /\
  Py.contains "-" (sql_friendly name) = false /\
  sql_friendly (sql_friendly name) = sql_friendly name /\
  (Py.contains " " name = false -> Py.contains "-" name = false ->
   ~ In name (map fst column_renames) -> sql_friendly name = name).
Proof.
  set (plain := Py.replace "-" "_" (Py.replace " " "_" name)).
  assert (Hspace : has_char " " plain = false).
  { apply replace_char; [reflexivity|]. right.
    apply replace_char; [reflexivity|now left]. }
  assert (Hdash : has_char "-" plain = false).
  { apply replace_char; [reflexivity|now left]. }
  assert (Hfixed : forall s, has_char " " s = false -> has_char "-" s = false ->
                             Py.replace "-" "_" (Py.replace " " "_" s) = s).
  { intros s H1 H2.
    rewrite (replace_absent " " EmptyString "_" s) by (now rewrite contains_char).
    apply replace_absent. now rewrite contains_char. }
  assert (Hcases : sql_friendly name = plain \/
                   In (sql_friendly name) (map snd column_renames))
    by apply rename_column_cases.
  assert (Hclean : has_char " " (sql_friendly name) = false /\
                   has_char "-" (sql_friendly name) = false).
  { destruct Hcases as [Heq|Hin]; [rewrite Heq; now split|].
    unfold column_renames in Hin. cbn [map snd] in Hin.
    repeat (destruct Hin as [Heq|Hin]; [rewrite <- Heq; now split|]).
    destruct Hin. }
  rewrite !contains_char.
  split; [apply Hclean|]. split; [apply Hclean|]. split.
  - unfold sql_friendly at 1. rewrite Hfixed by apply Hclean.
    destruct Hcases as [Heq|Hin].
    + rewrite Heq at 1. reflexivity.
    + unfold column_renames in Hin. cbn [map snd] in Hin.
      repeat (destruct Hin as [Heq|Hin]; [rewrite <- Heq; reflexivity|]).
      destruct Hin.
  - intros H1 H2 Hkey. unfold sql_friendly. rewrite Hfixed by assumption.
    now apply rename_column_other.
Qed.

(* ===================================================================== *)
(** ** The data Analytics runs on *)
(* ===================================================================== *)

(** When Analytics runs in a turn whose request holds a word for data, it
    runs on the rows of the turn's one query: the store has been called
    exactly once, with a validated query, it returned at least one row, and
    [leads_data] is the JSON text of those rows. *)
Theorem analytics_reads_the_pipeline_rows
    (E : Env) (q : string) (a : option string) (c : Config) :
  Reach E (start (initial_state q a)) c ->
  status c = Running dataviz_agent ->
  needs_sql_of (Py.lower q) = true ->
  exists query df,
    executed_queries (trace c) = [query] /\
    validate_sql query SCHEMA = (true, EmptyString) /\
    read_sql E query = inr df /\ df <> [] /\
    leads_data (state c) = Some (to_json E df) /\
    Py.truthy_str (to_json E df) = true.
Proof.
  intros Hreach Hs Hsql. destruct (turn_reach E q a c Hreach) as [I T].
  pose proof (turn_analytics_data _ _ _ _ T Hs Hsql) as Hdata.
  destruct (leads_data (state c)) as [j|] eqn:Hj; [|discriminate].
  destruct (turn_rows _ _ _ _ T j Hj) as (query & df & Hin & Hread & Hne & Hjson).
  pose proof (turn_store_once _ _ _ _ T) as Honce.
  pose proof (inv_once _ _ _ I sql_agent ltac:(cbn; tauto)) as Hone.
  pose proof (count_history_le c sql_agent) as Hle.
  pose proof (turn_store_valid _ _ _ _ T) as Hv.
  rewrite forallb_forall in Hv. specialize (Hv query Hin). unfold validated in Hv.
  exists query, df. subst j. repeat split; auto.
  - destruct (executed_queries (trace c)) as [|x [|y l]]; cbn in Honce, Hin;
      [tauto| |lia].
    destruct Hin as [->|[]]. reflexivity.
  - unfold validate_sql in *. split_ifs; cbn in Hv; congruence.
Qed.

(** A request that holds a word for Analytics and no word for data gets no
    chart. The supervisor's first decision dispatches Analytics before any
    data exists; that is the only run of Analytics in the turn, and it
    returns the no-data message without calling anything. *)
Theorem chart_request_without_data_word
    (E : Env) (q : string) (a : option string) :
  needs_viz_of (Py.lower q) = true ->
  needs_sql_of (Py.lower q) = false ->
  status (step E (start (initial_state q a))) = Running dataviz_agent /\
  (forall c,
      Reach E (start (initial_state q a)) c ->
      status c = Running dataviz_agent ->
      c = step E (start (initial_state q a)) /\
      dataviz_agent_node E (state c) (trace c)
      = (Ok [set_messages [AIMessage Text.msg_no_data]; set_is_complete true],
         trace c)).
Proof.
  intros Hviz Hsql.
  set (c0 := start (initial_state q a)).
  assert (Hc1 : step E c0
                = mkConfig (Running dataviz_agent)
                    (apply_update (initial_state q a)
                       [ set_next_agent (Some "DATAVIZ_AGENT");
                         set_current_step 1%Z;
                         set_completed_agents ["DATAVIZ_AGENT"];
                         set_messages [] ])
                    []
                    [(supervisor,
                      [ set_next_agent (Some "DATAVIZ_AGENT");
                        set_current_step 1%Z;
                        set_completed_agents ["DATAVIZ_AGENT"];
                        set_messages [] ])]).
  { rewrite (step_supervisor E c0 eq_refl). cbv zeta.
    assert (Hsup : supervisor_node (state c0)
                   = [ set_next_agent (Some "DATAVIZ_AGENT");
                       set_current_step 1%Z;
                       set_completed_agents ["DATAVIZ_AGENT"];
                       set_messages [] ]).
    { unfold supervisor_node. cbv zeta. cbn [c0 start state initial_state messages
        first_human completed_agents leads_data current_step].
      rewrite Hviz, Hsql. reflexivity. }
    rewrite Hsup. reflexivity. }
  split; [now rewrite Hc1|].
  assert (Hinv : forall c,
             Reach E c0 c ->
             c = c0 \/ c = step E c0 \/
             (In "DATAVIZ_AGENT" (completed_agents (state c)) /\
              status c <> Running dataviz_agent)).
  { apply (reach_invariant E q a
             (fun c => c = c0 \/ c = step E c0 \/
                       (In "DATAVIZ_AGENT" (completed_agents (state c)) /\
                        status c <> Running dataviz_agent))).
    - now left.
    - intros c n Hreach Hs [->|H]; [right; now left|]. right. right.
      assert (Hrec : In "DATAVIZ_AGENT" (completed_agents (state c))).
      { destruct H as [->|[H _]]; [|exact H]. rewrite Hc1. cbn. now left. }
      clear H. destruct (turn_reach E q a c Hreach) as [I T].
      destruct (completed_after_step E q a c n I Hs)
        as [Heq|(m & -> & Hm & Hna & Heq)].
      + split; [now rewrite Heq|].
        destruct (is_responder n) eqn:Hn.
        * unfold step. rewrite Hs.
          destruct (node_fn E n (state c) (trace c)) as [[u|] tr'] eqn:Hrun;
            cbn [status]; [|discriminate].
          destruct (edge n (apply_update (state c) u)) as [m|] eqn:He;
            [|discriminate].
          intros Hm. injection Hm as ->.
          destruct (edge_to_dataviz n _ Hn He) as [-> _]. cbn in He.
          destruct (route_to_dataviz _ He) as (_ & _ & Hmem).
          apply mem_false_iff in Hmem. apply Hmem.
          destruct (responder_update E sql_agent _ _ _ _ eq_refl Hrun) as [Hp _].
          now rewrite payload_keeps_completed.
        * destruct n; try discriminate.
          rewrite (step_supervisor E c Hs). cbv zeta. cbn [status].
          destruct (supervisor_dispatch q a c I Hs)
            as [(m & Hm & Hroute & Hmem & _)|(Hroute & _)];
            rewrite Hroute; [|discriminate].
          intros Hd. injection Hd as ->. apply mem_false_iff in Hmem.
          now apply Hmem.
      + split; [rewrite Heq; apply in_app_iff; now left|].
        rewrite (step_supervisor E c Hs). cbv zeta. cbn [status].
        destruct (supervisor_dispatch q a c I Hs)
          as [(m' & Hm' & Hroute & Hmem & _)|(Hroute & _)];
          rewrite Hroute; [|discriminate].
        intros Hd. injection Hd as ->. apply mem_false_iff in Hmem.
        now apply Hmem. }
  intros c Hreach Hs.
  destruct (Hinv c Hreach) as [->|[->|[_ H]]]; [discriminate| |contradiction].
  split; [reflexivity|]. rewrite Hc1. reflexivity.
Qed.

(* ===================================================================== *)
(** ** The calls of the query pipeline *)
(* ===================================================================== *)

Lemma validate_sql_accepts (sql : string) :
  fst (validate_sql sql SCHEMA) = true ->
  validate_sql sql SCHEMA = (true, EmptyString).
Proof. unfold validate_sql. split_ifs; cbn; congruence. Qed.

(** The calls the query pipeline makes, in order: the Plan call, then the
    Generate call, then one call of the store, each only after the one
    before; the query sent to the store is the extracted text of the second
    reply and has passed the Validate stage. The pipeline raises only when
    one of the two model calls raises: an error of the store is reported in
    the message and raises nothing. *)
Theorem pipeline_calls_in_order (E : Env) (st : AgentState) (tr : list Event) :
  let plan_call := LlmInvoke (plan_prompt (working_question st)) in
  (exists new,
      snd (sql_agent_node E st tr) = (tr ++ new)%list /\
      (new = [plan_call] \/
       exists plan,
         llm E tr (plan_prompt (working_question st)) = Some plan /\
         let generate_call := LlmInvoke (generate_prompt (Py.strip plan)) in
         (new = [plan_call; generate_call] \/
          exists sql,
            llm E (tr ++ [plan_call]) (generate_prompt (Py.strip plan)) = Some sql /\
            validate_sql (extract_sql (Py.strip sql)) SCHEMA = (true, EmptyString) /\
            new = [plan_call; generate_call; SqlExecute (extract_sql (Py.strip sql))]))) /\
  (fst (sql_agent_node E st tr) = Raised <->
   llm E tr (plan_prompt (working_question st)) = None \/
   exists plan,
     llm E tr (plan_prompt (working_question st)) = Some plan /\
     fst (detect_invalid_response (Py.strip plan)) = false /\
     Py.startswith "CANNOT_ANSWER" (Py.upper (Py.strip plan)) = false /\
     llm E (tr ++ [plan_call]) (generate_prompt (Py.strip plan)) = None).
Proof.
  cbv zeta.
  sql_agent_cases E st tr.
  all: cbn [snd fst]; rewrite <- ?app_assoc; cbn [app].
  all: split;
    [ eexists; split; [reflexivity|]
    | split;
      [ intros H; try discriminate H
      | intros [H|(plan' & H1 & H2 & H3 & H4)]; try discriminate H;
        try (injection H1 as <-; rewrite ?Hdetect in *; cbn [fst] in *; congruence) ] ].
  all: try (left; reflexivity).
  all: try (right; eexists; split; [reflexivity|]; cbv zeta;
            first [ left; reflexivity
                  | right; eexists; split; [eassumption|]; split; [|reflexivity];
                    apply validate_sql_accepts; now rewrite Hvalid ]).
  all: try reflexivity.
  right. exists plan_reply. rewrite Hdetect. auto.
Qed.

(* ===================================================================== *)
(** ** The theorems at concrete turns *)
(* ===================================================================== *)

(** A query in lower case and the same query in upper-case keywords. *)
Lemma lower_case_query_is_checked_alike :
  detect_invalid_response "select * from leadscored"
  = detect_invalid_response "SELECT * FROM LEADSCORED" /\
  validate_sql "select * from leadscored" SCHEMA
  = validate_sql "SELECT * FROM LEADSCORED" SCHEMA.
Proof. apply checks_ignore_case; reflexivity. Defined.

(** A reply with a second statement behind the first. *)
Lemma second_statement_is_dropped :
  extract_sql ("select" ++ " " ++ String "*" " FROM leadscored" ++ ";"
               ++ " DROP TABLE leadscored;")
  = "select" ++ " " ++ String "*" " FROM leadscored" ++ ";".
Proof.
  apply extract_sql_first_statement; try reflexivity. discriminate.
Defined.

(** The request the Segment Strategist would read at the end of
    [pie_chart_turn]. *)
Lemma pie_chart_turn_has_one_request :
  last_human (messages (state pie_chart_turn))
  = "Show me segment distribution with a pie chart".
Proof.
  destruct (one_request_per_turn
              env_rows "Show me segment distribution with a pie chart" None
              pie_chart_turn) as (_ & _ & H & _).
  - apply reach_final.
  - exact H.
Defined.

(** The product text at the point where the Content responder is about to
    write an email about the product. *)
Lemma product_email_turn_reads_the_catalog :
  product_info (state product_email_turn_at_content)
  = (if needs_product_of
          (Py.lower "show customers and write an email about learning labs")
     then Some Text.product_str else None).
Proof.
  destruct (content_prompt_follows_the_request
              env_drift "show customers and write an email about learning labs" None
              product_email_turn_at_content) as [H _].
  - unfold product_email_turn_at_content. cbn [iterate].
    do 5 apply reach_step. apply reach_start.
  - destruct H as (_ & Hp & _); [vm_compute; reflexivity|exact Hp].
Defined.

Lemma pie_chart_turn_stays_below_the_ceiling :
  (current_step (state pie_chart_turn) <= 6)%Z.
Proof.
  destruct (step_ceiling_is_never_reached
              env_rows "Show me segment distribution with a pie chart" None
              pie_chart_turn) as (_ & H & _).
  - apply reach_final.
  - exact H.
Defined.

Lemma pie_chart_turn_runs_one_query :
  List.length (executed_queries (trace pie_chart_turn)) <= 1.
Proof.
  destruct (store_runs_one_validated_query
              env_rows "Show me segment distribution with a pie chart" None
              pie_chart_turn) as (H & _).
  - apply reach_final.
  - exact H.
Defined.

(** Why Analytics ran in [pie_chart_turn]. *)
Lemma pie_chart_turn_analytics_keyword :
  keyword_of dataviz_agent
    (Py.lower "Show me segment distribution with a pie chart") = true \/
  (dataviz_agent = dataviz_agent /\
   Py.any_in pipeline_viz_words
     (Py.lower (working_question
                  (initial_state "Show me segment distribution with a pie chart"
                                 None))) = true).
Proof.
  apply (responders_run_for_their_keywords
           env_rows "Show me segment distribution with a pie chart" None
           pie_chart_turn).
  - apply reach_final.
  - vm_compute. auto 10.
Defined.

(** Analytics has not run when the pipeline of [pie_chart_turn] starts. *)
Lemma pie_chart_turn_direct_route :
  count_node dataviz_agent (scheduled pie_chart_turn_at_pipeline) = 0.
Proof.
  destruct (direct_route_runs_analytics_twice
              env_rows "Show me segment distribution with a pie chart" None
              pie_chart_turn_at_pipeline) as (H & _).
  - unfold pie_chart_turn_at_pipeline. apply reach_step. apply reach_start.
  - vm_compute. reflexivity.
  - vm_compute. reflexivity.
  - left. vm_compute. reflexivity.
  - exact H.
Defined.

(** A greeting. *)
Lemma greeting_runs_the_pipeline :
  (status (run_team_query env_drift "hello" None) = Failed sql_agent /\
   map fst (history (run_team_query env_drift "hello" None)) = [supervisor]) \/
  (status (run_team_query env_drift "hello" None) = Done /\
   map fst (history (run_team_query env_drift "hello" None))
   = [supervisor; sql_agent; supervisor] /\
   completed_agents (state (run_team_query env_drift "hello" None)) = ["SQL_AGENT"] /\
   is_complete (state (run_team_query env_drift "hello" None)) = true).
Proof.
  apply request_without_keywords_runs_the_pipeline.
  - repeat split; vm_compute; reflexivity.
  - reflexivity.
Defined.

(** A message of Analytics with a chart comment, read by a front end whose
    [json.loads] accepts the payload. *)
Lemma analytics_message_round_trip :
  render_message (fun _ => true) ("[Data Viz Agent]" ++ chart_comment_of "{}")
  = ("[Data Viz Agent]" ++ String "010" (String "010" EmptyString), Some "{}").
Proof.
  apply (chart_comment_round_trip (fun _ => true) "[Data Viz Agent]" "{}").
  - reflexivity.
  - discriminate.
  - reflexivity.
Defined.

(** The reply shown for [pie_chart_turn]. *)
Lemma pie_chart_reply_echoes_the_request :
  exists rest,
    messages (state pie_chart_turn)
    = HumanMessage "Show me segment distribution with a pie chart" :: rest /\
    response_parts (fun _ => true) (messages (state pie_chart_turn))
    = fst (render_message (fun _ => true)
             "Show me segment distribution with a pie chart")
      :: map (fun content => fst (render_message (fun _ => true) content))
           (visible_from [Py.take_chars 100 "Show me segment distribution with a pie chart"]
              (map content rest)).
Proof.
  destruct (response_starts_with_the_request
              env_rows "Show me segment distribution with a pie chart" None
              pie_chart_turn (fun _ => true)) as [H _].
  - apply reach_final.
  - discriminate.
  - reflexivity.
  - exact H.
Defined.

(** Two clusters, the second ranked first. *)
Lemma two_clusters_get_the_first_two_labels :
  exists segment_names,
    assign_segment_names 0 [1; 0]%Z [] = Some segment_names /\
    (forall i cluster_id,
        nth_error [1; 0]%Z i = Some cluster_id ->
        dict_get cluster_id segment_names = nth_error segment_label_pool i /\
        exists label, dict_get cluster_id segment_names = Some label /\
                      In label (segment_values SCHEMA)) /\
    (forall cluster_id, ~ In cluster_id [1; 0]%Z ->
                        dict_get cluster_id segment_names = None).
Proof.
  apply (segment_names_follow_the_ranking [1; 0]%Z).
  - constructor; [intros [H|[]]; discriminate H|].
    constructor; [intros []|constructor].
  - cbn. lia.
Defined.

(** The data Analytics reads on its first run in [pie_chart_turn]. *)
Lemma pie_chart_turn_analytics_rows :
  exists query df,
    executed_queries (trace pie_chart_turn_at_analytics) = [query] /\
    validate_sql query SCHEMA = (true, EmptyString) /\
    read_sql env_rows query = inr df /\ df <> [] /\
    leads_data (state pie_chart_turn_at_analytics) = Some (to_json env_rows df) /\
    Py.truthy_str (to_json env_rows df) = true.
Proof.
  apply (analytics_reads_the_pipeline_rows
           env_rows "Show me segment distribution with a pie chart" None
           pie_chart_turn_at_analytics).
  - unfold pie_chart_turn_at_analytics, pie_chart_turn_at_pipeline.
    do 2 apply reach_step. apply reach_start.
  - vm_compute. reflexivity.
  - vm_compute. reflexivity.
Defined.

(** A request for a chart that names no data. *)
Lemma pie_chart_of_segments_gets_no_data :
  status (step env_rows (start (initial_state "pie chart of segments" None)))
  = Running dataviz_agent.
Proof.
  apply (proj1 (chart_request_without_data_word
                  env_rows "pie chart of segments" None eq_refl eq_refl)).
Defined.
